(** * Attendance decision engine: a shallow embedding

    The development follows the four Python sources:
    - [attendance_recognition.py]  : recognition loop, remote (HTTP) delivery;
    - [attendance_recognition2.py] : recognition loop, local-log delivery;
    - [app.py]                     : the Flask endpoint behind the remote sink;
    - [add_user.py]                : roster population script.

    Conventions.
    - A Python string is a list of characters with code points below 256
      (ASCII and the Latin-1 supplement); characters above are outside the
      model.  [str.lower], [str.strip] and the case classes are those of
      Python on these characters, and so is [str.title] but for the two of
      them whose title case lies above 255 (see [Py.to_title]).
    - Face distances are exact rationals ([Q]); rounding and NaN of the
      floating-point distances are not modelled.  The embedding type and the
      distance between two embeddings belong to the recognition library and
      stay abstract.
    - A wall-clock instant is an integer number of microseconds, the
      resolution of [datetime]; [datetime.now()] is a clock read by index,
      one index per call.
    - A raised exception is a value of type [exn] carried by the [res] type.
    - Camera capture and drawing are left out: the loop bodies return the
      label they draw. *)

From Stdlib Require Import Ascii String List ZArith QArith Qabs Bool Arith Lia.
From Stdlib Require Import DecimalString.
Import ListNotations.

Set Implicit Arguments.

(* ================================================================== *)
(** ** Python strings *)
(* ================================================================== *)

Module Py.

Definition str := list ascii.

(** String literals of the sources. *)
Definition lit (s : string) : str := list_ascii_of_string s.

Arguments lit s : simpl never.

(** [n <= code <= m] *)
Definition between (n m : nat) (c : ascii) : bool :=
  (n <=? nat_of_ascii c)%nat && (nat_of_ascii c <=? m)%nat.

Definition is_code (n : nat) (c : ascii) : bool :=
  (nat_of_ascii c =? n)%nat.

(** [c.isascii()] *)
Definition is_ascii (c : ascii) : bool := (nat_of_ascii c <? 128)%nat.

(** Upper-case letters: A..Z, and the capital letters U+00C0..U+00DE of
    Latin-1 but for the multiplication sign U+00D7. *)
Definition is_upper (c : ascii) : bool :=
  between 65 90 c || (between 192 222 c && negb (is_code 215 c)).

(** Lower-case characters: a..z, the ordinal indicators U+00AA and U+00BA,
    the micro sign U+00B5, and the small letters U+00DF..U+00FF of Latin-1
    but for the division sign U+00F7. *)
Definition is_lower (c : ascii) : bool :=
  between 97 122 c || is_code 170 c || is_code 181 c || is_code 186 c
  || (between 223 255 c && negb (is_code 247 c)).

Definition is_cased (c : ascii) : bool := is_upper c || is_lower c.

(** The lower case of a character: an upper-case letter moves 32 up. *)
Definition to_lower (c : ascii) : ascii :=
  if is_upper c then ascii_of_nat (nat_of_ascii c + 32) else c.

(** The title case of a character, a string: a small letter moves 32 down,
    the sharp s U+00DF becomes [Ss], and a character without case stays.
    The title cases of the micro sign U+00B5 and of U+00FF lie above 255
    (U+039C and U+0178): here these two stay as they are, which is not what
    Python does at the start of a word.  The statements below that tell
    what a name is turned into take names of ASCII characters. *)
Definition to_title (c : ascii) : str :=
  if is_code 223 c then ["S"%char; "s"%char]
  else if between 97 122 c
          || (between 224 254 c && negb (is_code 247 c))
       then [ascii_of_nat (nat_of_ascii c - 32)]
       else [c].

(** The characters [str.strip] removes: TAB..CR, FS..US, the blank, the
    next-line control U+0085 and the no-break space U+00A0. *)
Definition is_space (c : ascii) : bool :=
  between 9 13 c || between 28 32 c || is_code 133 c || is_code 160 c.

(** [s.lower()] *)
Definition lower (s : str) : str := map to_lower s.

(** [s.title()]: a character is put in title case when the character before
    it is not cased, in lower case otherwise. *)
Fixpoint title_from (previous_is_cased : bool) (s : str) : str :=
  match s with
  | [] => []
  | c :: t =>
      (if previous_is_cased then [to_lower c] else to_title c)
        ++ title_from (is_cased c) t
  end.

Definition title (s : str) : str := title_from false s.

(** [s.replace(old, new)] for one-character [old] and [new]. *)
Definition replace (old new : ascii) (s : str) : str :=
  map (fun c => if Ascii.eqb c old then new else c) s.

(** [s.startswith(c)] for a one-character prefix. *)
Definition startswith (c : ascii) (s : str) : bool :=
  match s with
  | x :: _ => Ascii.eqb x c
  | [] => false
  end.

(** [s.split(sep)] for a one-character separator; never the empty list. *)
Fixpoint split (sep : ascii) (s : str) : list str :=
  match s with
  | [] => [[]]
  | c :: t =>
      if Ascii.eqb c sep then [] :: split sep t
      else match split sep t with
           | f :: fs => (c :: f) :: fs
           | [] => [[c]]
           end
  end.

Fixpoint lstrip (s : str) : str :=
  match s with
  | [] => []
  | c :: t => if is_space c then lstrip t else s
  end.

Fixpoint rstrip (s : str) : str :=
  match s with
  | [] => []
  | c :: t =>
      match rstrip t with
      | [] => if is_space c then [] else [c]
      | r => c :: r
      end
  end.

(** [s.strip()] *)
Definition strip (s : str) : str := lstrip (rstrip s).

(** [f.readlines()] on a file opened in text mode: the content is cut after
    every line end, and a line end (LF, CR LF or a lone CR) reads as LF. *)
Fixpoint readlines (s : str) : list str :=
  match s with
  | [] => []
  | c :: t =>
      if Ascii.eqb c "010" then ["010"%char] :: readlines t
      else if Ascii.eqb c "013" then
        match t with
        | c' :: t' =>
            if Ascii.eqb c' "010" then ["010"%char] :: readlines t'
            else ["010"%char] :: readlines t
        | [] => [["010"%char]]
        end
      else match readlines t with
           | l :: ls => (c :: l) :: ls
           | [] => [[c]]
           end
  end.

Definition str_eqb (a b : str) : bool :=
  if list_eq_dec ascii_dec a b then true else false.

(** [x in l] for a list of strings. *)
Definition mem (x : str) (l : list str) : bool := existsb (str_eqb x) l.

End Py.

(* ================================================================== *)
(** ** Exceptions *)
(* ================================================================== *)

Inductive exn : Type :=
  | ValueError
  | IndexError
  | AttributeError
  | JSONDecodeError
  | ConnectionError
  | OtherException.

(** A computation that either returns or raises. *)
Inductive res (A : Type) : Type :=
  | Ret (a : A)
  | Raise (e : exn).

Arguments Ret {A} a.
Arguments Raise {A} e.

Definition bind {A B : Type} (m : res A) (k : A -> res B) : res B :=
  match m with
  | Ret a => k a
  | Raise e => Raise e
  end.

Notation "x <- m ;; k" := (bind m (fun x => k))
  (at level 61, m at next level, right associativity).

(** [l[i]] on a Python list. *)
Definition index {A : Type} (l : list A) (i : nat) : res A :=
  match nth_error l i with
  | Some a => Ret a
  | None => Raise IndexError
  end.

(* ================================================================== *)
(** ** The recognition library: distances, comparison, argmin *)
(* ================================================================== *)

Definition Qltb (x y : Q) : bool := negb (Qle_bool y x).

(** [TOLERANCE = 0.52] in both recognition scripts. *)
Definition TOLERANCE : Q := 52 # 100.

(** [np.argmin]: the index of the first occurrence of the least element;
    on an empty array numpy raises [ValueError]. *)
Fixpoint argmin_from (best_i : nat) (best : Q) (i : nat) (l : list Q) : nat :=
  match l with
  | [] => best_i
  | d :: t =>
      if Qltb d best then argmin_from i d (S i) t
      else argmin_from best_i best (S i) t
  end.

Definition argmin (l : list Q) : res nat :=
  match l with
  | [] => Raise ValueError
  | d :: t => Ret (argmin_from 0 d 1 t)
  end.

Module Recognition.
Section Faces.

(** A face embedding and the Euclidean distance of the recognition model;
    both belong to the external library and stay abstract. *)
Variable encoding : Type.
Variable distance : encoding -> encoding -> Q.

(** [face_recognition.face_distance(known, q)] *)
Definition face_distance (known : list encoding) (q : encoding) : list Q :=
  map (fun k => distance k q) known.

(** [face_recognition.compare_faces(known, q, tolerance)]:
    [list(face_distance(known, q) <= tolerance)] *)
Definition compare_faces (known : list encoding) (q : encoding) (tolerance : Q)
  : list bool :=
  map (fun d => Qle_bool d tolerance) (face_distance known q).

(** *** Roster loading ([load_known_faces], the same in both scripts) *)

(** One sub-directory of [KNOWN_FACES_DIR]: its name and, for every file in
    it, the encodings [face_encodings] finds in that image. *)
Record person_dir : Type := {
  dir_name : Py.str;
  dir_images : list (list encoding)
}.

Definition display_name (name : Py.str) : Py.str :=
  Py.title (Py.replace "_" " " name).

Definition add_image (name : Py.str)
    (acc : list encoding * list Py.str) (encodings : list encoding)
  : list encoding * list Py.str :=
  let '(known_face_encodings, known_face_names) := acc in
  match encodings with
  | e0 :: _ =>
      (known_face_encodings ++ [e0], known_face_names ++ [display_name name])
  | [] => acc
  end.

Definition add_person (acc : list encoding * list Py.str) (d : person_dir)
  : list encoding * list Py.str :=
  if Py.startswith "." (dir_name d) then acc
  else fold_left (add_image (dir_name d)) (dir_images d) acc.

Definition load_known_faces (listing : list person_dir)
  : list encoding * list Py.str :=
  fold_left add_person listing ([], []).

(** *** The acceptance test of the video loop (the same in both scripts) *)

Definition UNKNOWN_LABEL : Py.str := Py.lit "Face not match - UPDATE DATABASE".

(** [Some name] when the attendance-recording branch is taken, [None] when
    the [else] branch is. *)
Definition recognize (known_face_encodings : list encoding)
    (known_face_names : list Py.str) (face_encoding : encoding)
  : res (option Py.str) :=
  let matches := compare_faces known_face_encodings face_encoding TOLERANCE in
  let face_distances := face_distance known_face_encodings face_encoding in
  best_match_index <- argmin face_distances ;;
  m <- index matches best_match_index ;;
  accept <- (if m then
               d <- index face_distances best_match_index ;;
               Ret (Qltb d TOLERANCE)
             else Ret false) ;;
  if (accept : bool) then
    name <- index known_face_names best_match_index ;;
    Ret (Some name)
  else Ret None.

(** The acceptance test reduced to the strict comparison alone. *)
Definition recognize_strict (known_face_encodings : list encoding)
    (known_face_names : list Py.str) (face_encoding : encoding)
  : res (option Py.str) :=
  let face_distances := face_distance known_face_encodings face_encoding in
  best_match_index <- argmin face_distances ;;
  d <- index face_distances best_match_index ;;
  if Qltb d TOLERANCE then
    name <- index known_face_names best_match_index ;;
    Ret (Some name)
  else Ret None.

End Faces.
End Recognition.

(* ================================================================== *)
(** ** Remote delivery: [attendance_recognition.py] and [app.py] *)
(* ================================================================== *)

Module Remote.

Import Py.

(** A JSON document: an object with string values, or anything else. *)
Inductive json : Type :=
  | JObj (fields : list (str * str))
  | JOther.

(** [d.get(key)] on a dict with string keys. *)
Fixpoint dict_get (d : list (str * str)) (key : str) : option str :=
  match d with
  | [] => None
  | (k, v) :: t => if str_eqb k key then Some v else dict_get t key
  end.

(** A received HTTP response; [body = None] when the body is not JSON. *)
Record response : Type := {
  status_code : Z;
  body : option json
}.

(** [response.json()] *)
Definition response_json (r : response) : res json :=
  match body r with
  | Some j => Ret j
  | None => Raise JSONDecodeError
  end.

(** [j.get('error', default)] *)
Definition json_get (j : json) (key default : str) : res str :=
  match j with
  | JObj fields =>
      match dict_get fields key with
      | Some v => Ret v
      | None => Ret default
      end
  | JOther => Raise AttributeError
  end.

(** The lines the client prints, with the interpolated values. *)
Inductive log_line : Type :=
  | API_SUCCESS (face_id_name : str)
  | API_FAIL (status : Z) (error_msg : str)
  | API_FATAL
  | API_ERROR (e : exn).

Inductive event : Type :=
  | Posted (payload : list (str * str))
  | Printed (line : log_line).

Definition face_id_of (face_id_name : str) : str :=
  replace " " "_" (lower face_id_name).

Section Client.

(** The world behind [requests.post(API_ENDPOINT, json=payload)]: it answers
    with a response or the call raises, and the world moves on. *)
Variable W : Type.
Variable post : W -> list (str * str) -> W * res response.

(** The [try] block of [mark_attendance_via_api]: the world after it, the
    effects so far, and whether it raised. *)
Definition mark_attendance_try (face_id_name : str) (payload : list (str * str))
    (w : W) : W * list event * res unit :=
  let '(w1, r) := post w payload in
  match r with
  | Raise e => (w1, [Posted payload], Raise e)
  | Ret response =>
      if (status_code response =? 201)%Z then
        (w1, [Posted payload; Printed (API_SUCCESS face_id_name)], Ret tt)
      else
        match (j <- response_json response ;;
               json_get j (lit "error") (lit "Unknown server issue.")) with
        | Ret error_msg =>
            (w1, [Posted payload;
                  Printed (API_FAIL (status_code response) error_msg)], Ret tt)
        | Raise e => (w1, [Posted payload], Raise e)
        end
  end.

(** [mark_attendance_via_api(face_id_name)] *)
Definition mark_attendance_via_api (face_id_name : str) (w : W)
  : W * list event * res unit :=
  let payload := [(lit "face_id", face_id_of face_id_name)] in
  let '(w1, evs, r) := mark_attendance_try face_id_name payload w in
  match r with
  | Ret tt => (w1, evs, Ret tt)
  | Raise ConnectionError => (w1, evs ++ [Printed API_FATAL], Ret tt)
  | Raise e => (w1, evs ++ [Printed (API_ERROR e)], Ret tt)
  end.

Section Loop.

Variable encoding : Type.
Variable distance : encoding -> encoding -> Q.

(** The body of [for face_encoding, ... in zip(...)]: the world after it, the
    effects, and the label drawn on the frame. *)
Definition process_face (known_face_encodings : list encoding)
    (known_face_names : list str) (face_encoding : encoding) (w : W)
  : res (W * list event * str) :=
  r <- Recognition.recognize distance known_face_encodings known_face_names
         face_encoding ;;
  match r with
  | Some name =>
      let '(w1, evs, sent) := mark_attendance_via_api name w in
      _ <- sent ;;
      Ret (w1, evs, name)
  | None => Ret (w, [], Recognition.UNKNOWN_LABEL)
  end.

End Loop.
End Client.

(** *** The endpoint [/api/attendance/mark] of [app.py] *)

Record person : Type := {
  person_id : Z;
  face_id : str;
  person_name : str
}.

Record attendance : Type := {
  attendance_id : Z;
  person_face_id : str;
  status : str;
  timestamp : Z
}.

Record database : Type := {
  students : list person;
  teachers : list person;
  attendances : list attendance
}.

(** [Model.query.filter_by(face_id=fid).first()] *)
Definition first_by_face_id (fid : str) (rows : list person) : option person :=
  find (fun p => str_eqb (face_id p) fid) rows.

(** [mark_attendance()], on the request's JSON object, at the instant
    [utcnow]; it returns the body and the status code. *)
Definition mark_attendance (utcnow : Z) (d : database)
    (data : list (str * str)) : database * (json * Z) :=
  match dict_get data (lit "face_id") with
  | None | Some [] =>
      (d, (JObj [(lit "error", lit "Missing 'face_id' in request data.")],
           400%Z))
  | Some person_face_id =>
      let is_known :=
        match first_by_face_id person_face_id (students d) with
        | Some p => Some p
        | None => first_by_face_id person_face_id (teachers d)
        end in
      match is_known with
      | Some _ =>
          let new_record :=
            {| attendance_id := Z.of_nat (length (attendances d)) + 1;
               person_face_id := person_face_id;
               status := lit "Present";
               timestamp := utcnow |} in
          ({| students := students d;
              teachers := teachers d;
              attendances := attendances d ++ [new_record] |},
           (JObj [(lit "message",
                   lit "Attendance marked for " ++ person_face_id ++ lit ".")],
            201%Z))
      | None =>
          (d, (JObj [(lit "error",
                      lit "ID " ++ person_face_id
                        ++ lit " recognized by AI but not found in DB. Enroll first.")],
               404%Z))
      end
  end.

(** The client talking to a running [app.py]: the server state and the
    number of requests served; request [k] is stamped [utc k]. *)
Definition flask_post (utc : nat -> Z) (w : database * nat)
    (payload : list (str * str)) : (database * nat) * res response :=
  let '(d, k) := w in
  let '(d1, (j, code)) := mark_attendance (utc k) d payload in
  ((d1, S k), Ret {| status_code := code; body := Some j |}).

End Remote.

(* ================================================================== *)
(** ** Local-log delivery: [attendance_recognition2.py] *)
(* ================================================================== *)

Module LocalLog.

Import Py.

(** One second, in microseconds. *)
Definition SECOND : Z := 1000000.

Arguments SECOND : simpl never.

(** The instant [t] with its microseconds dropped, as a [datetime] is after
    a trip through [strftime('%Y-%m-%d %H:%M:%S')] and [strptime]. *)
Definition floor_sec (t : Z) : Z := (t / SECOND * SECOND)%Z.

(** [print(f"ATTENDANCE LOGGED: {name} at {dt_string}")] *)
Inductive log_line : Type :=
  | ATTENDANCE_LOGGED (name : str) (dt_string : str).

(** What [log_attendance] acts on: the number of clock readings taken so
    far, the content of [ATTENDANCE_FILE], and the lines printed. *)
Record world : Type := {
  reads : nat;
  file : str;
  stdout : list log_line
}.

(** The file as the script creates it on a first run. *)
Definition new_log : str := lit "Name, Timestamp" ++ ["010"%char].

Section Log.

(** [datetime.now()]: the [k]-th reading of the wall clock. *)
Variable clock : nat -> Z.

(** [t.strftime('%Y-%m-%d %H:%M:%S')] and
    [datetime.strptime(s, '%Y-%m-%d %H:%M:%S')], [None] for [ValueError]. *)
Variable strftime : Z -> str.
Variable strptime : str -> option Z.

(** One turn of [for line in log_data]; the bare [except] swallows the
    [IndexError] of [entry[1]] and the [ValueError] of [strptime], both
    raised before the clock is read. *)
Definition scan_line (acc : nat * list str) (line : str) : nat * list str :=
  let '(k, recently_logged) := acc in
  let entry := split "," line in
  match nth_error entry 1 with
  | None => acc
  | Some e1 =>
      match strptime (strip e1) with
      | None => acc
      | Some log_time =>
          if (clock k - log_time <? 3600 * SECOND)%Z
          then (S k, recently_logged ++ [strip (hd [] entry)])
          else (S k, recently_logged)
      end
  end.

(** [log_attendance(name)] *)
Definition log_attendance (name : str) (w : world) : bool * world :=
  let log_data := readlines (file w) in
  let '(k, recently_logged) :=
    fold_left scan_line log_data (reads w, []) in
  if negb (mem name recently_logged) then
    let now := clock k in
    let dt_string := strftime now in
    (true,
     {| reads := S k;
        file := file w ++ ["010"%char] ++ name ++ lit ", " ++ dt_string;
        stdout := stdout w ++ [ATTENDANCE_LOGGED name dt_string] |})
  else
    (false, {| reads := k; file := file w; stdout := stdout w |}).

(** Calls of [log_attendance] one after the other. *)
Fixpoint log_all (names : list str) (w : world) : world :=
  match names with
  | [] => w
  | name :: rest => log_all rest (snd (log_attendance name w))
  end.

Section Loop.

Variable encoding : Type.
Variable distance : encoding -> encoding -> Q.

(** The body of [for face_encoding, ... in zip(...)]: the world after it and
    the label drawn on the frame. *)
Definition process_face (known_face_encodings : list encoding)
    (known_face_names : list str) (face_encoding : encoding) (w : world)
  : res (world * str) :=
  r <- Recognition.recognize distance known_face_encodings known_face_names
         face_encoding ;;
  match r with
  | Some name => Ret (snd (log_attendance name w), name)
  | None => Ret (w, Recognition.UNKNOWN_LABEL)
  end.

End Loop.
End Log.
End LocalLog.

(* ================================================================== *)
(** ** The roster and presence routes of [app.py] *)
(* ================================================================== *)

Module Api.

Import Py.
Import Remote.

(** A JSON value, as [jsonify] sends it and [response.json()] reads it. *)
#[warnings="-register-all"]
Inductive jvalue : Type :=
  | JNull
  | JBool (b : bool)
  | JInt (n : Z)
  | JStr (s : str)
  | JList (l : list jvalue)
  | JDict (fields : list (str * jvalue)).

(** [f"{n}"] for an integer. *)
Definition str_of_Z (n : Z) : str := lit (NilZero.string_of_int (Z.to_int n)).

(** [Student] and [Teacher] have the same columns and the same handlers up
    to the word used in the messages. *)
Inductive kind : Type := Student | Teacher.

Definition table (k : kind) (d : database) : list person :=
  match k with
  | Student => students d
  | Teacher => teachers d
  end.

Definition set_table (k : kind) (rows : list person) (d : database)
  : database :=
  match k with
  | Student => {| students := rows; teachers := teachers d;
                  attendances := attendances d |}
  | Teacher => {| students := students d; teachers := rows;
                  attendances := attendances d |}
  end.

Definition Kind (k : kind) : str :=
  match k with Student => lit "Student" | Teacher => lit "Teacher" end.

Definition kind_word (k : kind) : str :=
  match k with Student => lit "student" | Teacher => lit "teacher" end.

(** The key SQLite gives a new row of a table whose integer primary key is
    not declared AUTOINCREMENT: one more than the largest key in use. *)
Definition next_id (rows : list person) : Z :=
  (fold_right Z.max 0 (map person_id rows) + 1)%Z.

(** [serialize_person(person)] *)
Definition serialize_person (p : person) : jvalue :=
  JDict [(lit "id", JInt (person_id p));
         (lit "face_id", JStr (face_id p));
         (lit "name", JStr (person_name p))].

(** The methods the two kinds of route accept. *)
Inductive collection_method : Type := GET | POST.

Inductive item_method : Type := GET_ONE | PUT | DELETE.

(** [handle_students()] and [handle_teachers()], on the request's JSON
    object. *)
Definition handle_people (k : kind) (method : collection_method)
    (data : list (str * str)) (d : database) : database * (jvalue * Z) :=
  match method with
  | POST =>
      match data, dict_get data (lit "name"), dict_get data (lit "face_id") with
      | _ :: _, Some name, Some fid =>
          match first_by_face_id fid (table k d) with
          | Some _ =>
              (d, (JDict [(lit "error",
                           JStr (Kind k ++ lit " with face_id '" ++ fid
                                   ++ lit "' already exists."))],
                   409%Z))
          | None =>
              let new_person :=
                {| person_id := next_id (table k d);
                   face_id := fid;
                   person_name := name |} in
              (set_table k (table k d ++ [new_person]) d,
               (JDict [(lit "message",
                        JStr (Kind k ++ lit " " ++ name
                                ++ lit " added successfully!"))],
                201%Z))
          end
      | _, _, _ =>
          (d, (JDict [(lit "error", JStr (lit "Missing name or face_id"))],
               400%Z))
      end
  | GET => (d, (JList (map serialize_person (table k d)), 200%Z))
  end.

Definition handle_students := handle_people Student.
Definition handle_teachers := handle_people Teacher.

(** [Model.query.get_or_404(id)]: the row with that key, if any. *)
Definition get_by_id (id : Z) (rows : list person) : option person :=
  find (fun p => (person_id p =? id)%Z) rows.

(** [handle_student_by_id(id)] and [handle_teacher_by_id(id)].  A missing
    row aborts with a 404 page, which is not JSON; an answer left without
    [commit] leaves the database as it was.  A key of 2^63 or more is not an
    SQLite integer: binding it in [get_or_404] raises [OverflowError], which
    Flask answers with a 500 page.  No row SQLite stores has such a key, so
    the case is met among the keys that are not found. *)
Definition handle_person_by_id (k : kind) (id : Z) (method : item_method)
    (data : list (str * str)) (d : database)
  : database * (option jvalue * Z) :=
  match get_by_id id (table k d) with
  | None =>
      (d, (None, if (9223372036854775808 <=? id)%Z then 500%Z else 404%Z))
  | Some row =>
      match method with
      | GET_ONE => (d, (Some (serialize_person row), 200%Z))
      | PUT =>
          let renamed :=
            match dict_get data (lit "name") with
            | Some name =>
                {| person_id := person_id row;
                   face_id := face_id row;
                   person_name := name |}
            | None => row
            end in
          let commit (p : person) :=
            (set_table k
               (map (fun q => if (person_id q =? id)%Z then p else q)
                  (table k d)) d,
             (Some (JDict [(lit "message",
                            JStr (Kind k ++ lit " ID " ++ str_of_Z id
                                    ++ lit " updated."))]),
              200%Z)) in
          match dict_get data (lit "face_id") with
          | Some fid =>
              match first_by_face_id fid (table k d) with
              | Some _ =>
                  if negb (str_eqb (face_id row) fid) then
                    (d, (Some (JDict [(lit "error",
                                       JStr (lit "Face ID already in use by another "
                                               ++ kind_word k ++ lit "."))]),
                         409%Z))
                  else
                    commit {| person_id := person_id renamed;
                              face_id := fid;
                              person_name := person_name renamed |}
              | None =>
                  commit {| person_id := person_id renamed;
                            face_id := fid;
                            person_name := person_name renamed |}
              end
          | None => commit renamed
          end
      | DELETE =>
          (set_table k
             (filter (fun q => negb (person_id q =? id)%Z) (table k d)) d,
           (Some (JDict [(lit "message",
                          JStr (Kind k ++ lit " ID " ++ str_of_Z id
                                  ++ lit " deleted successfully."))]),
            200%Z))
      end
  end.

Definition handle_student_by_id := handle_person_by_id Student.
Definition handle_teacher_by_id := handle_person_by_id Teacher.

(** [get_teacher_presence()], at the instant [utcnow]: a teacher is present
    when some attendance row of that [face_id], with status [Present], is at
    most 60 minutes old. *)
Definition get_teacher_presence (utcnow : Z) (d : database) : jvalue * Z :=
  let one_hour_ago := (utcnow - 60 * 60 * 1000000)%Z in
  (JList
     (map (fun teacher =>
             let is_present :=
               existsb (fun a =>
                          str_eqb (person_face_id a) (face_id teacher)
                          && str_eqb (status a) (lit "Present")
                          && (one_hour_ago <=? timestamp a)%Z)
                 (attendances d) in
             JDict [(lit "name", JStr (person_name teacher));
                    (lit "face_id", JStr (face_id teacher));
                    (lit "status",
                     JStr (if is_present then lit "Present"
                           else lit "Absent/Unknown"))])
        (teachers d)),
   200%Z).

(** [chatbot_endpoint()], on the question and the context of the request
    ([None] when the key is missing) and on the index [random.choice]
    draws. *)
Definition mock_responses (user_question : str) : list str :=
  [lit "The data analysis indicates that solution relies on a well-structured SQLite join.";
   lit "As an AI, I suggest you consult the API documentation for the correct endpoint.";
   lit "That question requires integration with the timetable data, which is still pending.";
   lit "Regarding '" ++ user_question
     ++ lit "', I can provide real-time attendance figures if you ask for them specifically."].

(** [l[-3:]] *)
Definition last3 {A : Type} (l : list A) : list A :=
  skipn (length l - 3) l.

Definition chatbot_endpoint (choice : nat) (question : option str)
    (context : option (list jvalue)) : jvalue * Z :=
  match question with
  | None | Some [] =>
      (JDict [(lit "response", JStr (lit "Please provide a question."))],
       400%Z)
  | Some user_question =>
      let context := match context with Some c => c | None => [] end in
      let response_text :=
        nth (choice mod 4) (mock_responses user_question) [] in
      let context :=
        context ++ [JDict [(lit "user", JStr user_question)]]
                ++ [JDict [(lit "bot", JStr response_text)]] in
      (JDict [(lit "response", JStr response_text);
              (lit "context", JList (last3 context))],
       200%Z)
  end.

End Api.

(* ================================================================== *)
(** ** The roster population script: [add_user.py] *)
(* ================================================================== *)

Module AddUser.

Import Py.

Definition API_STUDENTS : str := lit "http://127.0.0.1:5000/api/students".
Definition API_TEACHERS : str := lit "http://127.0.0.1:5000/api/teachers".

Record response : Type := {
  status_code : Z;
  body : option Api.jvalue
}.

(** [response.json()] *)
Definition response_json (r : response) : res Api.jvalue :=
  match body r with
  | Some j => Ret j
  | None => Raise JSONDecodeError
  end.

(** [j.get(key, default)]: only a JSON object has [get]. *)
Fixpoint dict_get (fields : list (str * Api.jvalue)) (key : str)
  : option Api.jvalue :=
  match fields with
  | [] => None
  | (k, v) :: t => if str_eqb k key then Some v else dict_get t key
  end.

Definition json_get (j : Api.jvalue) (key : str) (default : Api.jvalue)
  : res Api.jvalue :=
  match j with
  | Api.JDict fields =>
      match dict_get fields key with
      | Some v => Ret v
      | None => Ret default
      end
  | _ => Raise AttributeError
  end.

Inductive log_line : Type :=
  | SUCCESS (name face_id : str)
  | SKIPPED (name face_id : str)
  | FAILED (name : str) (status : Z) (error_msg : Api.jvalue)
  | FATAL (url : str).

Inductive event : Type :=
  | Posted (url : str) (payload : list (str * str))
  | Printed (line : log_line).

Section Client.

Variable W : Type.
Variable post : W -> str -> list (str * str) -> W * res response.

(** [add_user(url, name, face_id)]: only [ConnectionError] is caught. *)
Definition add_user (url name face_id : str) (w : W)
  : W * list event * res unit :=
  let payload := [(lit "name", name); (lit "face_id", face_id)] in
  let '(w1, r) := post w url payload in
  match r with
  | Ret response =>
      if (status_code response =? 201)%Z then
        (w1, [Posted url payload; Printed (SUCCESS name face_id)], Ret tt)
      else if (status_code response =? 409)%Z then
        (w1, [Posted url payload; Printed (SKIPPED name face_id)], Ret tt)
      else
        match (j <- response_json response ;;
               json_get j (lit "error") (Api.JStr (lit "Unknown response."))) with
        | Ret error_msg =>
            (w1, [Posted url payload;
                  Printed (FAILED name (status_code response) error_msg)],
             Ret tt)
        | Raise e => (w1, [Posted url payload], Raise e)
        end
  | Raise ConnectionError =>
      (w1, [Posted url payload; Printed (FATAL url)], Ret tt)
  | Raise e => (w1, [Posted url payload], Raise e)
  end.

End Client.

Section Server.

(** What a POST to any other address comes to: another route of the
    server, another server, or no server at all. *)
Variable elsewhere :
  Remote.database -> str -> list (str * str) -> Remote.database * res response.

(** The script talking to a running [app.py]: a POST to one of the two
    roster addresses reaches its handler. *)
Definition flask_post (d : Remote.database) (url : str)
    (payload : list (str * str)) : Remote.database * res response :=
  if str_eqb url API_STUDENTS then
    let '(d1, (j, code)) := Api.handle_students Api.POST payload d in
    (d1, Ret {| status_code := code; body := Some j |})
  else if str_eqb url API_TEACHERS then
    let '(d1, (j, code)) := Api.handle_teachers Api.POST payload d in
    (d1, Ret {| status_code := code; body := Some j |})
  else elsewhere d url payload.

End Server.

End AddUser.

(* ================================================================== *)
(** ** One frame of the video loops *)
(* ================================================================== *)

Module VideoLoop.

Import Py.

(** A face location [(top, right, bottom, left)]. *)
Record box : Type := {
  top : Z;
  right : Z;
  bottom : Z;
  left : Z
}.

(** [(0, 255, 0)] and [(0, 0, 255)]. *)
Inductive color : Type := GREEN | RED.

(** What the loop draws for one face. *)
Record drawn : Type := {
  drawn_box : box;
  drawn_label : str;
  drawn_color : color
}.

(** [top *= 4; right *= 4; bottom *= 4; left *= 4] *)
Definition scale4 (b : box) : box :=
  {| top := top b * 4; right := right b * 4;
     bottom := bottom b * 4; left := left b * 4 |}.

(** Green for a label outside the two messages, red otherwise. *)
Definition color_of (name_label : str) : color :=
  if negb (mem name_label
             [Recognition.UNKNOWN_LABEL; lit "Scanning..."])
  then GREEN else RED.

Definition draw (loc : box) (name_label : str) : drawn :=
  {| drawn_box := scale4 loc;
     drawn_label := name_label;
     drawn_color := color_of name_label |}.

Section Frames.

Variable encoding : Type.
Variable distance : encoding -> encoding -> Q.

Section RemoteFrame.

Variable W : Type.
Variable post : W -> list (str * str) -> W * res Remote.response.

(** [for face_encoding, (top, right, bottom, left) in zip(...)] of
    [attendance_recognition.py]. *)
Fixpoint remote_frame (known_face_encodings : list encoding)
    (known_face_names : list str) (faces : list (encoding * box)) (w : W)
  : res (W * list Remote.event * list drawn) :=
  match faces with
  | [] => Ret (w, [], [])
  | (face_encoding, loc) :: rest =>
      r <- Remote.process_face post distance known_face_encodings
             known_face_names face_encoding w ;;
      let '(w1, evs, name_label) := r in
      r2 <- remote_frame known_face_encodings known_face_names rest w1 ;;
      let '(w2, evs2, ds) := r2 in
      Ret (w2, evs ++ evs2, draw loc name_label :: ds)
  end.

End RemoteFrame.

Section LocalFrame.

Variable clock : nat -> Z.
Variable strftime : Z -> str.
Variable strptime : str -> option Z.

(** The same loop in [attendance_recognition2.py]. *)
Fixpoint local_frame (known_face_encodings : list encoding)
    (known_face_names : list str) (faces : list (encoding * box))
    (w : LocalLog.world) : res (LocalLog.world * list drawn) :=
  match faces with
  | [] => Ret (w, [])
  | (face_encoding, loc) :: rest =>
      r <- LocalLog.process_face clock strftime strptime distance
             known_face_encodings known_face_names face_encoding w ;;
      let '(w1, name_label) := r in
      r2 <- local_frame known_face_encodings known_face_names rest w1 ;;
      let '(w2, ds) := r2 in
      Ret (w2, draw loc name_label :: ds)
  end.

End LocalFrame.
End Frames.
End VideoLoop.

(* ================================================================== *)
(** ** Vocabulary of the properties *)
(* ================================================================== *)

(** [m] is a least element of [l]. *)
Definition is_min (m : Q) (l : list Q) : Prop :=
  (exists x, In x l /\ x == m) /\ forall x, In x l -> m <= x.

(** In a sequence of emitted events [(identity, instant)], two events of one
    identity are never closer than [window]. *)
Definition cooldown_ok (window : Z) (events : list (Py.str * Z)) : Prop :=
  forall i j x ti tj,
    (i < j)%nat ->
    nth_error events i = Some (x, ti) ->
    nth_error events j = Some (x, tj) ->
    (window <= tj - ti)%Z.

(** The events of the remote variant: the rows of the attendance table. *)
Definition remote_events (d : Remote.database) : list (Py.str * Z) :=
  map (fun a => (Remote.person_face_id a, Remote.timestamp a))
      (Remote.attendances d).

(** The display form the description gives a directory name: every
    underscore shown as a space, and the first letter of every word, a
    small ASCII letter, replaced by its capital. *)
Fixpoint capitalized_from (word_start : bool) (s : Py.str) : Py.str :=
  match s with
  | [] => []
  | c :: t =>
      if Ascii.eqb c "_" then " "%char :: capitalized_from true t
      else (if word_start then ascii_of_nat (nat_of_ascii c - 32) else c)
             :: capitalized_from false t
  end.

Definition display_form (name : Py.str) : Py.str := capitalized_from true name.

(** A small ASCII letter, a to z. *)
Definition small_letter (c : ascii) : Prop := Py.between 97 122 c = true.

(** What the client prints for an answer of [requests.post]. *)
Definition printed_for (face_id_name : Py.str) (r : res Remote.response)
  : Remote.log_line :=
  match r with
  | Raise ConnectionError => Remote.API_FATAL
  | Raise e => Remote.API_ERROR e
  | Ret response =>
      if (Remote.status_code response =? 201)%Z
      then Remote.API_SUCCESS face_id_name
      else match Remote.body response with
           | None => Remote.API_ERROR JSONDecodeError
           | Some Remote.JOther => Remote.API_ERROR AttributeError
           | Some (Remote.JObj fields) =>
               Remote.API_FAIL (Remote.status_code response)
                 match Remote.dict_get fields (Py.lit "error") with
                 | Some msg => msg
                 | None => Py.lit "Unknown server issue."
                 end
           end
  end.

(** The requests sent and the lines printed, out of a list of effects. *)
Definition posts (evs : list Remote.event) : list (list (Py.str * Py.str)) :=
  flat_map (fun e => match e with Remote.Posted p => [p] | _ => [] end) evs.

Definition prints (evs : list Remote.event) : list Remote.log_line :=
  flat_map (fun e => match e with Remote.Printed l => [l] | _ => [] end) evs.

(** A display name the log file can hold and give back: no comma, no line
    end inside, no white space around. *)
Definition loggable (name : Py.str) : Prop :=
  ~ In ","%char name /\ ~ In "010"%char name /\ ~ In "013"%char name
  /\ Py.strip name = name.

(** The contract of the [datetime] text format the log relies on, at the
    instants the clock shows: the text read back is the instant with its
    microseconds dropped, and the text has no comma, no line end and no
    white space around. *)
Record datetime_format (clock : nat -> Z) (strftime : Z -> Py.str)
    (strptime : Py.str -> option Z) : Prop := {
  parse_format :
    forall k, strptime (strftime (clock k))
              = Some (LocalLog.floor_sec (clock k));
  format_loggable : forall k, loggable (strftime (clock k))
}.

(** The whole roster as a list of gallery entries: every image with at
    least one face, of every directory that is not hidden, gives one entry,
    the first face of the image under the display name of the directory. *)
Definition image_entries (encoding : Type) (name : Py.str)
    (images : list (list encoding)) : list (encoding * Py.str) :=
  flat_map (fun encodings =>
              match encodings with
              | e0 :: _ => [(e0, Recognition.display_name name)]
              | [] => []
              end) images.

Definition gallery_entries (encoding : Type)
    (listing : list (Recognition.person_dir encoding))
  : list (encoding * Py.str) :=
  flat_map (fun d =>
              if Py.startswith "." (Recognition.dir_name d) then []
              else image_entries (Recognition.dir_name d)
                     (Recognition.dir_images d)) listing.

(** A directory of the roster that the loader does not skip. *)
Definition visible (encoding : Type) (d : Recognition.person_dir encoding)
  : bool :=
  negb (Py.startswith "." (Recognition.dir_name d)).

(** The number of images of a directory in which a face is found. *)
Definition encodable (encoding : Type) (images : list (list encoding)) : nat :=
  length (filter (fun encodings =>
                    match encodings with [] => false | _ => true end) images).

(** What one line of the log yields inside the [try] of [log_attendance]:
    the name and the instant it holds, or nothing when [entry[1]] or
    [strptime] raises. *)
Definition parse_line (strptime : Py.str -> option Z) (line : Py.str)
  : option (Py.str * Z) :=
  let entry := Py.split "," line in
  match nth_error entry 1 with
  | None => None
  | Some e1 =>
      match strptime (Py.strip e1) with
      | None => None
      | Some log_time => Some (Py.strip (hd [] entry), log_time)
      end
  end.

(** The entries a log file holds, line by line. *)
Definition entries (strptime : Py.str -> option Z) (content : Py.str)
  : list (option (Py.str * Z)) :=
  map (parse_line strptime) (Py.readlines content).

(** One turn of the scan of [log_attendance], on a parsed line. *)
Definition scan_entry (clock : nat -> Z) (acc : nat * list Py.str)
    (e : option (Py.str * Z)) : nat * list Py.str :=
  match e with
  | None => acc
  | Some (name, log_time) =>
      if (clock (fst acc) - log_time <? 3600 * LocalLog.SECOND)%Z
      then (S (fst acc), snd acc ++ [name])
      else (S (fst acc), snd acc)
  end.

(** The events of the local variant: the lines printed, each with the
    instant its text stands for. *)
Definition local_events (strptime : Py.str -> option Z)
    (out : list LocalLog.log_line) : list (Py.str * Z) :=
  flat_map (fun l =>
              match l with
              | LocalLog.ATTENDANCE_LOGGED name dt_string =>
                  match strptime dt_string with
                  | Some t => [(name, t)]
                  | None => []
                  end
              end) out.

(** A list of fields with [c] appended to the last of them. *)
Fixpoint snoc_last (c : ascii) (fields : list Py.str) : list Py.str :=
  match fields with
  | [] => []
  | [f] => [f ++ [c]]
  | f :: fs => f :: snoc_last c fs
  end.

(** A line read back after more text was appended to the file: the same
    line, or the line with the line end it lacked. *)
Definition ended (l l' : Py.str) : Prop := l' = l \/ l' = l ++ ["010"%char].

(** What ties the printed events to the file: the events respect the
    cooldown, and each of them stands in the file as an entry whose instant
    is a whole second. *)
Definition ledger_inv (strptime : Py.str -> option Z) (w : LocalLog.world)
  : Prop :=
  cooldown_ok (3600 * LocalLog.SECOND)
    (local_events strptime (LocalLog.stdout w))
  /\ forall x t,
       In (x, t) (local_events strptime (LocalLog.stdout w)) ->
       In (Some (x, t)) (entries strptime (LocalLog.file w))
       /\ exists q, t = (q * LocalLog.SECOND)%Z.

(** Every call for [name] among the calls for [others], made one after the
    other from the world [w], takes all its clock readings less than an
    hour after [t0]. *)
Fixpoint sightings_inside (clock : nat -> Z) (strftime : Z -> Py.str)
    (strptime : Py.str -> option Z) (name : Py.str) (t0 : Z)
    (others : list Py.str) (w : LocalLog.world) : Prop :=
  match others with
  | [] => True
  | n :: rest =>
      (n = name ->
       forall j,
         (LocalLog.reads w
          <= j < LocalLog.reads
                   (snd (LocalLog.log_attendance clock strftime strptime n w)))%nat ->
         (clock j - t0 < 3600 * LocalLog.SECOND)%Z)
      /\ sightings_inside clock strftime strptime name t0 rest
           (snd (LocalLog.log_attendance clock strftime strptime n w))
  end.

(** A line read from the file holds no line end, except as its last
    character. *)
Definition line_shape (l : Py.str) : Prop :=
  exists body,
    (l = body \/ l = body ++ ["010"%char])
    /\ ~ In "010"%char body /\ ~ In "013"%char body.

(** The form in which a directory name reaches the server: lower case, with
    spaces and underscores alike sent as underscores. *)
Definition sent_form (name : Py.str) : Py.str :=
  map (fun c => if Ascii.eqb c "_" || Ascii.eqb c " " then "_"%char
                else Py.to_lower c) name.

(** The names the acceptance test lets through, face by face. *)
Definition accepted_names (encoding : Type)
    (distance : encoding -> encoding -> Q)
    (known : list encoding) (names : list Py.str)
    (faces : list (encoding * VideoLoop.box)) : list Py.str :=
  flat_map (fun face =>
              match Recognition.recognize distance known names (fst face) with
              | Ret (Some name) => [name]
              | _ => []
              end) faces.

(** A table of the roster as the database keeps it: keys are not shared and
    neither are face ids. *)
Definition roster_ok (rows : list Remote.person) : Prop :=
  NoDup (map Remote.person_id rows) /\ NoDup (map Remote.face_id rows).

(** [item] is an element of the JSON list [v]. *)
Definition listed (item v : Api.jvalue) : Prop :=
  match v with
  | Api.JList l => In item l
  | _ => False
  end.

(** The line of [get_teacher_presence] for one teacher. *)
Definition presence_line (teacher : Remote.person) (status : Py.str)
  : Api.jvalue :=
  Api.JDict [(Py.lit "name", Api.JStr (Remote.person_name teacher));
             (Py.lit "face_id", Api.JStr (Remote.face_id teacher));
             (Py.lit "status", Api.JStr status)].

(** The address [add_user.py] uses for each table of the roster. *)
Definition roster_url (k : Api.kind) : Py.str :=
  match k with
  | Api.Student => AddUser.API_STUDENTS
  | Api.Teacher => AddUser.API_TEACHERS
  end.

(** What [add_user] sends. *)
Definition add_user_payload (name face_id : Py.str)
  : list (Py.str * Py.str) :=
  [(Py.lit "name", name); (Py.lit "face_id", face_id)].

(** The last entry of a list, if any: [l[-1:]]. *)
Definition last1 (A : Type) (l : list A) : list A :=
  skipn (length l - 1) l.

(* ================================================================== *)
(** ** Sample data *)
(* ================================================================== *)

Module Sample.
Import Py.

(** Embeddings on a line, at the distance [|a - b|]. *)
Definition distance (a b : Q) : Q := Qabs (a - b).

(** A server that knows one student; request [k] arrives at second [k]. *)
Definition db : Remote.database :=
  {| Remote.students :=
       [{| Remote.person_id := 1;
           Remote.face_id := lit "chetan_yadav";
           Remote.person_name := lit "Chetan Yadav" |}];
     Remote.teachers := [];
     Remote.attendances := [] |}.

Definition utc (k : nat) : Z := (Z.of_nat k * LocalLog.SECOND)%Z.

(** A server that answers every request with a conflict. *)
Definition conflict_post (w : unit) (payload : list (str * str))
  : unit * res Remote.response :=
  (w, Ret {| Remote.status_code := 409;
             Remote.body := Some (Remote.JObj [(lit "error", lit "duplicate")])
          |}).

(** A text format for instants in place of ['%Y-%m-%d %H:%M:%S']: a sign
    and the whole seconds in unary. *)
Definition strftime (t : Z) : str :=
  (if (t <? 0)%Z then "-"%char else "+"%char)
    :: repeat "x"%char (Z.abs_nat (t / LocalLog.SECOND)).

Definition strptime (s : str) : option Z :=
  match s with
  | sign :: digits =>
      if forallb (Ascii.eqb "x") digits then
        if Ascii.eqb sign "+" then
          Some (Z.of_nat (length digits) * LocalLog.SECOND)%Z
        else if Ascii.eqb sign "-" then
          Some (- Z.of_nat (length digits) * LocalLog.SECOND)%Z
        else None
      else None
  | [] => None
  end.

(** A clock that shows half an hour more at every reading. *)
Definition clock (k : nat) : Z := (Z.of_nat k * (1800 * LocalLog.SECOND))%Z.

(** A server without a route for the address: a 404 page, which is not
    JSON. *)
Definition no_route (d : Remote.database) (url : str)
    (payload : list (str * str)) : Remote.database * res AddUser.response :=
  (d, Ret {| AddUser.status_code := 404; AddUser.body := None |}).

End Sample.

(* ================================================================== *)
(** ** Characters and strings *)
(* ================================================================== *)

Module StrFacts.
Import Py.

Ltac each_ascii c :=
  destruct c as [[] [] [] [] [] [] [] []]; vm_compute; try reflexivity;
  try discriminate; try tauto.

Lemma to_lower_idem c : to_lower (to_lower c) = to_lower c.
Proof. each_ascii c. Qed.

Lemma lower_to_title c : is_ascii c = true -> lower (to_title c) = [to_lower c].
Proof. each_ascii c. Qed.

(** On ASCII text, title case changes nothing but the case. *)
Lemma lower_title_from b s :
  Forall (fun c => is_ascii c = true) s ->
  lower (title_from b s) = lower s.
Proof.
  intros H. revert b.
  induction H as [|c t Hc _ IH]; intros b; simpl; [reflexivity|].
  unfold lower in *. rewrite map_app, IH.
  destruct b; simpl.
  - rewrite to_lower_idem. reflexivity.
  - fold (lower (to_title c)). rewrite (lower_to_title _ Hc). reflexivity.
Qed.

Lemma to_lower_lower_or_underscore c :
  small_letter c \/ c = "_"%char ->
  (if Ascii.eqb (to_lower (if Ascii.eqb c "_" then " "%char else c)) " "
   then "_"%char
   else to_lower (if Ascii.eqb c "_" then " "%char else c)) = c.
Proof.
  intros [H | ->]; [|reflexivity].
  revert H. unfold small_letter. each_ascii c.
Qed.

Lemma small_letter_ascii c :
  small_letter c \/ c = "_"%char -> is_ascii c = true.
Proof.
  intros [H | ->]; [|reflexivity].
  revert H. unfold small_letter. each_ascii c.
Qed.

(** What [title] does with a small letter, by its place in the word. *)
Lemma small_letter_title c :
  small_letter c ->
  Ascii.eqb c "_" = false
  /\ is_cased c = true
  /\ to_lower c = c
  /\ to_title c = [ascii_of_nat (nat_of_ascii c - 32)].
Proof. unfold small_letter. each_ascii c. Qed.

Lemma title_capitalized word_start name :
  Forall (fun c => small_letter c \/ c = "_"%char) name ->
  title_from (negb word_start) (replace "_" " " name)
  = capitalized_from word_start name.
Proof.
  intros H. revert word_start.
  induction H as [|c t Hc _ IH]; intros word_start;
    cbn [replace map title_from capitalized_from]; [reflexivity|].
  fold (replace "_" " " t).
  pose proof (IH false) as IHf. pose proof (IH true) as IHt.
  cbn [negb] in IHf, IHt.
  destruct Hc as [Hc | ->].
  - destruct (small_letter_title Hc) as [Hu [Hcased [Hl Ht]]].
    rewrite Hu, Hcased, Hl, Ht, IHf. destruct word_start; reflexivity.
  - cbn [Ascii.eqb Bool.eqb].
    change (is_cased " ") with false. rewrite IHt.
    destruct word_start; reflexivity.
Qed.

End StrFacts.




(* ================================================================== *)
(** ** The matcher *)
(* ================================================================== *)

Module MatchFacts.

Lemma Qltb_lt x y : Qltb x y = true <-> x < y.
Proof.
  unfold Qltb. rewrite negb_true_iff, <- not_true_iff_false, Qle_bool_iff.
  split; [apply Qnot_le_lt | apply Qlt_not_le].
Qed.

Lemma Qltb_ge x y : Qltb x y = false <-> y <= x.
Proof.
  unfold Qltb. rewrite negb_false_iff. apply Qle_bool_iff.
Qed.

(** The scan keeps, over the part [p] already seen, the first position of
    its least value. *)
Lemma argmin_from_first_least :
  forall l p best_i best,
    nth_error p best_i = Some best ->
    (forall x, In x p -> best <= x) ->
    (forall j x, (j < best_i)%nat -> nth_error p j = Some x -> best < x) ->
    exists v,
      nth_error (p ++ l) (argmin_from best_i best (length p) l) = Some v
      /\ (forall x, In x (p ++ l) -> v <= x)
      /\ (forall j x, (j < argmin_from best_i best (length p) l)%nat ->
                      nth_error (p ++ l) j = Some x -> v < x).
Proof.
  induction l as [|d t IH]; intros p best_i best Hnth Hle Hfirst.
  - rewrite app_nil_r. simpl. exists best. auto.
  - simpl. replace (p ++ d :: t) with ((p ++ [d]) ++ t)
      by (rewrite <- app_assoc; reflexivity).
    replace (S (length p)) with (length (p ++ [d]))
      by (rewrite length_app; simpl; lia).
    assert (Hin : (best_i < length p)%nat)
      by (apply nth_error_Some; congruence).
    destruct (Qltb d best) eqn:E.
    + apply Qltb_lt in E.
      assert (Hd : nth_error (p ++ [d]) (length p) = Some d).
      { rewrite nth_error_app2 by lia. rewrite Nat.sub_diag. reflexivity. }
      apply IH; [exact Hd | |].
      * intros x Hx. apply in_app_or in Hx as [Hx | [<- | []]].
        -- apply Qlt_le_weak. eapply Qlt_le_trans; [exact E | auto].
        -- apply Qle_refl.
      * intros j x Hj Hx. rewrite nth_error_app1 in Hx by lia.
        eapply Qlt_le_trans; [exact E |]. apply Hle.
        eapply nth_error_In; eauto.
    + apply Qltb_ge in E.
      apply IH.
      * rewrite nth_error_app1 by lia. exact Hnth.
      * intros x Hx. apply in_app_or in Hx as [Hx | [<- | []]]; auto.
      * intros j x Hj Hx. rewrite nth_error_app1 in Hx by lia. eauto.
Qed.

(** [np.argmin] returns the first position of the least value. *)
Lemma argmin_first_least l i :
  argmin l = Ret i ->
  exists v,
    nth_error l i = Some v
    /\ (forall x, In x l -> v <= x)
    /\ (forall j x, (j < i)%nat -> nth_error l j = Some x -> v < x).
Proof.
  destruct l as [|d t]; simpl; [discriminate|].
  intros [= <-].
  apply (@argmin_from_first_least t [d] 0%nat d); simpl.
  - reflexivity.
  - intros x [<- | []]. apply Qle_refl.
  - intros j x Hj. lia.
Qed.

Lemma argmin_nonempty l : l <> [] -> exists i, argmin l = Ret i.
Proof. destruct l; [congruence | simpl; eauto]. Qed.

Lemma is_min_unique m v l :
  is_min m l -> In v l -> (forall x, In x l -> v <= x) -> v == m.
Proof.
  intros [[x [Hx Hxm]] Hm] Hv Hvl.
  apply Qle_antisym; [|auto].
  rewrite <- Hxm. auto.
Qed.

Section Faces.

Variable encoding : Type.
Variable distance : encoding -> encoding -> Q.

Lemma compare_faces_nth known q t i :
  nth_error (Recognition.compare_faces distance known q t) i
    = option_map (fun d => Qle_bool d t)
        (nth_error (Recognition.face_distance distance known q) i).
Proof. unfold Recognition.compare_faces. apply nth_error_map. Qed.

Lemma recognize_is_strict known names q :
  Recognition.recognize distance known names q
    = Recognition.recognize_strict distance known names q.
Proof.
  unfold Recognition.recognize, Recognition.recognize_strict.
  destruct (argmin (Recognition.face_distance distance known q)) as [i|e];
    simpl; [|reflexivity].
  unfold index. rewrite compare_faces_nth.
  destruct (nth_error (Recognition.face_distance distance known q) i)
    as [d|] eqn:Hd; simpl; [|reflexivity].
  destruct (Qle_bool d TOLERANCE) eqn:Hle; simpl.
  - reflexivity.
  - assert (Hlt : Qltb d TOLERANCE = false).
    { apply Qltb_ge. apply Qlt_le_weak. apply Qnot_le_lt.
      rewrite <- Qle_bool_iff. congruence. }
    rewrite Hlt. reflexivity.
Qed.

(** With a gallery that is not empty and as many names as encodings, the
    acceptance test returns, and is decided by the least distance alone. *)
Lemma recognize_least known names q :
  known <> [] ->
  length names = length known ->
  exists i d name,
    argmin (Recognition.face_distance distance known q) = Ret i
    /\ nth_error (Recognition.face_distance distance known q) i = Some d
    /\ nth_error names i = Some name
    /\ (forall x, In x (Recognition.face_distance distance known q) -> d <= x)
    /\ Recognition.recognize distance known names q
       = Ret (if Qltb d TOLERANCE then Some name else None).
Proof.
  intros Hne Hlen.
  assert (Hne' : Recognition.face_distance distance known q <> []).
  { unfold Recognition.face_distance. destruct known; simpl; congruence. }
  destruct (argmin_nonempty Hne') as [i Hi].
  destruct (argmin_first_least _ Hi) as [d [Hd [Hle _]]].
  assert (Hin : (i < length names)%nat).
  { rewrite Hlen.
    replace (length known)
      with (length (Recognition.face_distance distance known q))
      by apply length_map.
    apply nth_error_Some. congruence. }
  destruct (nth_error names i) as [name|] eqn:Hn;
    [|apply nth_error_None in Hn; lia].
  exists i, d, name. repeat split; auto.
  rewrite recognize_is_strict. unfold Recognition.recognize_strict.
  rewrite Hi. simpl. unfold index. rewrite Hd, Hn. simpl.
  destruct (Qltb d TOLERANCE); reflexivity.
Qed.

End Faces.
End MatchFacts.

(* ================================================================== *)
(** ** The remote client *)
(* ================================================================== *)

Module SinkFacts.
Import Py.

Section Client.

Variable W : Type.
Variable post : W -> list (str * str) -> W * res Remote.response.

(** One call of the client: one request, one printed line, a normal return,
    whatever the world answers. *)
Lemma mark_attendance_via_api_eq name w :
  Remote.mark_attendance_via_api post name w
    = (fst (post w [(lit "face_id", Remote.face_id_of name)]),
       [Remote.Posted [(lit "face_id", Remote.face_id_of name)];
        Remote.Printed
          (printed_for name
             (snd (post w [(lit "face_id", Remote.face_id_of name)])))],
       Ret tt).
Proof.
  unfold Remote.mark_attendance_via_api, Remote.mark_attendance_try.
  destruct (post w [(lit "face_id", Remote.face_id_of name)])
    as [w1 [r|e]]; simpl.
  - destruct (Remote.status_code r =? 201)%Z; [reflexivity|].
    unfold Remote.response_json.
    destruct (Remote.body r) as [[fields|]|]; simpl; try reflexivity.
    destruct (Remote.dict_get fields (lit "error")); reflexivity.
  - destruct e; reflexivity.
Qed.

Lemma mark_attendance_via_api_once name w :
  exists line,
    Remote.mark_attendance_via_api post name w
      = (fst (post w [(lit "face_id", Remote.face_id_of name)]),
         [Remote.Posted [(lit "face_id", Remote.face_id_of name)];
          Remote.Printed line],
         Ret tt).
Proof. eexists. apply mark_attendance_via_api_eq. Qed.

End Client.
End SinkFacts.

(* ================================================================== *)
(** ** The decision of the video loop *)
(* ================================================================== *)

Section Decision.

Variable encoding : Type.
Variable distance : encoding -> encoding -> Q.

Variable W : Type.
Variable post : W -> list (Py.str * Py.str) -> W * res Remote.response.

Variable clock : nat -> Z.
Variable strftime : Z -> Py.str.
Variable strptime : Py.str -> option Z.

(** C2.  On an empty gallery the loop body of either script raises
    [ValueError] out of [np.argmin], for every query embedding and in every
    state of the world: no label is produced and the loop is left through
    the exception. *)
Theorem C2_empty_gallery_raises :
  forall (names : list Py.str) (q : encoding) (w : W) (lw : LocalLog.world),
    Recognition.recognize distance [] names q = Raise ValueError
    /\ Remote.process_face post distance [] names q w = Raise ValueError
    /\ LocalLog.process_face clock strftime strptime distance [] names q lw
       = Raise ValueError.
Proof. intros; repeat split; reflexivity. Qed.

(** C3.  Threshold semantics.  With a gallery that is not empty, the
    attendance-recording branch is taken exactly when the least distance to
    the gallery is strictly below [TOLERANCE = 0.52].  Below it, the remote
    script posts the matched identity and the local script calls
    [log_attendance] on it; at or above it, both scripts label the face
    unknown, make no recording call and leave the world as it was, whatever
    the log or the server holds. *)
Theorem C3_threshold_semantics :
  forall (known : list encoding) (names : list Py.str) (q : encoding) (m : Q),
    known <> [] ->
    length names = length known ->
    is_min m (Recognition.face_distance distance known q) ->
    ((exists name, Recognition.recognize distance known names q
                   = Ret (Some name)) <-> m < TOLERANCE)
    /\ (m < TOLERANCE ->
        exists name,
          Recognition.recognize distance known names q = Ret (Some name)
          /\ (forall w, exists line,
                Remote.process_face post distance known names q w
                = Ret (fst (post w [(Py.lit "face_id",
                                     Remote.face_id_of name)]),
                       [Remote.Posted [(Py.lit "face_id",
                                      Remote.face_id_of name)];
                        Remote.Printed line],
                       name))
          /\ (forall lw,
                LocalLog.process_face clock strftime strptime distance
                  known names q lw
                = Ret (snd (LocalLog.log_attendance clock strftime strptime
                              name lw), name)))
    /\ (TOLERANCE <= m ->
        Recognition.recognize distance known names q = Ret None
        /\ (forall w, Remote.process_face post distance known names q w
                      = Ret (w, [], Recognition.UNKNOWN_LABEL))
        /\ (forall lw,
              LocalLog.process_face clock strftime strptime distance
                known names q lw
              = Ret (lw, Recognition.UNKNOWN_LABEL))).
Proof.
  intros known names q m Hne Hlen Hmin.
  destruct (@MatchFacts.recognize_least _ distance known names q Hne Hlen)
    as [i [d [name [Hi [Hd [Hn [Hle Hrec]]]]]]].
  assert (Hdm : d == m).
  { eapply MatchFacts.is_min_unique; eauto. eapply nth_error_In; eauto. }
  assert (Hacc : m < TOLERANCE ->
                 Recognition.recognize distance known names q
                 = Ret (Some name)).
  { intros Hlt. rewrite Hrec.
    replace (Qltb d TOLERANCE) with true; [reflexivity|].
    symmetry. apply MatchFacts.Qltb_lt. rewrite Hdm. exact Hlt. }
  assert (Hrej : TOLERANCE <= m ->
                 Recognition.recognize distance known names q = Ret None).
  { intros Hge. rewrite Hrec.
    replace (Qltb d TOLERANCE) with false; [reflexivity|].
    symmetry. apply MatchFacts.Qltb_ge. rewrite Hdm. exact Hge. }
  split; [|split].
  - split.
    + intros [name' Hname'].
      destruct (Qlt_le_dec m TOLERANCE) as [Hlt | Hge]; [exact Hlt|].
      rewrite (Hrej Hge) in Hname'. discriminate.
    + intros Hlt. exists name. auto.
  - intros Hlt. exists name. split; [auto|]. split.
    + intros w. unfold Remote.process_face. rewrite (Hacc Hlt). simpl.
      destruct (SinkFacts.mark_attendance_via_api_once post name w)
        as [line ->].
      exists line. reflexivity.
    + intros lw. unfold LocalLog.process_face. rewrite (Hacc Hlt).
      reflexivity.
  - intros Hge. split; [auto|]. split.
    + intros w. unfold Remote.process_face. rewrite (Hrej Hge). reflexivity.
    + intros lw. unfold LocalLog.process_face. rewrite (Hrej Hge).
      reflexivity.
Qed.

(** C6.  Tie-break determinism.  With a gallery that is not empty,
    [np.argmin] returns an index of the least distance that is the lowest
    of the indices attaining it, however many enrolled embeddings do; the
    matcher returns the identity at that index whenever the least distance
    is below the tolerance, and no identity otherwise. *)
Theorem C6_tie_break_lowest_index :
  forall (known : list encoding) (names : list Py.str) (q : encoding),
    known <> [] ->
    length names = length known ->
    exists (i : nat) (d : Q) (name : Py.str),
      argmin (Recognition.face_distance distance known q) = Ret i
      /\ nth_error (Recognition.face_distance distance known q) i = Some d
      /\ nth_error names i = Some name
      /\ (forall j dj,
            nth_error (Recognition.face_distance distance known q) j = Some dj ->
            d <= dj /\ (dj == d -> (i <= j)%nat))
      /\ (d < TOLERANCE ->
          Recognition.recognize distance known names q = Ret (Some name))
      /\ (TOLERANCE <= d ->
          Recognition.recognize distance known names q = Ret None).
Proof.
  intros known names q Hne Hlen.
  destruct (@MatchFacts.recognize_least _ distance known names q Hne Hlen)
    as [i [d [name [Hi [Hd [Hn [Hle Hrec]]]]]]].
  destruct (MatchFacts.argmin_first_least _ Hi) as [v [Hv [_ Hfirst]]].
  assert (v = d) by congruence. subst v.
  exists i, d, name.
  split; [exact Hi|]. split; [exact Hd|]. split; [exact Hn|].
  split; [|split].
  - intros j dj Hj. split.
    + apply Hle. eapply nth_error_In; eauto.
    + intros Heq. destruct (Nat.le_gt_cases i j) as [Hij | Hij]; [exact Hij|].
      exfalso. apply (Qlt_irrefl d).
      eapply Qlt_le_trans; [apply (Hfirst j dj Hij Hj)|].
      rewrite Heq. apply Qle_refl.
  - intros Hlt. rewrite Hrec.
    replace (Qltb d TOLERANCE) with true; [reflexivity|].
    symmetry. apply MatchFacts.Qltb_lt, Hlt.
  - intros Hge. rewrite Hrec.
    replace (Qltb d TOLERANCE) with false; [reflexivity|].
    symmetry. apply MatchFacts.Qltb_ge, Hge.
Qed.

(** C10.  [compare_faces] marks position [i] exactly when the distance at
    [i] is at most the tolerance, so the two-part acceptance test of the
    loops is the single strict comparison of the least distance with
    [TOLERANCE]: both tests return the same result, or raise the same
    exception, on every gallery and query. *)
Theorem C10_two_part_test_is_strict_test :
  forall (known : list encoding) (names : list Py.str) (q : encoding),
    (forall t i,
        nth_error (Recognition.compare_faces distance known q t) i = Some true
        <-> exists d,
              nth_error (Recognition.face_distance distance known q) i = Some d
              /\ d <= t)
    /\ Recognition.recognize distance known names q
       = Recognition.recognize_strict distance known names q.
Proof.
  intros known names q. split; [|apply MatchFacts.recognize_is_strict].
  intros t i. rewrite MatchFacts.compare_faces_nth.
  destruct (nth_error (Recognition.face_distance distance known q) i) as [d|];
    simpl.
  - split.
    + intros [= H]. exists d. split; [reflexivity | apply Qle_bool_iff, H].
    + intros [d' [[= <-] H]]. f_equal. apply Qle_bool_iff, H.
  - split; [discriminate | intros [d' [H _]]; discriminate].
Qed.

End Decision.

Lemma C3_threshold_semantics_witness :
  Recognition.recognize Sample.distance [1] [Py.lit "Chetan Yadav"] 1
    = Ret (Some (Py.lit "Chetan Yadav"))
  /\ Recognition.recognize Sample.distance [1] [Py.lit "Chetan Yadav"] (16 # 10)
     = Ret None.
Proof.
  split.
  - destruct (@C3_threshold_semantics Q Sample.distance unit
                Sample.conflict_post Sample.clock Sample.strftime
                Sample.strptime [1] [Py.lit "Chetan Yadav"] 1 0)
      as [_ [H _]].
    + discriminate.
    + reflexivity.
    + split.
      * exists (Sample.distance 1 1). split; [left; reflexivity | reflexivity].
      * intros x [<- | []]. vm_compute. discriminate.
    + destruct H as [name [H _]]; [reflexivity|].
      pose proof H as H'. vm_compute in H'. injection H' as <-. exact H.
  - destruct (@C3_threshold_semantics Q Sample.distance unit
                Sample.conflict_post Sample.clock Sample.strftime
                Sample.strptime [1] [Py.lit "Chetan Yadav"] (16 # 10) (6 # 10))
      as [_ [_ H]].
    + discriminate.
    + reflexivity.
    + split.
      * exists (Sample.distance 1 (16 # 10)).
        split; [left; reflexivity | reflexivity].
      * intros x [<- | []]. vm_compute. discriminate.
    + destruct H as [H _]; [vm_compute; discriminate | exact H].
Defined.

Lemma C6_tie_break_lowest_index_witness :
  nth_error (Recognition.face_distance Sample.distance [1; 3; 3] 3) 1
  = nth_error (Recognition.face_distance Sample.distance [1; 3; 3] 3) 2
  /\ Recognition.recognize Sample.distance [1; 3; 3]
       [Py.lit "Ann"; Py.lit "Bob"; Py.lit "Cy"] 3
     = Ret (Some (Py.lit "Bob")).
Proof.
  split; [reflexivity|].
  destruct (@C6_tie_break_lowest_index Q Sample.distance [1; 3; 3]
              [Py.lit "Ann"; Py.lit "Bob"; Py.lit "Cy"] 3)
    as [i [d [name [Hi [Hd [Hn [_ [Hacc _]]]]]]]].
  - discriminate.
  - reflexivity.
  - vm_compute in Hi. injection Hi as <-.
    vm_compute in Hd. injection Hd as <-.
    vm_compute in Hn. injection Hn as <-.
    apply Hacc. reflexivity.
Defined.

(* ================================================================== *)
(** ** The remote sink *)
(* ================================================================== *)

Module ServerFacts.
Import Py.

(** The endpoint answers 201, 400 or 404; an answer other than 201 changes
    nothing in the database and carries an [error] field. *)
Lemma mark_attendance_answers utcnow d data :
  let '(d1, (j, code)) := Remote.mark_attendance utcnow d data in
  (code = 201 \/ code = 400 \/ code = 404)%Z
  /\ (code <> 201%Z ->
      d1 = d /\ exists msg, j = Remote.JObj [(lit "error", msg)]).
Proof.
  unfold Remote.mark_attendance.
  destruct (Remote.dict_get data (lit "face_id")) as [[|c fid]|].
  - split; [auto | intros _; split; eauto].
  - destruct (Remote.first_by_face_id (c :: fid) (Remote.students d)).
    + split; [auto | intros H; congruence].
    + destruct (Remote.first_by_face_id (c :: fid) (Remote.teachers d)).
      * split; [auto | intros H; congruence].
      * split; [auto | intros _; split; eauto].
  - split; [auto | intros _; split; eauto].
Qed.

End ServerFacts.

(** C8.  Best-effort delivery.  A call of [mark_attendance_via_api] sends
    exactly one request and prints exactly one line, whatever comes back: a
    connection failure, any other exception, a body that is not JSON and a
    status other than 201 are each printed and dropped.  Nothing is sent a
    second time, the world after the call is the world after that one
    request, and the call returns normally; the loop body can therefore
    raise only out of the matcher, never out of the delivery. *)
Theorem C8_sink_failure_logged_and_dropped :
  forall (W : Type)
         (post : W -> list (Py.str * Py.str) -> W * res Remote.response)
         (encoding : Type) (distance : encoding -> encoding -> Q)
         (name : Py.str) (w : W),
    Remote.mark_attendance_via_api post name w
      = (fst (post w [(Py.lit "face_id", Remote.face_id_of name)]),
         [Remote.Posted [(Py.lit "face_id", Remote.face_id_of name)];
          Remote.Printed
            (printed_for name
               (snd (post w [(Py.lit "face_id", Remote.face_id_of name)])))],
         Ret tt)
    /\ posts (snd (fst (Remote.mark_attendance_via_api post name w)))
       = [[(Py.lit "face_id", Remote.face_id_of name)]]
    /\ forall (known : list encoding) (names : list Py.str) (q : encoding),
         Remote.process_face post distance known names q w
         = (r <- Recognition.recognize distance known names q ;;
            Ret match r with
                | Some n =>
                    (fst (post w [(Py.lit "face_id", Remote.face_id_of n)]),
                     [Remote.Posted [(Py.lit "face_id", Remote.face_id_of n)];
                      Remote.Printed
                        (printed_for n
                           (snd (post w [(Py.lit "face_id",
                                          Remote.face_id_of n)])))],
                     n)
                | None => (w, [], Recognition.UNKNOWN_LABEL)
                end).
Proof.
  intros W post encoding distance name w.
  split; [apply SinkFacts.mark_attendance_via_api_eq|].
  split.
  - rewrite SinkFacts.mark_attendance_via_api_eq. reflexivity.
  - intros known names q. unfold Remote.process_face.
    destruct (Recognition.recognize distance known names q) as [[n|]|e];
      simpl; try reflexivity.
    rewrite SinkFacts.mark_attendance_via_api_eq. reflexivity.
Qed.

(** C5.  The protocol of the remote sink.  Whatever the status of the
    answer, the call returns normally: no answer is fatal.  A 201 answer is
    printed as a success.  A 409 answer is printed, with its status and the
    [error] field of its JSON object, and processing goes on.  Any other
    answer is printed in the same way as a failure, the [error] field of
    its JSON object standing in the line, or a default text when the field
    is missing.  The endpoint of [app.py] answers 201, 400 or 404 only, and
    its 400 and 404 answers do carry an [error] field and store nothing;
    so a delivery to it is printed either as a success or as a failure
    with the status, 400 or 404, and the [error] text the endpoint sent. *)
Theorem C5_remote_sink_protocol :
  forall (W : Type)
         (post : W -> list (Py.str * Py.str) -> W * res Remote.response)
         (name : Py.str) (w : W) (response : Remote.response),
    snd (post w [(Py.lit "face_id", Remote.face_id_of name)]) = Ret response ->
    snd (Remote.mark_attendance_via_api post name w) = Ret tt
    /\ ((Remote.status_code response = 201)%Z ->
        prints (snd (fst (Remote.mark_attendance_via_api post name w)))
        = [Remote.API_SUCCESS name])
    /\ ((Remote.status_code response = 409)%Z ->
        (exists line,
            prints (snd (fst (Remote.mark_attendance_via_api post name w)))
            = [line]
            /\ line <> Remote.API_SUCCESS name)
        /\ forall fields,
             Remote.body response = Some (Remote.JObj fields) ->
             prints (snd (fst (Remote.mark_attendance_via_api post name w)))
             = [Remote.API_FAIL 409
                  match Remote.dict_get fields (Py.lit "error") with
                  | Some msg => msg
                  | None => Py.lit "Unknown server issue."
                  end])
    /\ ((Remote.status_code response <> 201)%Z ->
        forall fields,
          Remote.body response = Some (Remote.JObj fields) ->
          prints (snd (fst (Remote.mark_attendance_via_api post name w)))
          = [Remote.API_FAIL (Remote.status_code response)
               match Remote.dict_get fields (Py.lit "error") with
               | Some msg => msg
               | None => Py.lit "Unknown server issue."
               end])
    /\ (forall utcnow d data,
          let '(d1, (j, code)) := Remote.mark_attendance utcnow d data in
          (code = 201 \/ code = 400 \/ code = 404)%Z
          /\ (code <> 201%Z ->
              d1 = d /\ exists msg, j = Remote.JObj [(Py.lit "error", msg)]))
    /\ forall (utc : nat -> Z) (d : Remote.database) (n : nat),
         prints (snd (fst (Remote.mark_attendance_via_api
                             (Remote.flask_post utc) name (d, n))))
         = [Remote.API_SUCCESS name]
         \/ exists code msg,
              (code = 400 \/ code = 404)%Z
              /\ fst (snd (Remote.mark_attendance (utc n) d
                             [(Py.lit "face_id", Remote.face_id_of name)]))
                 = Remote.JObj [(Py.lit "error", msg)]
              /\ prints (snd (fst (Remote.mark_attendance_via_api
                                     (Remote.flask_post utc) name (d, n))))
                 = [Remote.API_FAIL code msg].
Proof.
  intros W post name w response Hpost.
  assert (Hserver :
            forall (utc : nat -> Z) (d : Remote.database) (n : nat),
              prints (snd (fst (Remote.mark_attendance_via_api
                                  (Remote.flask_post utc) name (d, n))))
              = [Remote.API_SUCCESS name]
              \/ exists code msg,
                   (code = 400 \/ code = 404)%Z
                   /\ fst (snd (Remote.mark_attendance (utc n) d
                                  [(Py.lit "face_id",
                                    Remote.face_id_of name)]))
                      = Remote.JObj [(Py.lit "error", msg)]
                   /\ prints (snd (fst (Remote.mark_attendance_via_api
                                          (Remote.flask_post utc) name
                                          (d, n))))
                      = [Remote.API_FAIL code msg]).
  { intros utc d n. rewrite SinkFacts.mark_attendance_via_api_eq.
    unfold Remote.flask_post.
    pose proof (ServerFacts.mark_attendance_answers (utc n) d
                  [(Py.lit "face_id", Remote.face_id_of name)]) as H.
    destruct (Remote.mark_attendance (utc n) d
                [(Py.lit "face_id", Remote.face_id_of name)])
      as [d1 [j code]].
    destruct H as [Hcode Herr].
    cbn [fst snd prints flat_map app printed_for Remote.status_code
         Remote.body].
    destruct (code =? 201)%Z eqn:E; [left; reflexivity|].
    apply Z.eqb_neq in E. destruct (Herr E) as [_ [msg ->]].
    right. exists code, msg.
    split; [destruct Hcode as [H | H]; [contradiction | exact H]|].
    split; reflexivity. }
  rewrite SinkFacts.mark_attendance_via_api_eq. simpl. rewrite Hpost.
  unfold printed_for.
  split; [reflexivity|]. split; [|split; [|split; [|split]]];
    [| | | | exact Hserver].
  - intros ->. reflexivity.
  - intros E. rewrite E. cbn [Z.eqb Pos.eqb]. split.
    + eexists. split; [reflexivity|].
      destruct (Remote.body response) as [[fields|]|]; discriminate.
    + intros fields ->. reflexivity.
  - intros Hne. apply Z.eqb_neq in Hne. rewrite Hne.
    intros fields ->. reflexivity.
  - apply ServerFacts.mark_attendance_answers.
Qed.

Lemma C5_remote_sink_protocol_witness :
  snd (Remote.mark_attendance_via_api Sample.conflict_post
         (Py.lit "Chetan Yadav") tt) = Ret tt
  /\ prints (snd (fst (Remote.mark_attendance_via_api Sample.conflict_post
                         (Py.lit "Chetan Yadav") tt)))
     = [Remote.API_FAIL 409 (Py.lit "duplicate")].
Proof.
  destruct (@C5_remote_sink_protocol unit Sample.conflict_post
              (Py.lit "Chetan Yadav") tt
              {| Remote.status_code := 409;
                 Remote.body :=
                   Some (Remote.JObj [(Py.lit "error", Py.lit "duplicate")])
              |} eq_refl) as [H0 [_ [H _]]].
  split; [exact H0|].
  destruct H as [_ H]; [reflexivity|].
  exact (H _ eq_refl).
Defined.

(* ================================================================== *)
(** ** The gallery *)
(* ================================================================== *)

Module GalleryFacts.
Import Py.

Section Roster.

Variable encoding : Type.

Lemma add_images name (images : list (list encoding)) encs names :
  fold_left (Recognition.add_image name) images (encs, names)
  = (encs ++ map fst (image_entries name images),
     names ++ map snd (image_entries name images)).
Proof.
  revert encs names.
  induction images as [|encodings rest IH]; intros encs names; simpl.
  - rewrite !app_nil_r. reflexivity.
  - destruct encodings as [|e0 others]; simpl.
    + apply IH.
    + rewrite IH, <- !app_assoc. reflexivity.
Qed.

Lemma add_persons (listing : list (Recognition.person_dir encoding)) encs names :
  fold_left (@Recognition.add_person encoding) listing (encs, names)
  = (encs ++ map fst (gallery_entries listing),
     names ++ map snd (gallery_entries listing)).
Proof.
  revert encs names.
  induction listing as [|d rest IH]; intros encs names; simpl.
  - rewrite !app_nil_r. reflexivity.
  - unfold Recognition.add_person at 2.
    destruct (startswith "." (Recognition.dir_name d)); simpl.
    + apply IH.
    + rewrite add_images, IH, !map_app, <- !app_assoc. reflexivity.
Qed.

Lemma load_known_faces_entries listing :
  Recognition.load_known_faces listing
  = (map fst (gallery_entries listing),
     map (@snd encoding str) (gallery_entries listing)).
Proof. unfold Recognition.load_known_faces. apply add_persons. Qed.

(** A directory gives its display name once per image with a face. *)
Lemma image_entries_names name (images : list (list encoding)) :
  map snd (image_entries name images)
  = repeat (Recognition.display_name name) (encodable images).
Proof.
  unfold encodable.
  induction images as [|[|e0 others] rest IH]; simpl; [reflexivity | exact IH |].
  rewrite IH. reflexivity.
Qed.

Lemma gallery_names_from_visible listing x :
  In x (map snd (gallery_entries listing)) ->
  In x (map (fun d => Recognition.display_name (Recognition.dir_name d))
          (filter (@visible encoding) listing)).
Proof.
  induction listing as [|d rest IH]; simpl; [tauto|].
  unfold visible at 1.
  destruct (startswith "." (Recognition.dir_name d)); simpl; [exact IH|].
  rewrite map_app, image_entries_names. intros H.
  apply in_app_or in H as [H | H].
  - left. symmetry. eapply repeat_spec; eauto.
  - right. auto.
Qed.

Lemma gallery_names_nodup listing :
  (forall d, In d listing -> visible d = true ->
             (encodable (Recognition.dir_images d) <= 1)%nat) ->
  NoDup (map (fun d => Recognition.display_name (Recognition.dir_name d))
           (filter (@visible encoding) listing)) ->
  NoDup (map snd (gallery_entries listing)).
Proof.
  induction listing as [|d rest IH]; simpl; intros Hone Hnd; [constructor|].
  assert (Hrest : forall d', In d' rest -> visible d' = true ->
                             (encodable (Recognition.dir_images d') <= 1)%nat)
    by auto.
  pose proof (Hone d (or_introl eq_refl)) as Hd.
  unfold visible in Hd, Hnd at 1.
  destruct (startswith "." (Recognition.dir_name d)); simpl in *; [auto|].
  inversion Hnd as [|x xs Hnotin Hnd' Heq]; subst.
  rewrite map_app, image_entries_names.
  specialize (Hd eq_refl).
  destruct (encodable (Recognition.dir_images d)) as [|[|k]]; simpl;
    [auto | | lia].
  constructor; [|auto].
  intros Hin. apply Hnotin. apply gallery_names_from_visible, Hin.
Qed.

End Roster.
End GalleryFacts.

(** C4, as the code has it.  [load_known_faces] appends one gallery entry
    for every image in which a face is found: the first face of that image,
    under the display name of its directory, in listing order.  A directory
    with [k] such images gives [k] entries with one and the same name; names
    and encodings stay aligned.  The names are pairwise distinct when every
    directory that is not hidden has at most one image with a face and the
    display names of those directories are pairwise distinct. *)
Theorem C4_gallery_one_entry_per_image :
  forall (encoding : Type) (listing : list (Recognition.person_dir encoding)),
    Recognition.load_known_faces listing
      = (map fst (gallery_entries listing), map snd (gallery_entries listing))
    /\ length (fst (Recognition.load_known_faces listing))
       = length (snd (Recognition.load_known_faces listing))
    /\ (forall name images,
          map snd (image_entries name images)
          = repeat (Recognition.display_name name)
              (@encodable encoding images))
    /\ ((forall d, In d listing ->
                   Py.startswith "." (Recognition.dir_name d) = false ->
                   (encodable (Recognition.dir_images d) <= 1)%nat) ->
        NoDup (map (fun d => Recognition.display_name (Recognition.dir_name d))
                 (filter (fun d => negb (Py.startswith "."
                                           (Recognition.dir_name d)))
                    listing)) ->
        NoDup (snd (Recognition.load_known_faces listing))).
Proof.
  intros encoding listing.
  rewrite GalleryFacts.load_known_faces_entries. simpl.
  split; [reflexivity|]. split; [rewrite !length_map; reflexivity|].
  split; [apply GalleryFacts.image_entries_names|].
  intros Hone Hnd. apply GalleryFacts.gallery_names_nodup; [|exact Hnd].
  intros d Hin Hvis. apply Hone; [exact Hin|].
  unfold visible in Hvis.
  destruct (Py.startswith "." (Recognition.dir_name d)); [discriminate|].
  reflexivity.
Qed.

Lemma C4_gallery_one_entry_per_image_witness :
  NoDup (snd (Recognition.load_known_faces
                [{| Recognition.dir_name := Py.lit "chetan_yadav";
                    Recognition.dir_images := [[]; [1; 2]] |};
                 {| Recognition.dir_name := Py.lit ".git";
                    Recognition.dir_images := [[3]; [4]] |};
                 {| Recognition.dir_name := Py.lit "yug_patel";
                    Recognition.dir_images := [[5]] |}])).
Proof.
  apply C4_gallery_one_entry_per_image.
  - intros d [<- | [<- | [<- | []]]]; vm_compute; intros; try lia;
      discriminate.
  - vm_compute. repeat constructor; simpl; intuition discriminate.
Defined.

(** C4 as stated fails on a directory with two images of the same person:
    both images enter the gallery, under the same name. *)
Lemma C4_two_images_two_entries :
  Recognition.load_known_faces
    [{| Recognition.dir_name := Py.lit "chetan_yadav";
        Recognition.dir_images := [[1]; [2]] |}]
  = ([1; 2], [Py.lit "Chetan Yadav"; Py.lit "Chetan Yadav"])
  /\ ~ NoDup (snd (Recognition.load_known_faces
                     [{| Recognition.dir_name := Py.lit "chetan_yadav";
                         Recognition.dir_images := [[1%Q]; [2%Q]] |}])).
Proof.
  split; [reflexivity|].
  vm_compute. intros H. inversion H as [|x l Hnotin _]; subst.
  apply Hnotin. left. reflexivity.
Qed.

(* ================================================================== *)
(** ** The log file as text *)
(* ================================================================== *)

Module TextFacts.
Import Py.

Lemma rstrip_snoc_space s c : is_space c = true -> rstrip (s ++ [c]) = rstrip s.
Proof.
  intros H. induction s as [|x t IH]; simpl.
  - rewrite H. reflexivity.
  - rewrite IH. reflexivity.
Qed.

Lemma strip_snoc_space s c : is_space c = true -> strip (s ++ [c]) = strip s.
Proof. intros H. unfold strip. rewrite rstrip_snoc_space by exact H. reflexivity. Qed.

Lemma lstrip_length s : (length (lstrip s) <= length s)%nat.
Proof.
  induction s as [|c t IH]; simpl; [lia|].
  destruct (is_space c); simpl; lia.
Qed.

Lemma rstrip_fixed_or_shorter s :
  rstrip s = s \/ (length (rstrip s) < length s)%nat.
Proof.
  induction s as [|c t IH]; simpl; [auto|].
  destruct IH as [-> | IH].
  - destruct t; [destruct (is_space c); simpl; auto | auto].
  - right. destruct (rstrip t); [destruct (is_space c)|]; simpl in *; lia.
Qed.

Lemma strip_fixed_rstrip s : strip s = s -> rstrip s = s.
Proof.
  unfold strip. intros H.
  destruct (rstrip_fixed_or_shorter s) as [E | E]; [exact E|].
  pose proof (lstrip_length (rstrip s)) as Hl. rewrite H in Hl. lia.
Qed.

Lemma strip_blank_cons s : strip s = s -> strip (" "%char :: s) = s.
Proof.
  intros H. pose proof (strip_fixed_rstrip H) as Hr.
  unfold strip in *. rewrite Hr in H. simpl. rewrite Hr.
  destruct s; [reflexivity | exact H].
Qed.

Lemma split_nonempty sep s : split sep s <> [].
Proof.
  destruct s as [|c t]; simpl; [discriminate|].
  destruct (Ascii.eqb c sep); [discriminate|].
  destruct (split sep t); discriminate.
Qed.

Lemma split_no_sep sep s : ~ In sep s -> split sep s = [s].
Proof.
  induction s as [|c t IH]; simpl; intros H; [reflexivity|].
  destruct (Ascii.eqb_spec c sep) as [-> | Hne]; [tauto|].
  rewrite IH by tauto. reflexivity.
Qed.

Lemma split_app_sep sep a b :
  ~ In sep a -> split sep (a ++ sep :: b) = a :: split sep b.
Proof.
  induction a as [|c t IH]; simpl; intros H.
  - rewrite Ascii.eqb_refl. reflexivity.
  - destruct (Ascii.eqb_spec c sep) as [-> | Hne]; [tauto|].
    rewrite IH by tauto. reflexivity.
Qed.

Lemma split_snoc sep c s :
  c <> sep -> split sep (s ++ [c]) = snoc_last c (split sep s).
Proof.
  intros Hc. induction s as [|x t IH]; simpl.
  - destruct (Ascii.eqb_spec c sep); [congruence | reflexivity].
  - destruct (Ascii.eqb_spec x sep) as [-> | Hne].
    + rewrite IH. pose proof (split_nonempty sep t).
      destruct (split sep t); [congruence | reflexivity].
    + rewrite IH. pose proof (split_nonempty sep t).
      destruct (split sep t) as [|f [|g fs]]; [congruence| |]; reflexivity.
Qed.

Lemma readlines_nil s : readlines s = [] -> s = [].
Proof.
  destruct s as [|c t]; simpl; [reflexivity|].
  destruct (Ascii.eqb c "010"); [discriminate|].
  destruct (Ascii.eqb c "013").
  - destruct t as [|c' t']; [discriminate|].
    destruct (Ascii.eqb c' "010"); discriminate.
  - destruct (readlines t); discriminate.
Qed.

Lemma readlines_one_line s :
  s <> [] -> ~ In "010"%char s -> ~ In "013"%char s -> readlines s = [s].
Proof.
  induction s as [|c t IH]; intros Hne Hlf Hcr; [congruence|].
  simpl in *.
  destruct (Ascii.eqb_spec c "010") as [-> | H1]; [tauto|].
  destruct (Ascii.eqb_spec c "013") as [-> | H2]; [tauto|].
  destruct t as [|c' t']; [reflexivity|].
  rewrite IH; [reflexivity | discriminate | tauto | tauto].
Qed.

(** Appending a line end and more text keeps the lines already in the file,
    closes the last one and adds the lines of the new text; a blank line
    comes in between when the file ended with a line end. *)
Lemma readlines_app f x :
  exists pre mid,
    readlines (f ++ "010"%char :: x) = pre ++ mid ++ readlines x
    /\ Forall2 ended (readlines f) pre
    /\ (mid = [] \/ mid = [["010"%char]]).
Proof.
  induction f as [|c t IH].
  - exists [], [["010"%char]]. simpl. repeat split; auto.
  - destruct IH as [pre [mid [Happ [Hpre Hmid]]]].
    change ((c :: t) ++ "010"%char :: x) with (c :: (t ++ "010"%char :: x)).
    destruct (Ascii.eqb_spec c "010") as [-> | H1].
    + exists (["010"%char] :: pre), mid. simpl. rewrite Happ.
      repeat split; auto. constructor; [left; reflexivity | exact Hpre].
    + destruct (Ascii.eqb_spec c "013") as [-> | H2].
      * destruct t as [|c' t'].
        -- exists [["010"%char]], []. simpl. repeat split; auto.
           constructor; [left; reflexivity | constructor].
        -- simpl. simpl in Happ, Hpre.
           destruct (Ascii.eqb_spec c' "010") as [-> | H3].
           ++ inversion Hpre as [|l0 p0 ls pre' Hl0 Hpre' E1 E2]; subst.
              simpl in Happ. injection Happ as Hp0 Happ.
              exists (["010"%char] :: pre'), mid. simpl. rewrite Happ.
              repeat split; auto. constructor; [left; reflexivity | exact Hpre'].
           ++ exists (["010"%char] :: pre), mid.
              change (readlines (c' :: t' ++ "010"%char :: x))
                with (readlines ((c' :: t') ++ "010"%char :: x)) in *.
              simpl app at 1. rewrite Happ.
              repeat split; auto. constructor; [left; reflexivity | exact Hpre].
      * assert (Hc : readlines (c :: t ++ "010"%char :: x)
                     = match readlines (t ++ "010"%char :: x) with
                       | l :: ls => (c :: l) :: ls
                       | [] => [[c]]
                       end).
        { simpl. destruct (Ascii.eqb_spec c "010"); [congruence|].
          destruct (Ascii.eqb_spec c "013"); [congruence | reflexivity]. }
        assert (Hc' : readlines (c :: t)
                      = match readlines t with
                        | l :: ls => (c :: l) :: ls
                        | [] => [[c]]
                        end).
        { simpl. destruct (Ascii.eqb_spec c "010"); [congruence|].
          destruct (Ascii.eqb_spec c "013"); [congruence | reflexivity]. }
        rewrite Hc, Hc'. clear Hc Hc'.
        destruct (readlines t) as [|l ls] eqn:Ht.
        -- apply readlines_nil in Ht. subst t.
           exists [[c; "010"%char]], []. simpl. repeat split; auto.
           constructor; [right; reflexivity | constructor].
        -- inversion Hpre as [|l0 l' ls0 pre' Hl Hpre' E1 E2]; subst.
           rewrite Happ. simpl.
           exists ((c :: l') :: pre'), mid. repeat split; auto.
           constructor; [|exact Hpre'].
           destruct Hl as [-> | ->]; [left | right]; reflexivity.
Qed.

End TextFacts.

(* ================================================================== *)
(** ** The log file as a ledger *)
(* ================================================================== *)

Module LogFacts.
Import Py.

Lemma mem_In x l : mem x l = true <-> In x l.
Proof.
  unfold mem. rewrite existsb_exists. unfold str_eqb. split.
  - intros [y [Hy H]]. destruct (list_eq_dec ascii_dec x y); [subst; auto|].
    discriminate.
  - intros H. exists x. split; [exact H|].
    destruct (list_eq_dec ascii_dec x x); congruence.
Qed.

Section Scan.

Variable clock : nat -> Z.

(** *** The scan *)

Lemma scan_reads_le es k rl :
  (k <= fst (fold_left (scan_entry clock) es (k, rl)))%nat.
Proof.
  revert k rl. induction es as [|[[x t]|] es IH]; intros k rl; cbn [fold_left scan_entry fst snd].
  - lia.
  - destruct (clock k - t <? 3600 * LocalLog.SECOND)%Z;
      (eapply Nat.le_trans; [|apply IH]); lia.
  - apply IH.
Qed.

Lemma scan_keeps es k rl x :
  In x rl -> In x (snd (fold_left (scan_entry clock) es (k, rl))).
Proof.
  revert k rl. induction es as [|[[y t]|] es IH]; intros k rl H; cbn [fold_left scan_entry fst snd].
  - exact H.
  - destruct (clock k - t <? 3600 * LocalLog.SECOND)%Z; apply IH; [apply in_or_app|]; auto.
  - apply IH, H.
Qed.

(** An entry of [x] whose instant is less than an hour before every reading
    of the scan puts [x] on the recent list. *)
Lemma scan_recent es k rl x t :
  In (Some (x, t)) es ->
  (forall j, (k <= j < fst (fold_left (scan_entry clock) es (k, rl)))%nat ->
             (clock j - t < 3600 * LocalLog.SECOND)%Z) ->
  In x (snd (fold_left (scan_entry clock) es (k, rl))).
Proof.
  revert k rl. induction es as [|[[y u]|] es IH]; intros k rl Hin Hw;
    cbn [fold_left scan_entry fst snd In] in *.
  - tauto.
  - destruct Hin as [[= -> ->] | Hin].
    + destruct (clock k - t <? 3600 * LocalLog.SECOND)%Z eqn:E.
      * apply scan_keeps. apply in_or_app. right. left. reflexivity.
      * exfalso. apply Z.ltb_ge in E.
        pose proof (scan_reads_le es (S k) rl) as Hle.
        specialize (Hw k). lia.
    + destruct (clock k - u <? 3600 * LocalLog.SECOND)%Z; apply IH; auto;
        intros j Hj; apply Hw; lia.
  - destruct Hin as [Hin | Hin]; [discriminate|]. apply IH; auto.
Qed.

(** When [x] is not on the recent list, every entry of [x] was found at
    least an hour old at some reading of the scan. *)
Lemma scan_not_recent es k rl x :
  ~ In x (snd (fold_left (scan_entry clock) es (k, rl))) ->
  forall t, In (Some (x, t)) es ->
    exists j, (k <= j < fst (fold_left (scan_entry clock) es (k, rl)))%nat
              /\ (3600 * LocalLog.SECOND <= clock j - t)%Z.
Proof.
  revert k rl. induction es as [|[[y u]|] es IH]; intros k rl Hnot t Hin;
    cbn [fold_left scan_entry fst snd In] in *.
  - tauto.
  - destruct Hin as [[= -> ->] | Hin].
    + destruct (clock k - t <? 3600 * LocalLog.SECOND)%Z eqn:E.
      * exfalso. apply Hnot. apply scan_keeps. apply in_or_app.
        right. left. reflexivity.
      * apply Z.ltb_ge in E. exists k. split; [|exact E].
        pose proof (scan_reads_le es (S k) rl). lia.
    + destruct (clock k - u <? 3600 * LocalLog.SECOND)%Z;
        destruct (IH _ _ Hnot t Hin) as [j [Hj Hold]];
        exists j; (split; [lia | exact Hold]).
  - destruct Hin as [Hin | Hin]; [discriminate|]. apply IH; auto.
Qed.

(** When every entry of [x] is at least an hour old at every reading from
    [k] on, the scan leaves [x] off the recent list. *)
Lemma scan_all_old es k rl x :
  ~ In x rl ->
  (forall t, In (Some (x, t)) es ->
             forall j, (k <= j)%nat -> (3600 * LocalLog.SECOND <= clock j - t)%Z) ->
  ~ In x (snd (fold_left (scan_entry clock) es (k, rl))).
Proof.
  revert k rl. induction es as [|[[y u]|] es IH]; intros k rl Hnot Hold;
    cbn [fold_left scan_entry fst snd In] in *.
  - exact Hnot.
  - destruct (clock k - u <? 3600 * LocalLog.SECOND)%Z eqn:E.
    + apply IH.
      * intros H. apply in_app_or in H as [H | [-> | []]]; [tauto|].
        apply Z.ltb_lt in E.
        specialize (Hold u (or_introl eq_refl) k (le_n _)). lia.
      * intros t Ht j Hj. apply Hold; [auto | lia].
    + apply IH; [exact Hnot|].
      intros t Ht j Hj. apply Hold; [auto | lia].
  - apply IH; [exact Hnot|]. intros t Ht. apply Hold. auto.
Qed.

End Scan.

Section Ledger.

Variable clock : nat -> Z.
Variable strftime : Z -> str.
Variable strptime : str -> option Z.

Lemma parse_line_ended l l' :
  ended l l' -> parse_line strptime l' = parse_line strptime l.
Proof.
  intros [-> | ->]; [reflexivity|].
  unfold parse_line. rewrite TextFacts.split_snoc by discriminate.
  destruct (split "," l) as [|f [|g [|h rest]]]; simpl; try reflexivity.
  rewrite TextFacts.strip_snoc_space by reflexivity. reflexivity.
Qed.

Lemma parse_line_blank : parse_line strptime ["010"%char] = None.
Proof. reflexivity. Qed.

(** Appending a line end and more text keeps every entry of the file. *)
Lemma entries_app f x :
  exists mid,
    entries strptime (f ++ "010"%char :: x)
    = entries strptime f ++ mid ++ entries strptime x
    /\ forall e, In e mid -> e = None.
Proof.
  destruct (TextFacts.readlines_app f x) as [pre [mid [Happ [Hpre Hmid]]]].
  exists (map (parse_line strptime) mid). unfold entries.
  rewrite Happ, !map_app. split.
  - f_equal. clear Happ. induction Hpre as [|l l' ls ls' Hl _ IH]; simpl.
    + reflexivity.
    + rewrite IH, (parse_line_ended Hl). reflexivity.
  - intros e He. destruct Hmid as [-> | ->]; simpl in He; [tauto|].
    destruct He as [<- | []]. reflexivity.
Qed.

Lemma scan_line_entry acc line :
  LocalLog.scan_line clock strptime acc line
  = scan_entry clock acc (parse_line strptime line).
Proof.
  unfold LocalLog.scan_line, scan_entry, parse_line. destruct acc as [k rl].
  destruct (nth_error (split "," line) 1) as [e1|]; [|reflexivity].
  destruct (strptime (strip e1)); reflexivity.
Qed.

Lemma scan_lines_entries lines acc :
  fold_left (LocalLog.scan_line clock strptime) lines acc
  = fold_left (scan_entry clock) (map (parse_line strptime) lines) acc.
Proof.
  revert acc. induction lines as [|l ls IH]; intros acc; simpl; [reflexivity|].
  rewrite scan_line_entry. apply IH.
Qed.

(** [log_attendance] in terms of the entries of the file. *)
Lemma log_attendance_entries name w :
  LocalLog.log_attendance clock strftime strptime name w
  = let acc := fold_left (scan_entry clock) (entries strptime (LocalLog.file w))
                 (LocalLog.reads w, []) in
    if negb (mem name (snd acc)) then
      (true,
       {| LocalLog.reads := S (fst acc);
          LocalLog.file :=
            LocalLog.file w ++ ["010"%char] ++ name ++ lit ", "
              ++ strftime (clock (fst acc));
          LocalLog.stdout :=
            LocalLog.stdout w
              ++ [LocalLog.ATTENDANCE_LOGGED name (strftime (clock (fst acc)))]
       |})
    else
      (false,
       {| LocalLog.reads := fst acc;
          LocalLog.file := LocalLog.file w;
          LocalLog.stdout := LocalLog.stdout w |}).
Proof.
  unfold LocalLog.log_attendance, entries. rewrite scan_lines_entries.
  destruct (fold_left (scan_entry clock)
              (map (parse_line strptime) (readlines (LocalLog.file w)))
              (LocalLog.reads w, [])) as [k rl].
  reflexivity.
Qed.

End Ledger.
End LogFacts.

(* ================================================================== *)
(** ** The cooldown of the local log *)
(* ================================================================== *)

Module CooldownFacts.
Import Py.

Lemma floor_sec_multiple t : exists q, LocalLog.floor_sec t = (q * LocalLog.SECOND)%Z.
Proof. exists (t / LocalLog.SECOND)%Z. reflexivity. Qed.

Lemma floor_sec_ge q t :
  (q * LocalLog.SECOND <= t)%Z -> (q * LocalLog.SECOND <= LocalLog.floor_sec t)%Z.
Proof.
  unfold LocalLog.floor_sec, LocalLog.SECOND. intros H.
  apply Z.mul_le_mono_nonneg_r; [lia|].
  apply Z.div_le_lower_bound; lia.
Qed.

Section Cooldown.

Variable clock : nat -> Z.
Variable strftime : Z -> str.
Variable strptime : str -> option Z.

Hypothesis format : datetime_format clock strftime strptime.

Lemma entries_entry_line name k :
  loggable name ->
  entries strptime (name ++ lit ", " ++ strftime (clock k))
  = [Some (name, LocalLog.floor_sec (clock k))].
Proof.
  intros [Hcomma [Hlf [Hcr Hstrip]]].
  destruct (format_loggable format k) as [Tcomma [Tlf [Tcr Tstrip]]].
  change (lit ", ") with [","%char; " "%char].
  unfold entries. rewrite TextFacts.readlines_one_line.
  - simpl map. unfold parse_line.
    change (name ++ [","%char; " "%char] ++ strftime (clock k))
      with (name ++ ","%char :: (" "%char :: strftime (clock k))).
    rewrite TextFacts.split_app_sep by exact Hcomma.
    rewrite TextFacts.split_no_sep.
    + cbn [nth_error hd].
      rewrite (TextFacts.strip_blank_cons Tstrip), (parse_format format).
      rewrite Hstrip. reflexivity.
    + intros [H | H]; [discriminate | tauto].
  - destruct name; discriminate.
  - intros H. apply in_app_or in H as [H | [H | [H | H]]];
      [tauto | discriminate | discriminate | tauto].
  - intros H. apply in_app_or in H as [H | [H | [H | H]]];
      [tauto | discriminate | discriminate | tauto].
Qed.

(** What an accepted call leaves in the file. *)
Lemma entries_after_accept f name k :
  loggable name ->
  exists mid,
    entries strptime
      (f ++ ["010"%char] ++ name ++ lit ", " ++ strftime (clock k))
    = entries strptime f ++ mid ++ [Some (name, LocalLog.floor_sec (clock k))]
    /\ forall e, In e mid -> e = None.
Proof.
  intros Hname.
  destruct (LogFacts.entries_app strptime f
              (name ++ lit ", " ++ strftime (clock k)))
    as [mid [E Hmid]].
  exists mid. split; [|exact Hmid].
  change (f ++ ["010"%char] ++ name ++ lit ", " ++ strftime (clock k))
    with (f ++ "010"%char :: (name ++ lit ", " ++ strftime (clock k))).
  rewrite E, entries_entry_line by exact Hname. reflexivity.
Qed.

(** No call removes an entry or turns the clock counter back. *)
Lemma log_attendance_grows name w :
  (LocalLog.reads w
   <= LocalLog.reads (snd (LocalLog.log_attendance clock strftime strptime
                             name w)))%nat
  /\ exists rest,
       entries strptime
         (LocalLog.file (snd (LocalLog.log_attendance clock strftime strptime
                                name w)))
       = entries strptime (LocalLog.file w) ++ rest.
Proof.
  rewrite LogFacts.log_attendance_entries. cbv zeta.
  pose proof (LogFacts.scan_reads_le clock (entries strptime (LocalLog.file w))
                (LocalLog.reads w) []) as Hle.
  destruct (negb (mem name _)); cbn [snd LocalLog.reads LocalLog.file].
  - split; [lia|].
    destruct (LogFacts.entries_app strptime (LocalLog.file w)
                (name ++ lit ", "
                   ++ strftime (clock (fst (fold_left (scan_entry clock)
                        (entries strptime (LocalLog.file w))
                        (LocalLog.reads w, []))))))
      as [mid [E _]].
    eexists. exact E.
  - split; [lia|]. exists []. rewrite app_nil_r. reflexivity.
Qed.

Lemma log_all_grows names w :
  (LocalLog.reads w
   <= LocalLog.reads (LocalLog.log_all clock strftime strptime names w))%nat
  /\ exists rest,
       entries strptime
         (LocalLog.file (LocalLog.log_all clock strftime strptime names w))
       = entries strptime (LocalLog.file w) ++ rest.
Proof.
  revert w. induction names as [|n ns IH]; intros w; simpl.
  - split; [lia|]. exists []. rewrite app_nil_r. reflexivity.
  - destruct (log_attendance_grows n w) as [H1 [r1 E1]].
    destruct (IH (snd (LocalLog.log_attendance clock strftime strptime n w)))
      as [H2 [r2 E2]].
    split; [lia|]. exists (r1 ++ r2). rewrite E2, E1, app_assoc. reflexivity.
Qed.

(** Calls in which every sighting of [name] falls less than an hour after
    an entry of [name] add no entry of [name]: each of them is suppressed. *)
Lemma log_all_sightings name t0 others w :
  Forall loggable others ->
  In (Some (name, t0)) (entries strptime (LocalLog.file w)) ->
  sightings_inside clock strftime strptime name t0 others w ->
  exists rest,
    entries strptime
      (LocalLog.file (LocalLog.log_all clock strftime strptime others w))
    = entries strptime (LocalLog.file w) ++ rest
    /\ forall t, ~ In (Some (name, t)) rest.
Proof.
  intros Hlog. revert w.
  induction Hlog as [|n ns Hn _ IH]; intros w Hin Hins;
    cbn [LocalLog.log_all sightings_inside] in *.
  - exists []. rewrite app_nil_r. split; [reflexivity | intros t []].
  - destruct Hins as [Hcall Hins].
    assert (Hstep : exists r1,
               entries strptime
                 (LocalLog.file (snd (LocalLog.log_attendance clock strftime
                                        strptime n w)))
               = entries strptime (LocalLog.file w) ++ r1
               /\ forall t, ~ In (Some (name, t)) r1).
    { revert Hcall. rewrite LogFacts.log_attendance_entries. cbv zeta.
      destruct (mem n _) eqn:Em; cbn [negb snd LocalLog.file LocalLog.reads];
        intros Hcall.
      - exists []. rewrite app_nil_r. split; [reflexivity | intros t []].
      - destruct (entries_after_accept (LocalLog.file w)
                    (fst (fold_left (scan_entry clock)
                       (entries strptime (LocalLog.file w))
                       (LocalLog.reads w, []))) Hn) as [mid [E Hmid]].
        rewrite E. eexists. split; [reflexivity|].
        intros t H. apply in_app_or in H as [H | [H | []]].
        + apply Hmid in H. discriminate.
        + injection H as Hname _.
          assert (Hrecent : In name (snd (fold_left (scan_entry clock)
                              (entries strptime (LocalLog.file w))
                              (LocalLog.reads w, [])))).
          { eapply LogFacts.scan_recent; [exact Hin|].
            intros j Hj. apply (Hcall Hname). lia. }
          apply LogFacts.mem_In in Hrecent. congruence. }
    destruct Hstep as [r1 [E1 N1]].
    destruct (IH (snd (LocalLog.log_attendance clock strftime strptime n w)))
      as [r2 [E2 N2]].
    + rewrite E1. apply in_or_app. left. exact Hin.
    + exact Hins.
    + exists (r1 ++ r2). rewrite E2, E1, app_assoc. split; [reflexivity|].
      intros t H. apply in_app_or in H as [H | H];
        [eapply N1 | eapply N2]; eauto.
Qed.

Lemma local_events_logged out name k :
  local_events strptime
    (out ++ [LocalLog.ATTENDANCE_LOGGED name (strftime (clock k))])
  = local_events strptime out ++ [(name, LocalLog.floor_sec (clock k))].
Proof.
  unfold local_events. rewrite flat_map_app. simpl.
  rewrite (parse_format format). reflexivity.
Qed.

End Cooldown.
End CooldownFacts.

Module WindowFacts.
Import Py.

Section Window.

Variable clock : nat -> Z.
Variable strftime : Z -> str.
Variable strptime : str -> option Z.

Hypothesis format : datetime_format clock strftime strptime.

(** The shape of an accepting call. *)
Lemma accepted_shape name w w1 :
  LocalLog.log_attendance clock strftime strptime name w = (true, w1) ->
  let acc := fold_left (scan_entry clock)
               (entries strptime (LocalLog.file w)) (LocalLog.reads w, []) in
  ~ In name (snd acc)
  /\ LocalLog.reads w1 = S (fst acc)
  /\ LocalLog.file w1
     = LocalLog.file w ++ ["010"%char] ++ name ++ lit ", "
         ++ strftime (clock (fst acc))
  /\ LocalLog.stdout w1
     = LocalLog.stdout w
         ++ [LocalLog.ATTENDANCE_LOGGED name (strftime (clock (fst acc)))].
Proof.
  rewrite LogFacts.log_attendance_entries. cbv zeta.
  destruct (mem name _) eqn:E; cbn [negb]; intros [= <-]; [].
  cbn [LocalLog.reads LocalLog.file LocalLog.stdout].
  repeat split. rewrite <- LogFacts.mem_In. congruence.
Qed.

(** Inside the window: suppressed. *)
Lemma suppressed_inside_window name w w1 others b w3 :
  loggable name ->
  LocalLog.log_attendance clock strftime strptime name w = (true, w1) ->
  LocalLog.log_attendance clock strftime strptime name
    (LocalLog.log_all clock strftime strptime others w1) = (b, w3) ->
  (forall j,
      (LocalLog.reads (LocalLog.log_all clock strftime strptime others w1)
       <= j < LocalLog.reads w3)%nat ->
      (clock j - LocalLog.floor_sec (clock (LocalLog.reads w1 - 1))
       < 3600 * LocalLog.SECOND)%Z) ->
  b = false.
Proof.
  intros Hname H1 H2 Hwin.
  destruct (accepted_shape _ _ H1) as [_ [Hr [Hf _]]].
  rewrite Hr in Hwin. replace (S _ - 1)%nat with
    (fst (fold_left (scan_entry clock) (entries strptime (LocalLog.file w))
            (LocalLog.reads w, []))) in Hwin by lia.
  destruct (CooldownFacts.entries_after_accept format (LocalLog.file w)
              (fst (fold_left (scan_entry clock)
                 (entries strptime (LocalLog.file w)) (LocalLog.reads w, [])))
              Hname) as [mid [E _]].
  rewrite <- Hf in E.
  destruct (CooldownFacts.log_all_grows clock strftime strptime others w1)
    as [_ [rest E2]].
  rewrite LogFacts.log_attendance_entries in H2. cbv zeta in H2.
  destruct (mem name _) eqn:Em; cbn [negb] in H2; injection H2 as <- <-;
    [reflexivity|].
  exfalso. cbn [LocalLog.reads] in Hwin.
  assert (Hin : In name (snd (fold_left (scan_entry clock)
            (entries strptime (LocalLog.file
               (LocalLog.log_all clock strftime strptime others w1)))
            (LocalLog.reads
               (LocalLog.log_all clock strftime strptime others w1), [])))).
  { eapply LogFacts.scan_recent.
    - rewrite E2, E. apply in_or_app. left. apply in_or_app. right.
      apply in_or_app. right. left. reflexivity.
    - intros j Hj. apply Hwin. lia. }
  apply LogFacts.mem_In in Hin. congruence.
Qed.

Hypothesis monotone : forall i j, (i <= j)%nat -> (clock i <= clock j)%Z.

(** After the window: accepted again. *)
Lemma accepted_after_window name w w1 others b w3 :
  loggable name ->
  LocalLog.log_attendance clock strftime strptime name w = (true, w1) ->
  Forall loggable others ->
  sightings_inside clock strftime strptime name
    (LocalLog.floor_sec (clock (LocalLog.reads w1 - 1))) others w1 ->
  LocalLog.log_attendance clock strftime strptime name
    (LocalLog.log_all clock strftime strptime others w1) = (b, w3) ->
  (3600 * LocalLog.SECOND
   <= clock (LocalLog.reads
               (LocalLog.log_all clock strftime strptime others w1))
      - LocalLog.floor_sec (clock (LocalLog.reads w1 - 1)))%Z ->
  b = true.
Proof.
  intros Hname H1 Hothers Hins H2 Hwin.
  destruct (accepted_shape _ _ H1) as [Hrl [Hr [Hf _]]].
  rewrite Hr in Hwin, Hins. replace (S _ - 1)%nat with
    (fst (fold_left (scan_entry clock) (entries strptime (LocalLog.file w))
            (LocalLog.reads w, []))) in Hwin, Hins by lia.
  destruct (CooldownFacts.entries_after_accept format (LocalLog.file w)
              (fst (fold_left (scan_entry clock)
                 (entries strptime (LocalLog.file w)) (LocalLog.reads w, [])))
              Hname) as [mid [E Hmid]].
  rewrite <- Hf in E.
  assert (Hentry : In (Some (name,
                             LocalLog.floor_sec
                               (clock (fst (fold_left (scan_entry clock)
                                  (entries strptime (LocalLog.file w))
                                  (LocalLog.reads w, []))))))
                     (entries strptime (LocalLog.file w1))).
  { rewrite E. apply in_or_app. right. apply in_or_app. right.
    left. reflexivity. }
  destruct (@CooldownFacts.log_all_sightings clock strftime strptime format
              name _ others w1 Hothers Hentry Hins)
    as [rest [E2 Hrest]].
  destruct (CooldownFacts.log_all_grows clock strftime strptime others w1)
    as [Hreads _].
  rewrite LogFacts.log_attendance_entries in H2. cbv zeta in H2.
  destruct (mem name _) eqn:Em; cbn [negb] in H2; injection H2 as <- <-;
    [|reflexivity].
  exfalso. apply LogFacts.mem_In in Em. revert Em.
  apply LogFacts.scan_all_old; [intros []|].
  intros t Ht j Hj. rewrite E2, E in Ht.
  apply in_app_or in Ht as [Ht | Ht]; [|exfalso; eapply Hrest; eauto].
  apply in_app_or in Ht as [Ht | Ht].
  - destruct (LogFacts.scan_not_recent clock _ _ _ _ Hrl t Ht) as [j1 [Hj1 Hold]].
    assert (clock j1 <= clock j)%Z by (apply monotone; lia). lia.
  - apply in_app_or in Ht as [Ht | [Ht | []]].
    + apply Hmid in Ht. discriminate.
    + injection Ht as <-.
      assert (clock (LocalLog.reads
                (LocalLog.log_all clock strftime strptime others w1))
              <= clock j)%Z by (apply monotone; lia).
      lia.
Qed.

(** One call keeps the invariant of the ledger. *)
Lemma ledger_inv_step name w :
  loggable name ->
  ledger_inv strptime w ->
  ledger_inv strptime
    (snd (LocalLog.log_attendance clock strftime strptime name w)).
Proof.
  intros Hname [Hcool Hfile].
  destruct (LocalLog.log_attendance clock strftime strptime name w)
    as [[|] w1] eqn:H1; cbn [snd].
  - destruct (accepted_shape _ _ H1) as [Hrl [Hr [Hf Hout]]].
    destruct (CooldownFacts.entries_after_accept format (LocalLog.file w)
                (fst (fold_left (scan_entry clock)
                   (entries strptime (LocalLog.file w))
                   (LocalLog.reads w, []))) Hname) as [mid [E _]].
    rewrite <- Hf in E.
    unfold ledger_inv.
    rewrite Hout, (CooldownFacts.local_events_logged format), E.
    split.
    + intros i j x ti tj Hij Hi Hj.
      assert (Hlt : (i < length (local_events strptime (LocalLog.stdout w)))%nat).
      { assert (j < length (local_events strptime (LocalLog.stdout w) ++
                  [(name, LocalLog.floor_sec (clock (fst (fold_left
                     (scan_entry clock) (entries strptime (LocalLog.file w))
                     (LocalLog.reads w, [])))))]))%nat
          by (apply nth_error_Some; congruence).
        rewrite length_app in H. simpl in H. lia. }
      rewrite nth_error_app1 in Hi by exact Hlt.
      destruct (Nat.lt_ge_cases j
                  (length (local_events strptime (LocalLog.stdout w))))
        as [Hj' | Hj'].
      * rewrite nth_error_app1 in Hj by exact Hj'.
        exact (Hcool i j x ti tj Hij Hi Hj).
      * rewrite nth_error_app2 in Hj by exact Hj'.
        destruct (j - length (local_events strptime (LocalLog.stdout w)))%nat
          as [|n]; [|destruct n; discriminate].
        injection Hj as <- <-.
        destruct (Hfile _ _ (nth_error_In _ _ Hi)) as [Hin [q ->]].
        destruct (LogFacts.scan_not_recent clock _ _ _ _ Hrl _ Hin)
          as [j1 [Hj1 Hold]].
        assert (clock j1 <= clock (fst (fold_left (scan_entry clock)
                  (entries strptime (LocalLog.file w))
                  (LocalLog.reads w, []))))%Z by (apply monotone; lia).
        pose proof (@CooldownFacts.floor_sec_ge (q + 3600)
                      (clock (fst (fold_left (scan_entry clock)
                         (entries strptime (LocalLog.file w))
                         (LocalLog.reads w, []))))) as Hfl.
        lia.
    + intros x t Hin. apply in_app_or in Hin as [Hin | [[= <- <-] | []]].
      * destruct (Hfile _ _ Hin) as [Hin' Hq]. split; [|exact Hq].
        apply in_or_app. left. exact Hin'.
      * split; [|apply CooldownFacts.floor_sec_multiple].
        apply in_or_app. right. apply in_or_app. right. left. reflexivity.
  - rewrite LogFacts.log_attendance_entries in H1. cbv zeta in H1.
    destruct (negb (mem name _)); [discriminate|].
    injection H1 as <-. split; assumption.
Qed.

Lemma ledger_inv_all names w :
  Forall loggable names ->
  ledger_inv strptime w ->
  ledger_inv strptime (LocalLog.log_all clock strftime strptime names w).
Proof.
  intros Hnames. revert w.
  induction Hnames as [|n ns Hn _ IH]; intros w Hw; simpl; [exact Hw|].
  apply IH. apply ledger_inv_step; assumption.
Qed.

End Window.
End WindowFacts.

(* ================================================================== *)
(** ** The sample format and clock *)
(* ================================================================== *)

Module SampleFacts.
Import Py.

Lemma no_space_strip s :
  Forall (fun c => is_space c = false) s -> strip s = s.
Proof.
  intros H. unfold strip.
  assert (Hr : rstrip s = s).
  { induction H as [|c t Hc _ IH]; simpl; [reflexivity|].
    rewrite IH, Hc. destruct t; reflexivity. }
  rewrite Hr. destruct H as [|c t Hc _]; simpl; [reflexivity|].
  rewrite Hc. reflexivity.
Qed.

Lemma strftime_chars t c :
  In c (Sample.strftime t) -> c = "-"%char \/ c = "+"%char \/ c = "x"%char.
Proof.
  unfold Sample.strftime. intros [<- | H].
  - destruct (t <? 0)%Z; auto.
  - apply repeat_spec in H. auto.
Qed.

Lemma forallb_repeat_x n : forallb (Ascii.eqb "x") (repeat "x"%char n) = true.
Proof. induction n; simpl; auto. Qed.

Lemma sample_format :
  datetime_format Sample.clock Sample.strftime Sample.strptime.
Proof.
  split; intros k; generalize (Sample.clock k); clear k.
  - intros t. unfold Sample.strftime, Sample.strptime, LocalLog.floor_sec.
    rewrite forallb_repeat_x, repeat_length, Zabs2Nat.id_abs.
    destruct (t <? 0)%Z eqn:E; simpl; f_equal.
    + apply Z.ltb_lt in E.
      assert (t / LocalLog.SECOND < 0)%Z
        by (apply Z.div_lt_upper_bound; unfold LocalLog.SECOND; lia).
      lia.
    + apply Z.ltb_ge in E.
      assert (0 <= t / LocalLog.SECOND)%Z
        by (apply Z.div_pos; unfold LocalLog.SECOND; lia).
      lia.
  - intros t. repeat split.
    + intros H. apply strftime_chars in H as [H | [H | H]]; discriminate.
    + intros H. apply strftime_chars in H as [H | [H | H]]; discriminate.
    + intros H. apply strftime_chars in H as [H | [H | H]]; discriminate.
    + apply no_space_strip. apply Forall_forall. intros c H.
      apply strftime_chars in H as [-> | [-> | ->]]; reflexivity.
Qed.

Lemma sample_clock_monotone i j :
  (i <= j)%nat -> (Sample.clock i <= Sample.clock j)%Z.
Proof. unfold Sample.clock, LocalLog.SECOND. lia. Qed.

Lemma chetan_loggable : loggable (lit "Chetan Yadav").
Proof.
  repeat split; try (vm_compute; intuition discriminate).
Qed.

End SampleFacts.

(* ================================================================== *)
(** ** Cooldown and suppression *)
(* ================================================================== *)

(** C7.  The suppression frame.  When [log_attendance] answers [False], the
    name being on the recent list, the log file and the printed lines are
    what they were before the call: nothing is appended and no event is
    emitted.  In the loop, a recognised face whose name is suppressed keeps
    its label and leaves the file and the output untouched. *)
Theorem C7_suppressed_leaves_log_untouched :
  forall (clock : nat -> Z) (strftime : Z -> Py.str)
         (strptime : Py.str -> option Z)
         (name : Py.str) (w w1 : LocalLog.world),
    LocalLog.log_attendance clock strftime strptime name w = (false, w1) ->
    LocalLog.file w1 = LocalLog.file w
    /\ LocalLog.stdout w1 = LocalLog.stdout w
    /\ local_events strptime (LocalLog.stdout w1)
       = local_events strptime (LocalLog.stdout w)
    /\ forall (encoding : Type) (distance : encoding -> encoding -> Q)
              (known : list encoding) (names : list Py.str) (q : encoding),
         Recognition.recognize distance known names q = Ret (Some name) ->
         LocalLog.process_face clock strftime strptime distance known names q w
         = Ret (w1, name).
Proof.
  intros clock strftime strptime name w w1 H.
  assert (Hw : LocalLog.file w1 = LocalLog.file w
               /\ LocalLog.stdout w1 = LocalLog.stdout w).
  { rewrite LogFacts.log_attendance_entries in H. cbv zeta in H.
    destruct (negb (Py.mem name _)); [discriminate|].
    injection H as <-. split; reflexivity. }
  destruct Hw as [Hf Ho]. repeat split; auto.
  - rewrite Ho. reflexivity.
  - intros encoding distance known names q Hrec.
    unfold LocalLog.process_face. rewrite Hrec. simpl. rewrite H. reflexivity.
Qed.

Lemma C7_suppressed_leaves_log_untouched_witness :
  LocalLog.file
    (snd (LocalLog.log_attendance Sample.clock Sample.strftime Sample.strptime
            (Py.lit "Chetan Yadav")
            (snd (LocalLog.log_attendance Sample.clock Sample.strftime
                    Sample.strptime (Py.lit "Chetan Yadav")
                    {| LocalLog.reads := 0;
                       LocalLog.file := LocalLog.new_log;
                       LocalLog.stdout := [] |}))))
  = LocalLog.file
      (snd (LocalLog.log_attendance Sample.clock Sample.strftime
              Sample.strptime (Py.lit "Chetan Yadav")
              {| LocalLog.reads := 0;
                 LocalLog.file := LocalLog.new_log;
                 LocalLog.stdout := [] |})).
Proof.
  apply (@C7_suppressed_leaves_log_untouched Sample.clock Sample.strftime
           Sample.strptime (Py.lit "Chetan Yadav")).
  vm_compute. reflexivity.
Defined.




(* ================================================================== *)
(** ** Further properties: names and labels *)
(* ================================================================== *)

Module NameFacts.
Import Py.

Lemma sent_char c :
  (if Ascii.eqb (to_lower (if Ascii.eqb c "_" then " "%char else c)) " "
   then "_"%char
   else to_lower (if Ascii.eqb c "_" then " "%char else c))
  = (if Ascii.eqb c "_" || Ascii.eqb c " " then "_"%char else to_lower c).
Proof. StrFacts.each_ascii c. Qed.

Lemma sent_char_fixed c :
  (if Ascii.eqb c "_" || Ascii.eqb c " " then "_"%char else to_lower c) = c
  <-> is_upper c = false /\ c <> " "%char.
Proof.
  destruct c as [[] [] [] [] [] [] [] []]; vm_compute;
    (split; [intros H; try discriminate H; split; congruence
            | intros [H1 H2]; try discriminate H1; congruence]).
Qed.

Lemma replace_ascii name :
  Forall (fun c => is_ascii c = true) name ->
  Forall (fun c => is_ascii c = true) (replace "_" " " name).
Proof.
  intros H. unfold replace. apply Forall_map.
  eapply Forall_impl; [|exact H].
  intros c Hc. destruct (Ascii.eqb c "_"); [reflexivity | exact Hc].
Qed.

Lemma face_id_sent_form name :
  Forall (fun c => is_ascii c = true) name ->
  Remote.face_id_of (Recognition.display_name name) = sent_form name.
Proof.
  intros H. unfold Remote.face_id_of, Recognition.display_name, title.
  rewrite StrFacts.lower_title_from by (apply replace_ascii, H).
  unfold lower, replace, sent_form. rewrite !map_map.
  apply map_ext. intros c. apply sent_char.
Qed.

Lemma sent_form_fixed name :
  sent_form name = name
  <-> Forall (fun c => is_upper c = false /\ c <> " "%char) name.
Proof.
  unfold sent_form. induction name as [|c t IH]; simpl.
  - split; [constructor | reflexivity].
  - split.
    + intros [= Hc Ht]. constructor; [apply sent_char_fixed, Hc | apply IH, Ht].
    + intros H. inversion H as [|x l Hc Ht]; subst.
      f_equal; [apply sent_char_fixed, Hc | apply IH, Ht].
Qed.

(** The title case of a character is never the small [n], and is a blank
    only for a character without case. *)
Lemma to_title_shape c :
  to_title c = ["S"%char; "s"%char]
  \/ exists x, to_title c = [x] /\ x <> "n"%char
               /\ (x = " "%char -> is_cased c = false).
Proof.
  destruct c as [[] [] [] [] [] [] [] []]; vm_compute;
    first [ left; reflexivity
          | right; eexists; split; [reflexivity|];
            split; [discriminate|];
            intros H; first [discriminate H | reflexivity] ].
Qed.

Lemma to_lower_blank c : to_lower c = " "%char -> is_cased c = false.
Proof. StrFacts.each_ascii c. Qed.

(** In a title-cased text no blank is followed by the small [n], and the
    text does not begin with one unless it follows a cased character. *)
Lemma title_from_blank_n s :
  forall b,
    (b = false -> forall post, title_from b s <> "n"%char :: post)
    /\ (forall pre post,
          title_from b s <> pre ++ " "%char :: "n"%char :: post).
Proof.
  induction s as [|c t IH]; intros b.
  - split.
    + intros _ post. discriminate.
    + intros pre post. destruct pre; discriminate.
  - destruct (IH (is_cased c)) as [IH1 IH2].
    assert (Hone : forall x,
               (x = " "%char -> is_cased c = false) ->
               forall pre post,
                 [x] ++ title_from (is_cased c) t
                 <> pre ++ " "%char :: "n"%char :: post).
    { intros x Hx pre post H. destruct pre as [|p pre]; simpl in H.
      - injection H as Hb Hrest. exact (IH1 (Hx Hb) post Hrest).
      - injection H as _ Hrest. exact (IH2 pre post Hrest). }
    cbn [title_from]. destruct b.
    + split; [discriminate|]. apply Hone. apply to_lower_blank.
    + destruct (to_title_shape c) as [E | [x [E [Hn Hx]]]]; rewrite E.
      * split.
        -- intros _ post. discriminate.
        -- intros pre post H.
           destruct pre as [|p [|p' pre]]; simpl in H; try discriminate H.
           injection H as _ _ Hrest. exact (IH2 pre post Hrest).
      * split.
        -- intros _ post H. injection H as H _. exact (Hn H).
        -- apply Hone, Hx.
Qed.

Lemma title_not_unknown s : title s <> Recognition.UNKNOWN_LABEL.
Proof.
  unfold title.
  change Recognition.UNKNOWN_LABEL
    with (lit "Face" ++ " "%char :: "n"%char
            :: lit "ot match - UPDATE DATABASE").
  apply title_from_blank_n.
Qed.

End NameFacts.

(** X1.  For every directory name of ASCII characters, the [face_id] the
    remote client posts is the name in lower case with spaces and
    underscores alike sent as underscores; it is the directory name itself
    exactly when the name has no upper-case letter and no space. *)
Theorem X1_face_id_sent_form :
  forall name : Py.str,
    Forall (fun c => Py.is_ascii c = true) name ->
    Remote.face_id_of (Recognition.display_name name) = sent_form name
    /\ (Remote.face_id_of (Recognition.display_name name) = name
        <-> Forall (fun c => Py.is_upper c = false /\ c <> " "%char) name).
Proof.
  intros name H. rewrite (NameFacts.face_id_sent_form H).
  split; [reflexivity | apply NameFacts.sent_form_fixed].
Qed.

Lemma X1_face_id_sent_form_witness :
  Remote.face_id_of (Recognition.display_name (Py.lit "Teacher 1_b"))
  = Py.lit "teacher_1_b"
  /\ Remote.face_id_of (Recognition.display_name (Py.lit "teacher_1"))
     = Py.lit "teacher_1".
Proof.
  split.
  - destruct (@X1_face_id_sent_form (Py.lit "Teacher 1_b")) as [H _].
    + repeat constructor.
    + rewrite H. reflexivity.
  - destruct (@X1_face_id_sent_form (Py.lit "teacher_1")) as [_ H].
    + repeat constructor.
    + apply H. repeat constructor; discriminate.
Defined.

(** X2.  The unknown-face message is never the display name of a roster
    directory, so the label of a face tells whether it was accepted; an
    accepted face is drawn green unless its display name is the text
    [Scanning...], and an unknown face is drawn red. *)
Theorem X2_label_and_colour :
  forall name : Py.str,
    Recognition.display_name name <> Recognition.UNKNOWN_LABEL
    /\ (VideoLoop.color_of (Recognition.display_name name) = VideoLoop.GREEN
        <-> Recognition.display_name name <> Py.lit "Scanning...")
    /\ VideoLoop.color_of Recognition.UNKNOWN_LABEL = VideoLoop.RED.
Proof.
  intros name.
  pose proof (@NameFacts.title_not_unknown (Py.replace "_" " " name)) as Hu.
  fold (Recognition.display_name name) in Hu.
  split; [exact Hu|]. split; [|reflexivity].
  unfold VideoLoop.color_of. cbn [Py.mem existsb]. unfold Py.str_eqb.
  destruct (list_eq_dec ascii_dec (Recognition.display_name name)
              Recognition.UNKNOWN_LABEL) as [E | _]; [contradiction|].
  destruct (list_eq_dec ascii_dec (Recognition.display_name name)
              (Py.lit "Scanning...")) as [E | E]; simpl.
  - split; [discriminate | intros H; contradiction].
  - split; [intros _; exact E | reflexivity].
Qed.

(* ================================================================== *)
(** ** Further properties: the names the log can hold *)
(* ================================================================== *)

Module LineFacts.
Import Py.

Lemma lstrip_in c s : In c (lstrip s) -> In c s.
Proof.
  induction s as [|x t IH]; simpl; [tauto|].
  destruct (is_space x); simpl; tauto.
Qed.

Lemma rstrip_in c s : In c (rstrip s) -> In c s.
Proof.
  induction s as [|x t IH]; simpl; [tauto|].
  destruct (rstrip t) as [|y r].
  - destruct (is_space x); simpl; tauto.
  - simpl in *. tauto.
Qed.

Lemma strip_in c s : In c (strip s) -> In c s.
Proof. unfold strip. intros H. apply rstrip_in, lstrip_in, H. Qed.

Lemma rstrip_idem s : rstrip (rstrip s) = rstrip s.
Proof.
  induction s as [|x t IH]; simpl; [reflexivity|].
  destruct (rstrip t) as [|y r] eqn:E.
  - destruct (is_space x) eqn:Ex; simpl; [reflexivity|].
    rewrite Ex. reflexivity.
  - change (rstrip (x :: y :: r))
      with (match rstrip (y :: r) with
            | [] => if is_space x then [] else [x]
            | z :: r' => x :: z :: r'
            end).
    rewrite IH. reflexivity.
Qed.

Lemma rstrip_fixed_tail x t : rstrip (x :: t) = x :: t -> rstrip t = t.
Proof.
  simpl. destruct (rstrip t) as [|y r].
  - destruct (is_space x); [discriminate|]. intros [= <-]. reflexivity.
  - intros [= <-]. reflexivity.
Qed.

Lemma rstrip_lstrip_fixed s : rstrip s = s -> rstrip (lstrip s) = lstrip s.
Proof.
  induction s as [|x t IH]; intros H; [reflexivity|].
  cbn [lstrip]. destruct (is_space x); [|exact H].
  apply IH. exact (rstrip_fixed_tail H).
Qed.

Lemma lstrip_idem s : lstrip (lstrip s) = lstrip s.
Proof.
  induction s as [|x t IH]; simpl; [reflexivity|].
  destruct (is_space x) eqn:E; [exact IH|]. simpl. rewrite E. reflexivity.
Qed.

Lemma strip_idem s : strip (strip s) = strip s.
Proof.
  unfold strip.
  rewrite (rstrip_lstrip_fixed (rstrip_idem s)). apply lstrip_idem.
Qed.

(** The first field of a split holds no separator, and a second field means
    the separator follows the first. *)
Lemma split_head sep s f0 rest :
  split sep s = f0 :: rest ->
  ~ In sep f0 /\ (rest = [] \/ exists tail, s = f0 ++ sep :: tail).
Proof.
  revert f0 rest. induction s as [|c t IH]; intros f0 rest; simpl.
  - intros [= <- <-]. split; [tauto | left; reflexivity].
  - destruct (Ascii.eqb_spec c sep) as [-> | Hne].
    + intros [= <- <-]. split; [tauto|]. right. exists t. reflexivity.
    + destruct (split sep t) as [|f fs] eqn:E.
      * intros [= <- <-]. split; [|left; reflexivity].
        intros [H | []]. congruence.
      * intros [= <- <-]. destruct (IH f fs eq_refl) as [Hf Ht]. split.
        -- intros [H | H]; [congruence | tauto].
        -- destruct Ht as [-> | [tail ->]]; [left; reflexivity|].
           right. exists tail. reflexivity.
Qed.

Lemma prefix_before_last (f0 : str) sep tail body c :
  f0 ++ sep :: tail = body ++ [c] -> sep <> c ->
  exists tail', body = f0 ++ sep :: tail'.
Proof.
  revert body. induction f0 as [|x f IH]; intros body H Hne; simpl in H.
  - destruct body as [|b body']; simpl in H.
    + injection H as H _. congruence.
    + injection H as <- _. exists body'. reflexivity.
  - destruct body as [|b body']; simpl in H.
    + injection H as _ H. destruct f; discriminate.
    + injection H as <- H. destruct (IH body' H Hne) as [tail' ->].
      exists tail'. reflexivity.
Qed.

Lemma readlines_shape f : Forall line_shape (readlines f).
Proof.
  assert (Hlf : line_shape ["010"%char]).
  { exists []. split; [right; reflexivity | split; intros []]. }
  induction f as [|c t IH]; [constructor|].
  destruct (Ascii.eqb_spec c "010") as [-> | H1];
    [simpl; constructor; assumption|].
  destruct (Ascii.eqb_spec c "013") as [-> | H2].
  - destruct t as [|c' t']; [simpl; repeat constructor; assumption|].
    assert (Hcr : readlines ("013"%char :: c' :: t')
                  = if Ascii.eqb c' "010" then ["010"%char] :: readlines t'
                    else ["010"%char] :: readlines (c' :: t'))
      by reflexivity.
    rewrite Hcr. clear Hcr.
    destruct (Ascii.eqb_spec c' "010") as [-> | H3].
    + change (readlines ("010"%char :: t'))
        with (["010"%char] :: readlines t') in IH.
      inversion IH; subst. constructor; assumption.
    + constructor; [exact Hlf | exact IH].
  - assert (Hc : readlines (c :: t)
                 = match readlines t with
                   | l :: ls => (c :: l) :: ls
                   | [] => [[c]]
                   end).
    { simpl. destruct (Ascii.eqb_spec c "010"); [congruence|].
      destruct (Ascii.eqb_spec c "013"); [congruence | reflexivity]. }
    rewrite Hc. destruct (readlines t) as [|l ls].
    + constructor; [|constructor]. exists [c].
      split; [left; reflexivity|].
      split; intros [H | []]; congruence.
    + inversion IH as [|x xs [body [Hl [Hlf' Hcr]]] Hls]; subst.
      constructor; [|exact Hls]. exists (c :: body). split.
      * destruct Hl as [-> | ->]; [left | right]; reflexivity.
      * split; intros [H | H]; congruence || tauto.
Qed.

Section Entries.

Variable strptime : str -> option Z.

(** Every name the scan can read off a file is one the log can hold. *)
Lemma entry_name_loggable l x t :
  line_shape l -> parse_line strptime l = Some (x, t) -> loggable x.
Proof.
  intros [body [Hl [Hlf Hcr]]]. unfold parse_line.
  destruct (split "," l) as [|f0 [|e1 rest]] eqn:E; simpl; try discriminate.
  destruct (strptime (strip e1)); [|discriminate]. intros [= <- _].
  destruct (split_head _ _ E) as [Hcomma [Hrest | [tail Htail]]];
    [discriminate|].
  assert (Hin : forall c, In c f0 -> In c body).
  { intros c Hc. destruct Hl as [-> | ->].
    - rewrite Htail. apply in_or_app. left. exact Hc.
    - destruct (@prefix_before_last f0 ","%char tail body "010"%char)
        as [tail' ->]; [symmetry; exact Htail | discriminate|].
      apply in_or_app. left. exact Hc. }
  repeat split.
  - intros H. apply Hcomma, strip_in, H.
  - intros H. apply Hlf, Hin, strip_in, H.
  - intros H. apply Hcr, Hin, strip_in, H.
  - apply strip_idem.
Qed.

Lemma entries_loggable f x t :
  In (Some (x, t)) (entries strptime f) -> loggable x.
Proof.
  unfold entries. intros H. apply in_map_iff in H as [l [Hp Hl]].
  eapply entry_name_loggable; [|exact Hp].
  pose proof (readlines_shape f) as Hs.
  rewrite Forall_forall in Hs. apply Hs, Hl.
Qed.

End Entries.

(** The recent list holds only names met in the entries. *)
Lemma scan_members clock es k rl x :
  In x (snd (fold_left (scan_entry clock) es (k, rl))) ->
  In x rl \/ exists t, In (Some (x, t)) es.
Proof.
  revert k rl. induction es as [|[[y u]|] es IH]; intros k rl;
    cbn [fold_left scan_entry fst snd].
  - auto.
  - destruct (clock k - u <? 3600 * LocalLog.SECOND)%Z; intros H;
      apply IH in H as [H | [t H]].
    + apply in_app_or in H as [H | [<- | []]]; [auto|].
      right. exists u. left. reflexivity.
    + right. exists t. right. exact H.
    + auto.
    + right. exists t. right. exact H.
  - intros H. apply IH in H as [H | [t H]]; [auto|].
    right. exists t. right. exact H.
Qed.

End LineFacts.

(** X3.  A name the log cannot hold and give back (one with a comma, with a
    line end, or with white space at either end) is never suppressed: for
    any file, clock and text format, [log_attendance] appends a line and
    answers [True] at every call for it. *)
Theorem X3_unloggable_name_logged_every_call :
  forall (clock : nat -> Z) (strftime : Z -> Py.str)
         (strptime : Py.str -> option Z) (name : Py.str) (w : LocalLog.world),
    ~ loggable name ->
    exists k,
      LocalLog.log_attendance clock strftime strptime name w
      = (true,
         {| LocalLog.reads := S k;
            LocalLog.file :=
              LocalLog.file w ++ ["010"%char] ++ name ++ Py.lit ", "
                ++ strftime (clock k);
            LocalLog.stdout :=
              LocalLog.stdout w
                ++ [LocalLog.ATTENDANCE_LOGGED name (strftime (clock k))] |}).
Proof.
  intros clock strftime strptime name w Hname.
  rewrite LogFacts.log_attendance_entries. cbv zeta.
  destruct (Py.mem name _) eqn:E; cbn [negb]; [|eexists; reflexivity].
  exfalso. apply LogFacts.mem_In in E.
  apply LineFacts.scan_members in E as [[] | [t E]].
  apply Hname. eapply LineFacts.entries_loggable, E.
Qed.

Lemma X3_unloggable_name_logged_every_call_witness :
  exists k,
    LocalLog.log_attendance Sample.clock Sample.strftime Sample.strptime
      (Py.lit " Bob")
      (snd (LocalLog.log_attendance Sample.clock Sample.strftime
              Sample.strptime (Py.lit " Bob")
              {| LocalLog.reads := 0;
                 LocalLog.file := LocalLog.new_log;
                 LocalLog.stdout := [] |}))
    = (true,
       {| LocalLog.reads := S k;
          LocalLog.file :=
            LocalLog.file
              (snd (LocalLog.log_attendance Sample.clock Sample.strftime
                      Sample.strptime (Py.lit " Bob")
                      {| LocalLog.reads := 0;
                         LocalLog.file := LocalLog.new_log;
                         LocalLog.stdout := [] |}))
              ++ ["010"%char] ++ Py.lit " Bob" ++ Py.lit ", "
              ++ Sample.strftime (Sample.clock k);
          LocalLog.stdout :=
            LocalLog.stdout
              (snd (LocalLog.log_attendance Sample.clock Sample.strftime
                      Sample.strptime (Py.lit " Bob")
                      {| LocalLog.reads := 0;
                         LocalLog.file := LocalLog.new_log;
                         LocalLog.stdout := [] |}))
              ++ [LocalLog.ATTENDANCE_LOGGED (Py.lit " Bob")
                    (Sample.strftime (Sample.clock k))] |}).
Proof.
  apply X3_unloggable_name_logged_every_call.
  intros [_ [_ [_ H]]]. vm_compute in H. discriminate.
Defined.

(** X4.  Suppression is by name: a call for a name of which the file holds
    no entry is accepted, whatever else the file holds.  In particular the
    header of a new log is no entry, so the first call on a new log is
    accepted for every name. *)
Theorem X4_other_entries_never_suppress :
  forall (clock : nat -> Z) (strftime : Z -> Py.str)
         (strptime : Py.str -> option Z) (name : Py.str) (w : LocalLog.world),
    ((forall t, ~ In (Some (name, t)) (entries strptime (LocalLog.file w))) ->
     fst (LocalLog.log_attendance clock strftime strptime name w) = true)
    /\ (strptime (Py.lit "Timestamp") = None ->
        LocalLog.file w = LocalLog.new_log ->
        fst (LocalLog.log_attendance clock strftime strptime name w) = true).
Proof.
  intros clock strftime strptime name w.
  assert (Hgen : (forall t, ~ In (Some (name, t))
                                (entries strptime (LocalLog.file w))) ->
                 fst (LocalLog.log_attendance clock strftime strptime name w)
                 = true).
  { intros Hnone.
    rewrite LogFacts.log_attendance_entries. cbv zeta.
    destruct (Py.mem name _) eqn:E; cbn [negb]; [|reflexivity].
    exfalso. apply LogFacts.mem_In in E.
    apply LineFacts.scan_members in E as [[] | [t E]].
    exact (Hnone t E). }
  split; [exact Hgen|].
  intros Hhead Hfile. apply Hgen. intros t. rewrite Hfile.
  unfold entries. cbn [map]. unfold parse_line.
  change (Py.readlines LocalLog.new_log)
    with [Py.lit "Name, Timestamp" ++ ["010"%char]].
  cbn [map].
  change (Py.split "," (Py.lit "Name, Timestamp" ++ ["010"%char]))
    with [Py.lit "Name"; Py.lit " Timestamp" ++ ["010"%char]].
  cbn [nth_error].
  change (Py.strip (Py.lit " Timestamp" ++ ["010"%char]))
    with (Py.lit "Timestamp").
  rewrite Hhead. intros [H | []]. discriminate.
Qed.

Lemma X4_other_entries_never_suppress_witness :
  fst (LocalLog.log_attendance Sample.clock Sample.strftime Sample.strptime
         (Py.lit "Yug Patel")
         (snd (LocalLog.log_attendance Sample.clock Sample.strftime
                 Sample.strptime (Py.lit "Chetan Yadav")
                 {| LocalLog.reads := 0;
                    LocalLog.file := LocalLog.new_log;
                    LocalLog.stdout := [] |})))
  = true
  /\ fst (LocalLog.log_attendance Sample.clock Sample.strftime
            Sample.strptime (Py.lit "Chetan Yadav")
            {| LocalLog.reads := 0;
               LocalLog.file := LocalLog.new_log;
               LocalLog.stdout := [] |})
     = true.
Proof.
  split.
  - apply (proj1 (@X4_other_entries_never_suppress Sample.clock
                    Sample.strftime Sample.strptime (Py.lit "Yug Patel") _)).
    intros t H. vm_compute in H.
    destruct H as [H | [H | [H | []]]]; discriminate.
  - apply (proj2 (@X4_other_entries_never_suppress Sample.clock
                    Sample.strftime Sample.strptime (Py.lit "Chetan Yadav")
                    _)); reflexivity.
Defined.

(* ================================================================== *)
(** ** Further properties: from the roster to a frame *)
(* ================================================================== *)

Module FrameFacts.
Import Py.

Section Faces.

Variable encoding : Type.
Variable distance : encoding -> encoding -> Q.

Lemma image_entries_length name (images : list (list encoding)) :
  length (image_entries name images) = encodable images.
Proof.
  rewrite <- (length_map snd), GalleryFacts.image_entries_names.
  apply repeat_length.
Qed.

Lemma gallery_entries_nil (listing : list (Recognition.person_dir encoding)) :
  gallery_entries listing = []
  <-> forall d, In d listing ->
                startswith "." (Recognition.dir_name d) = false ->
                encodable (Recognition.dir_images d) = 0%nat.
Proof.
  induction listing as [|d rest IH]; simpl.
  - split; [intros _ d [] | reflexivity].
  - destruct (startswith "." (Recognition.dir_name d)) eqn:E.
    + rewrite IH. split.
      * intros H d' [<- | Hd'] Hv; [congruence | auto].
      * intros H d' Hd'. apply H. right. exact Hd'.
    + split.
      * intros H. apply app_eq_nil in H as [H1 H2].
        intros d' [<- | Hd'] Hv.
        -- rewrite <- image_entries_length
             with (name := Recognition.dir_name d).
           rewrite H1. reflexivity.
        -- apply IH; assumption.
      * intros H.
        assert (H1 : image_entries (Recognition.dir_name d)
                       (Recognition.dir_images d) = []).
        { apply length_zero_iff_nil. rewrite image_entries_length.
          apply H; [left; reflexivity | exact E]. }
        rewrite H1. simpl. apply IH. intros d' Hd'. apply H. right. exact Hd'.
Qed.

Section RemoteLoop.

Variable W : Type.
Variable post : W -> list (str * str) -> W * res Remote.response.

Lemma remote_process_face known names q w :
  Remote.process_face post distance known names q w
  = (r <- Recognition.recognize distance known names q ;;
     Ret match r with
         | Some n =>
             (fst (post w [(lit "face_id", Remote.face_id_of n)]),
              [Remote.Posted [(lit "face_id", Remote.face_id_of n)];
               Remote.Printed
                 (printed_for n
                    (snd (post w [(lit "face_id", Remote.face_id_of n)])))],
              n)
         | None => (w, [], Recognition.UNKNOWN_LABEL)
         end).
Proof.
  unfold Remote.process_face.
  destruct (Recognition.recognize distance known names q) as [[n|]|e];
    simpl; try reflexivity.
  rewrite SinkFacts.mark_attendance_via_api_eq. reflexivity.
Qed.

Lemma remote_frame_posts known names faces :
  known <> [] -> length names = length known ->
  forall w,
  exists w1 evs ds,
    VideoLoop.remote_frame distance post known names faces w
    = Ret (w1, evs, ds)
    /\ posts evs
       = map (fun n => [(lit "face_id", Remote.face_id_of n)])
           (accepted_names distance known names faces)
    /\ length (prints evs)
       = length (accepted_names distance known names faces)
    /\ length ds = length faces.
Proof.
  intros Hne Hlen.
  induction faces as [|[q loc] rest IH]; intros w.
  - exists w, [], []. repeat split.
  - cbn [VideoLoop.remote_frame]. rewrite remote_process_face.
    destruct (@MatchFacts.recognize_least _ distance known names q Hne Hlen)
      as [i [d [name [_ [_ [_ [_ Hrec]]]]]]].
    unfold accepted_names. cbn [flat_map fst]. rewrite Hrec.
    destruct (Qltb d TOLERANCE); cbn [bind].
    + destruct (IH (fst (post w [(lit "face_id", Remote.face_id_of name)])))
        as [w1 [evs [ds [E [Hp [Hl Hd]]]]]].
      rewrite E. cbn [bind]. do 3 eexists. split; [reflexivity|].
      repeat split.
      * simpl. f_equal. exact Hp.
      * simpl. f_equal. exact Hl.
      * simpl. f_equal. exact Hd.
    + destruct (IH w) as [w1 [evs [ds [E [Hp [Hl Hd]]]]]].
      rewrite E. cbn [bind]. do 3 eexists. split; [reflexivity|].
      repeat split; auto. simpl. f_equal. exact Hd.
Qed.

End RemoteLoop.

Section LocalLoop.

Variable clock : nat -> Z.
Variable strftime : Z -> str.
Variable strptime : str -> option Z.

Lemma local_frame_logs known names faces :
  known <> [] -> length names = length known ->
  forall w,
  exists ds,
    VideoLoop.local_frame distance clock strftime strptime known names faces w
    = Ret (LocalLog.log_all clock strftime strptime
             (accepted_names distance known names faces) w, ds)
    /\ length ds = length faces.
Proof.
  intros Hne Hlen.
  induction faces as [|[q loc] rest IH]; intros w.
  - exists []. split; reflexivity.
  - cbn [VideoLoop.local_frame]. unfold LocalLog.process_face.
    destruct (@MatchFacts.recognize_least _ distance known names q Hne Hlen)
      as [i [d [name [_ [_ [_ [_ Hrec]]]]]]].
    unfold accepted_names. cbn [flat_map fst]. rewrite Hrec.
    destruct (Qltb d TOLERANCE); cbn [bind].
    + destruct (IH (snd (LocalLog.log_attendance clock strftime strptime
                           name w))) as [ds [E Hd]].
      rewrite E. cbn [bind]. eexists. split; [reflexivity|].
      simpl. f_equal. exact Hd.
    + destruct (IH w) as [ds [E Hd]].
      rewrite E. cbn [bind]. eexists. split; [reflexivity|].
      simpl. f_equal. exact Hd.
Qed.

End LocalLoop.
End Faces.
End FrameFacts.

(** X5.  With a roster in which no directory that is not hidden holds an
    image with a face, the acceptance test on the gallery
    [load_known_faces] builds raises [ValueError] on every face; with any
    other roster it returns on every face, and so does the loop body of
    the remote script, whatever the server answers. *)
Theorem X5_loop_raises_iff_roster_has_no_face :
  forall (encoding : Type) (distance : encoding -> encoding -> Q)
         (listing : list (Recognition.person_dir encoding)) (q : encoding),
    ((forall d, In d listing ->
                Py.startswith "." (Recognition.dir_name d) = false ->
                encodable (Recognition.dir_images d) = 0%nat) ->
     Recognition.recognize distance
       (fst (Recognition.load_known_faces listing))
       (snd (Recognition.load_known_faces listing)) q
     = Raise ValueError)
    /\ ((exists d, In d listing
                   /\ Py.startswith "." (Recognition.dir_name d) = false
                   /\ encodable (Recognition.dir_images d) <> 0%nat) ->
        (exists r,
            Recognition.recognize distance
              (fst (Recognition.load_known_faces listing))
              (snd (Recognition.load_known_faces listing)) q
            = Ret r)
        /\ forall (W : Type)
                  (post : W -> list (Py.str * Py.str)
                          -> W * res Remote.response) (w : W),
             exists out,
               Remote.process_face post distance
                 (fst (Recognition.load_known_faces listing))
                 (snd (Recognition.load_known_faces listing)) q w
               = Ret out).
Proof.
  intros encoding distance listing q.
  rewrite GalleryFacts.load_known_faces_entries. cbn [fst snd]. split.
  - intros H. apply FrameFacts.gallery_entries_nil in H. rewrite H.
    reflexivity.
  - intros [d [Hin [Hvis Henc]]].
    assert (Hne : map fst (gallery_entries listing) <> []).
    { intros H. apply map_eq_nil in H.
      apply Henc.
      exact (proj1 (FrameFacts.gallery_entries_nil listing) H d Hin Hvis). }
    assert (Hlen : length (map snd (gallery_entries listing))
                   = length (map fst (gallery_entries listing)))
      by (rewrite !length_map; reflexivity).
    destruct (@MatchFacts.recognize_least _ distance _ _ q Hne Hlen)
      as [i [x [name [_ [_ [_ [_ Hrec]]]]]]].
    split; [eexists; exact Hrec|].
    intros W post w. rewrite FrameFacts.remote_process_face, Hrec.
    eexists. reflexivity.
Qed.

Lemma X5_loop_raises_iff_roster_has_no_face_witness :
  Recognition.recognize Sample.distance
    (fst (Recognition.load_known_faces
            [{| Recognition.dir_name := Py.lit ".git";
                Recognition.dir_images := [[1]] |};
             {| Recognition.dir_name := Py.lit "chetan_yadav";
                Recognition.dir_images := [[]] |}]))
    (snd (Recognition.load_known_faces
            [{| Recognition.dir_name := Py.lit ".git";
                Recognition.dir_images := [[1]] |};
             {| Recognition.dir_name := Py.lit "chetan_yadav";
                Recognition.dir_images := [[]] |}])) 1
  = Raise ValueError
  /\ exists r,
       Recognition.recognize Sample.distance
         (fst (Recognition.load_known_faces
                 [{| Recognition.dir_name := Py.lit "chetan_yadav";
                     Recognition.dir_images := [[]; [1]] |}]))
         (snd (Recognition.load_known_faces
                 [{| Recognition.dir_name := Py.lit "chetan_yadav";
                     Recognition.dir_images := [[]; [1]] |}])) 1
       = Ret r.
Proof.
  split.
  - apply X5_loop_raises_iff_roster_has_no_face.
    intros d [<- | [<- | []]]; [discriminate | reflexivity].
  - apply X5_loop_raises_iff_roster_has_no_face.
    eexists. split; [left; reflexivity|]. split; [reflexivity | discriminate].
Defined.

(** X6.  In the remote script a frame sends one request for every face the
    acceptance test lets through, in face order and with nothing held back:
    the same person seen twice is posted twice.  With a gallery that is not
    empty the frame is drawn in full, one box per face, whatever the server
    answers. *)
Theorem X6_remote_frame_posts_every_accepted_face :
  forall (encoding : Type) (distance : encoding -> encoding -> Q)
         (W : Type)
         (post : W -> list (Py.str * Py.str) -> W * res Remote.response)
         (known : list encoding) (names : list Py.str)
         (faces : list (encoding * VideoLoop.box)) (w : W),
    known <> [] -> length names = length known ->
    exists w1 evs ds,
      VideoLoop.remote_frame distance post known names faces w
      = Ret (w1, evs, ds)
      /\ posts evs
         = map (fun n => [(Py.lit "face_id", Remote.face_id_of n)])
             (accepted_names distance known names faces)
      /\ length (prints evs)
         = length (accepted_names distance known names faces)
      /\ length ds = length faces.
Proof.
  intros encoding distance W post known names faces w Hne Hlen.
  apply FrameFacts.remote_frame_posts; assumption.
Qed.

Lemma X6_remote_frame_posts_every_accepted_face_witness :
  exists w1 evs ds,
    VideoLoop.remote_frame Sample.distance (Remote.flask_post Sample.utc)
      [1] [Py.lit "Chetan Yadav"]
      [(1, {| VideoLoop.top := 1; VideoLoop.right := 2;
              VideoLoop.bottom := 3; VideoLoop.left := 4 |});
       (3, {| VideoLoop.top := 5; VideoLoop.right := 6;
              VideoLoop.bottom := 7; VideoLoop.left := 8 |});
       (1, {| VideoLoop.top := 9; VideoLoop.right := 10;
              VideoLoop.bottom := 11; VideoLoop.left := 12 |})]
      (Sample.db, 0%nat)
    = Ret (w1, evs, ds)
    /\ posts evs
       = [[(Py.lit "face_id", Py.lit "chetan_yadav")];
          [(Py.lit "face_id", Py.lit "chetan_yadav")]].
Proof.
  destruct (@X6_remote_frame_posts_every_accepted_face Q Sample.distance _
              (Remote.flask_post Sample.utc) [1] [Py.lit "Chetan Yadav"]
              [(1, {| VideoLoop.top := 1; VideoLoop.right := 2;
                      VideoLoop.bottom := 3; VideoLoop.left := 4 |});
               (3, {| VideoLoop.top := 5; VideoLoop.right := 6;
                      VideoLoop.bottom := 7; VideoLoop.left := 8 |});
               (1, {| VideoLoop.top := 9; VideoLoop.right := 10;
                      VideoLoop.bottom := 11; VideoLoop.left := 12 |})]
              (Sample.db, 0%nat))
    as [w1 [evs [ds [E [Hp _]]]]]; [discriminate | reflexivity|].
  exists w1, evs, ds. split; [exact E|]. rewrite Hp. reflexivity.
Defined.

(** X7.  In the local script a frame leaves the log as [log_attendance]
    leaves it when called, in face order, on the names the acceptance test
    lets through; faces that are not accepted touch nothing. *)
Theorem X7_local_frame_logs_accepted_names :
  forall (encoding : Type) (distance : encoding -> encoding -> Q)
         (clock : nat -> Z) (strftime : Z -> Py.str)
         (strptime : Py.str -> option Z)
         (known : list encoding) (names : list Py.str)
         (faces : list (encoding * VideoLoop.box)) (w : LocalLog.world),
    known <> [] -> length names = length known ->
    exists ds,
      VideoLoop.local_frame distance clock strftime strptime known names
        faces w
      = Ret (LocalLog.log_all clock strftime strptime
               (accepted_names distance known names faces) w, ds)
      /\ length ds = length faces.
Proof.
  intros encoding distance clock strftime strptime known names faces w
    Hne Hlen.
  apply FrameFacts.local_frame_logs; assumption.
Qed.

Lemma X7_local_frame_logs_accepted_names_witness :
  exists ds,
    VideoLoop.local_frame Sample.distance Sample.clock Sample.strftime
      Sample.strptime [1] [Py.lit "Chetan Yadav"]
      [(1, {| VideoLoop.top := 1; VideoLoop.right := 2;
              VideoLoop.bottom := 3; VideoLoop.left := 4 |});
       (1, {| VideoLoop.top := 9; VideoLoop.right := 10;
              VideoLoop.bottom := 11; VideoLoop.left := 12 |})]
      {| LocalLog.reads := 0;
         LocalLog.file := LocalLog.new_log;
         LocalLog.stdout := [] |}
    = Ret (LocalLog.log_all Sample.clock Sample.strftime Sample.strptime
             [Py.lit "Chetan Yadav"; Py.lit "Chetan Yadav"]
             {| LocalLog.reads := 0;
                LocalLog.file := LocalLog.new_log;
                LocalLog.stdout := [] |}, ds).
Proof.
  destruct (@X7_local_frame_logs_accepted_names Q Sample.distance
              Sample.clock Sample.strftime Sample.strptime
              [1] [Py.lit "Chetan Yadav"]
              [(1, {| VideoLoop.top := 1; VideoLoop.right := 2;
                      VideoLoop.bottom := 3; VideoLoop.left := 4 |});
               (1, {| VideoLoop.top := 9; VideoLoop.right := 10;
                      VideoLoop.bottom := 11; VideoLoop.left := 12 |})]
              {| LocalLog.reads := 0;
                 LocalLog.file := LocalLog.new_log;
                 LocalLog.stdout := [] |})
    as [ds [E _]]; [discriminate | reflexivity|].
  exists ds. exact E.
Defined.

(* ================================================================== *)
(** ** Further properties: the server *)
(* ================================================================== *)

Module ApiFacts.
Import Py.

Lemma str_eqb_eq a b : str_eqb a b = true <-> a = b.
Proof.
  unfold str_eqb. destruct (list_eq_dec ascii_dec a b); split; congruence.
Qed.

Lemma str_eqb_refl a : str_eqb a a = true.
Proof. apply str_eqb_eq. reflexivity. Qed.

Lemma str_eqb_neq a b : str_eqb a b = false <-> a <> b.
Proof.
  unfold str_eqb. destruct (list_eq_dec ascii_dec a b); split; congruence.
Qed.

Lemma table_set k rows d : Api.table k (Api.set_table k rows d) = rows.
Proof. destruct k; reflexivity. Qed.

Lemma attendances_set k rows d :
  Remote.attendances (Api.set_table k rows d) = Remote.attendances d.
Proof. destruct k; reflexivity. Qed.

Lemma table_set_other k k' rows d :
  k <> k' -> Api.table k' (Api.set_table k rows d) = Api.table k' d.
Proof. destruct k, k'; intros H; try reflexivity; congruence. Qed.

Lemma first_some fid rows p :
  Remote.first_by_face_id fid rows = Some p ->
  In p rows /\ Remote.face_id p = fid.
Proof.
  unfold Remote.first_by_face_id. intros H. apply find_some in H as [H1 H2].
  split; [exact H1 | apply str_eqb_eq, H2].
Qed.

Lemma first_none fid rows :
  Remote.first_by_face_id fid rows = None <->
  ~ In fid (map Remote.face_id rows).
Proof.
  unfold Remote.first_by_face_id. split.
  - intros H Hin. apply in_map_iff in Hin as [p [Hp Hin]].
    pose proof (find_none _ _ H p Hin) as Hf. simpl in Hf.
    apply str_eqb_neq in Hf. congruence.
  - intros H. destruct (find _ rows) as [p|] eqn:E; [|reflexivity].
    apply find_some in E as [E1 E2]. apply str_eqb_eq in E2.
    exfalso. apply H. apply in_map_iff. exists p. auto.
Qed.

Lemma next_id_gt rows p :
  In p rows -> (Remote.person_id p < Api.next_id rows)%Z.
Proof.
  unfold Api.next_id. induction rows as [|q rest IH]; simpl; [tauto|].
  intros [-> | H]; [lia|]. specialize (IH H). lia.
Qed.

Lemma get_some id rows p :
  Api.get_by_id id rows = Some p -> In p rows /\ Remote.person_id p = id.
Proof.
  unfold Api.get_by_id. intros H. apply find_some in H as [H1 H2].
  split; [exact H1 | apply Z.eqb_eq, H2].
Qed.

Lemma get_none id rows :
  Api.get_by_id id rows = None <-> ~ In id (map Remote.person_id rows).
Proof.
  unfold Api.get_by_id. split.
  - intros H Hin. apply in_map_iff in Hin as [p [Hp Hin]].
    pose proof (find_none _ _ H p Hin) as Hf. simpl in Hf.
    apply Z.eqb_neq in Hf. congruence.
  - intros H. destruct (find _ rows) as [p|] eqn:E; [|reflexivity].
    apply find_some in E as [E1 E2]. apply Z.eqb_eq in E2.
    exfalso. apply H. apply in_map_iff. exists p. auto.
Qed.

Lemma get_app_new id rows p :
  Api.get_by_id id rows = None -> Remote.person_id p = id ->
  Api.get_by_id id (rows ++ [p]) = Some p.
Proof.
  unfold Api.get_by_id. intros Hn Hp.
  induction rows as [|q rest IH]; simpl in *.
  - rewrite Hp, Z.eqb_refl. reflexivity.
  - destruct (Remote.person_id q =? id)%Z; [discriminate | auto].
Qed.

Lemma get_app_old id rows p :
  Remote.person_id p <> id ->
  Api.get_by_id id (rows ++ [p]) = Api.get_by_id id rows.
Proof.
  unfold Api.get_by_id. intros Hp.
  induction rows as [|q rest IH]; simpl.
  - apply Z.eqb_neq in Hp. rewrite Hp. reflexivity.
  - destruct (Remote.person_id q =? id)%Z; [reflexivity | exact IH].
Qed.

Lemma get_filter id id' rows :
  id' <> id ->
  Api.get_by_id id'
    (filter (fun q => negb (Remote.person_id q =? id)%Z) rows)
  = Api.get_by_id id' rows.
Proof.
  unfold Api.get_by_id. intros Hne.
  induction rows as [|q rest IH]; simpl; [reflexivity|].
  destruct (Remote.person_id q =? id)%Z eqn:E; simpl.
  - apply Z.eqb_eq in E.
    assert (Hq : (Remote.person_id q =? id')%Z = false)
      by (apply Z.eqb_neq; congruence).
    rewrite Hq. exact IH.
  - destruct (Remote.person_id q =? id')%Z; [reflexivity | exact IH].
Qed.

Lemma get_filter_gone id rows :
  Api.get_by_id id
    (filter (fun q => negb (Remote.person_id q =? id)%Z) rows) = None.
Proof.
  apply get_none. intros H. apply in_map_iff in H as [p [Hp Hin]].
  apply filter_In in Hin as [_ Hin]. apply negb_true_iff, Z.eqb_neq in Hin.
  congruence.
Qed.

(** Rewriting the row of key [id] into a row of the same key. *)
Lemma get_update id id' p rows :
  Remote.person_id p = id ->
  Api.get_by_id id'
    (map (fun q => if (Remote.person_id q =? id)%Z then p else q) rows)
  = match Api.get_by_id id' rows with
    | Some q => Some (if (Remote.person_id q =? id)%Z then p else q)
    | None => None
    end.
Proof.
  unfold Api.get_by_id. intros Hp.
  induction rows as [|q rest IH]; simpl; [reflexivity|].
  destruct (Remote.person_id q =? id)%Z eqn:E.
  - replace (Remote.person_id p) with (Remote.person_id q)
      by (apply Z.eqb_eq in E; congruence).
    destruct (Remote.person_id q =? id')%Z; [|exact IH].
    rewrite E. reflexivity.
  - destruct (Remote.person_id q =? id')%Z; [|exact IH].
    rewrite E. reflexivity.
Qed.

Lemma update_ids id p rows :
  Remote.person_id p = id ->
  map Remote.person_id
    (map (fun q => if (Remote.person_id q =? id)%Z then p else q) rows)
  = map Remote.person_id rows.
Proof.
  intros Hp. rewrite map_map. apply map_ext. intros q.
  destruct (Remote.person_id q =? id)%Z eqn:E; [|reflexivity].
  apply Z.eqb_eq in E. congruence.
Qed.

Lemma nodup_map_inj (A B : Type) (f : A -> B) l x y :
  NoDup (map f l) -> In x l -> In y l -> f x = f y -> x = y.
Proof.
  induction l as [|a t IH]; simpl; intros Hnd Hx Hy Hf; [tauto|].
  inversion Hnd as [|b bs Hnotin Hnd']; subst.
  destruct Hx as [-> | Hx], Hy as [-> | Hy]; auto.
  - exfalso. apply Hnotin. rewrite Hf. apply in_map, Hy.
  - exfalso. apply Hnotin. rewrite <- Hf. apply in_map, Hx.
Qed.

(** Giving the row of key [id] a face id: none is shared afterwards when
    the new one is free, or is the one the row has. *)
Lemma update_face_ids id p row rows :
  roster_ok rows ->
  In row rows -> Remote.person_id row = id ->
  Remote.person_id p = id ->
  (Remote.face_id p = Remote.face_id row
   \/ ~ In (Remote.face_id p) (map Remote.face_id rows)) ->
  NoDup (map Remote.face_id
           (map (fun q => if (Remote.person_id q =? id)%Z then p else q)
              rows)).
Proof.
  intros [Hids Hfids] Hin Hrow Hp Hfree. rewrite map_map.
  assert (Hsame : forall q, In q rows -> Remote.person_id q = id -> q = row).
  { intros q Hq Hqid.
    apply (@nodup_map_inj _ _ Remote.person_id rows q row Hids Hq Hin).
    congruence. }
  destruct Hfree as [Heq | Hfree].
  - replace (map _ rows) with (map Remote.face_id rows); [exact Hfids|].
    apply map_ext_in. intros q Hq.
    destruct (Remote.person_id q =? id)%Z eqn:E; [|reflexivity].
    apply Z.eqb_eq in E. rewrite (Hsame q Hq E). congruence.
  - clear Hin Hrow Hsame. subst id.
    induction rows as [|q rest IH]; simpl; [constructor|].
    simpl in Hids, Hfids, Hfree.
    inversion Hids as [|a l Hn1 Hd1]; subst.
    inversion Hfids as [|a l Hn2 Hd2]; subst.
    constructor; [|apply IH; auto].
    intros H. apply in_map_iff in H as [q' [Hq' Hin']].
    destruct (Remote.person_id q =? Remote.person_id p)%Z eqn:E,
             (Remote.person_id q' =? Remote.person_id p)%Z eqn:E'.
    + apply Z.eqb_eq in E, E'. apply Hn1. apply in_map_iff.
      exists q'. split; [congruence | exact Hin'].
    + apply Hfree. right. rewrite <- Hq'. apply in_map, Hin'.
    + apply Hfree. left. congruence.
    + apply Hn2. rewrite <- Hq'. apply in_map, Hin'.
Qed.

Lemma nodup_map_filter (A B : Type) (f : A -> B) (keep : A -> bool) l :
  NoDup (map f l) -> NoDup (map f (filter keep l)).
Proof.
  induction l as [|a t IH]; simpl; intros H; [constructor|].
  inversion H as [|b bs Hn Hd]; subst.
  destruct (keep a); simpl; [|auto].
  constructor; [|auto].
  intros Hin. apply Hn. apply in_map_iff in Hin as [x [Hx Hin]].
  apply filter_In in Hin as [Hin _]. rewrite <- Hx. apply in_map, Hin.
Qed.

Lemma handle_people_ok k method data d :
  roster_ok (Api.table k d) ->
  roster_ok (Api.table k (fst (Api.handle_people k method data d))).
Proof.
  intros [Hids Hfids]. unfold Api.handle_people.
  destruct method; [exact (conj Hids Hfids)|].
  destruct data as [|kv data']; [exact (conj Hids Hfids)|].
  destruct (Remote.dict_get (kv :: data') (lit "name")) as [name|];
    [|exact (conj Hids Hfids)].
  destruct (Remote.dict_get (kv :: data') (lit "face_id")) as [fid|];
    [|exact (conj Hids Hfids)].
  destruct (Remote.first_by_face_id fid (Api.table k d)) eqn:E;
    [exact (conj Hids Hfids)|].
  cbn [fst]. rewrite table_set. unfold roster_ok. rewrite !map_app. split.
  - apply NoDup_app; [exact Hids | repeat constructor; intros [] |].
    intros x Hx [<- | []]. simpl in Hx.
    apply in_map_iff in Hx as [p [Hp Hin]].
    pose proof (next_id_gt _ _ Hin). lia.
  - apply NoDup_app; [exact Hfids | repeat constructor; intros [] |].
    intros x Hx [<- | []]. simpl in Hx.
    apply first_none in E. contradiction.
Qed.

Lemma handle_person_by_id_ok k id method data d :
  roster_ok (Api.table k d) ->
  roster_ok (Api.table k (fst (Api.handle_person_by_id k id method data d))).
Proof.
  intros Hok. unfold Api.handle_person_by_id.
  destruct (Api.get_by_id id (Api.table k d)) as [row|] eqn:Eg;
    [|exact Hok].
  apply get_some in Eg as [Hin Hrow].
  assert (Hcommit : forall p,
             Remote.person_id p = id ->
             (Remote.face_id p = Remote.face_id row
              \/ ~ In (Remote.face_id p)
                      (map Remote.face_id (Api.table k d))) ->
             roster_ok
               (map (fun q => if (Remote.person_id q =? id)%Z then p else q)
                  (Api.table k d))).
  { intros p Hp Hfree. split.
    - rewrite update_ids by exact Hp. apply Hok.
    - eapply update_face_ids; eauto. }
  destruct method.
  - exact Hok.
  - assert (Hren : Remote.person_id
                     match Remote.dict_get data (lit "name") with
                     | Some name =>
                         {| Remote.person_id := Remote.person_id row;
                            Remote.face_id := Remote.face_id row;
                            Remote.person_name := name |}
                     | None => row
                     end = id
                   /\ Remote.face_id
                        match Remote.dict_get data (lit "name") with
                        | Some name =>
                            {| Remote.person_id := Remote.person_id row;
                               Remote.face_id := Remote.face_id row;
                               Remote.person_name := name |}
                        | None => row
                        end = Remote.face_id row).
    { destruct (Remote.dict_get data (lit "name")); split; auto. }
    destruct Hren as [Hid Hfid]. cbv zeta.
    destruct (Remote.dict_get data (lit "face_id")) as [fid|].
    + destruct (Remote.first_by_face_id fid (Api.table k d)) eqn:E.
      * destruct (str_eqb (Remote.face_id row) fid) eqn:Es; cbn [negb fst];
          [|exact Hok].
        rewrite table_set. apply Hcommit; [exact Hid|].
        left. simpl. symmetry. apply str_eqb_eq, Es.
      * cbn [fst]. rewrite table_set. apply Hcommit; [exact Hid|].
        right. simpl. apply first_none, E.
    + cbn [fst]. rewrite table_set. apply Hcommit; [exact Hid|].
      left. exact Hfid.
  - cbn [fst]. rewrite table_set. destruct Hok as [Hids Hfids].
    split; apply nodup_map_filter; assumption.
Qed.

Lemma handle_people_post :
  forall (k : Api.kind) (d : Remote.database)
         (data : list (Py.str * Py.str)) (name fid : Py.str),
    Remote.dict_get data (Py.lit "name") = Some name ->
    Remote.dict_get data (Py.lit "face_id") = Some fid ->
    Api.handle_people k Api.POST data d
    = match Remote.first_by_face_id fid (Api.table k d) with
      | Some _ =>
          (d, (Api.JDict [(Py.lit "error",
                           Api.JStr (Api.Kind k ++ Py.lit " with face_id '"
                                       ++ fid ++ Py.lit "' already exists."))],
               409%Z))
      | None =>
          (Api.set_table k
             (Api.table k d
                ++ [{| Remote.person_id := Api.next_id (Api.table k d);
                       Remote.face_id := fid;
                       Remote.person_name := name |}]) d,
           (Api.JDict [(Py.lit "message",
                        Api.JStr (Api.Kind k ++ Py.lit " " ++ name
                                    ++ Py.lit " added successfully!"))],
            201%Z))
      end.
Proof.
  intros k d data name fid Hname Hfid. unfold Api.handle_people.
  destruct data as [|kv data]; [discriminate|].
  cbv beta iota. rewrite Hname, Hfid. reflexivity.
Qed.

End ApiFacts.

Module ScriptFacts.

Lemma flask_post_roster elsewhere k name fid d :
  AddUser.flask_post elsewhere d (roster_url k) (add_user_payload name fid)
  = (fst (Api.handle_people k Api.POST (add_user_payload name fid) d),
     Ret {| AddUser.status_code :=
              snd (snd (Api.handle_people k Api.POST
                          (add_user_payload name fid) d));
            AddUser.body :=
              Some (fst (snd (Api.handle_people k Api.POST
                                (add_user_payload name fid) d))) |}).
Proof.
  unfold AddUser.flask_post. destruct k; cbn [roster_url].
  - rewrite ApiFacts.str_eqb_refl. unfold Api.handle_students.
    destruct (Api.handle_people Api.Student Api.POST _ d) as [d1 [j code]].
    reflexivity.
  - assert (E : Py.str_eqb AddUser.API_TEACHERS AddUser.API_STUDENTS = false)
      by reflexivity.
    rewrite E, ApiFacts.str_eqb_refl. unfold Api.handle_teachers.
    destruct (Api.handle_people Api.Teacher Api.POST _ d) as [d1 [j code]].
    reflexivity.
Qed.

Lemma add_user_free elsewhere k name fid d :
  Remote.first_by_face_id fid (Api.table k d) = None ->
  AddUser.add_user (AddUser.flask_post elsewhere) (roster_url k)
    name fid d
  = (Api.set_table k
       (Api.table k d
          ++ [{| Remote.person_id := Api.next_id (Api.table k d);
                 Remote.face_id := fid;
                 Remote.person_name := name |}]) d,
     [AddUser.Posted (roster_url k) (add_user_payload name fid);
      AddUser.Printed (AddUser.SUCCESS name fid)],
     Ret tt).
Proof.
  intros H. unfold AddUser.add_user.
  change [(Py.lit "name", name); (Py.lit "face_id", fid)]
    with (add_user_payload name fid).
  rewrite flask_post_roster.
  rewrite (@ApiFacts.handle_people_post k d (add_user_payload name fid)
             name fid eq_refl eq_refl), H.
  reflexivity.
Qed.

Lemma add_user_taken elsewhere k name fid d :
  Remote.first_by_face_id fid (Api.table k d) <> None ->
  AddUser.add_user (AddUser.flask_post elsewhere) (roster_url k)
    name fid d
  = (d,
     [AddUser.Posted (roster_url k) (add_user_payload name fid);
      AddUser.Printed (AddUser.SKIPPED name fid)],
     Ret tt).
Proof.
  intros H. unfold AddUser.add_user.
  change [(Py.lit "name", name); (Py.lit "face_id", fid)]
    with (add_user_payload name fid).
  rewrite flask_post_roster.
  rewrite (@ApiFacts.handle_people_post k d (add_user_payload name fid)
             name fid eq_refl eq_refl).
  destruct (Remote.first_by_face_id fid (Api.table k d));
    [reflexivity | congruence].
Qed.

(** After [add_user], the face id is in the table, whether it was there
    before or not, and the attendance rows are what they were. *)
Lemma add_user_enrols elsewhere k name fid d :
  Remote.first_by_face_id fid
    (Api.table k
       (fst (fst (AddUser.add_user (AddUser.flask_post elsewhere)
                    (roster_url k)
                    name fid d)))) <> None
  /\ Remote.attendances
       (fst (fst (AddUser.add_user (AddUser.flask_post elsewhere)
                    (roster_url k)
                    name fid d)))
     = Remote.attendances d.
Proof.
  destruct (Remote.first_by_face_id fid (Api.table k d)) eqn:E.
  - rewrite add_user_taken by congruence. cbn [fst].
    split; [congruence | reflexivity].
  - rewrite add_user_free by exact E. cbn [fst].
    rewrite ApiFacts.table_set, ApiFacts.attendances_set.
    split; [|reflexivity].
    intros H. apply ApiFacts.first_none in H. apply H.
    rewrite map_app. apply in_or_app. right. left. reflexivity.
Qed.

(** A delivery for an enrolled face id. *)
Lemma delivery_enrolled (utc : nat -> Z) d n name :
  Remote.face_id_of name <> [] ->
  Remote.first_by_face_id (Remote.face_id_of name) (Remote.students d)
  <> None
  \/ Remote.first_by_face_id (Remote.face_id_of name) (Remote.teachers d)
     <> None ->
  exists d1,
    Remote.mark_attendance_via_api (Remote.flask_post utc) name (d, n)
    = ((d1, S n),
       [Remote.Posted [(Py.lit "face_id", Remote.face_id_of name)];
        Remote.Printed (Remote.API_SUCCESS name)],
       Ret tt)
    /\ remote_events d1
       = remote_events d ++ [(Remote.face_id_of name, utc n)]
    /\ Remote.students d1 = Remote.students d
    /\ Remote.teachers d1 = Remote.teachers d.
Proof.
  intros Hfid Hknown.
  rewrite SinkFacts.mark_attendance_via_api_eq.
  assert (Hkey : Remote.dict_get [(Py.lit "face_id", Remote.face_id_of name)]
                   (Py.lit "face_id") = Some (Remote.face_id_of name))
    by reflexivity.
  unfold Remote.flask_post, Remote.mark_attendance. rewrite Hkey.
  destruct (Remote.face_id_of name) as [|c fid] eqn:Ef; [congruence|].
  destruct (Remote.first_by_face_id (c :: fid) (Remote.students d)).
  - eexists. split; [reflexivity|].
    unfold remote_events. simpl. rewrite map_app. repeat split.
  - destruct (Remote.first_by_face_id (c :: fid) (Remote.teachers d)).
    + eexists. split; [reflexivity|].
      unfold remote_events. simpl. rewrite map_app. repeat split.
    + destruct Hknown; congruence.
Qed.

End ScriptFacts.

(** X8.  Client and server together.  For a recognised name whose
    [face_id] is enrolled, as a student or as a teacher, a call of
    [mark_attendance_via_api] against [app.py] stores one attendance row
    with that [face_id] and the server's clock and prints a success; for a
    [face_id] that is not enrolled it stores nothing and prints the 404
    answer with the server's message. *)
Theorem X8_remote_delivery_end_to_end :
  forall (utc : nat -> Z) (d : Remote.database) (k : nat) (name : Py.str),
    Remote.face_id_of name <> [] ->
    (Remote.first_by_face_id (Remote.face_id_of name) (Remote.students d)
     <> None
     \/ Remote.first_by_face_id (Remote.face_id_of name) (Remote.teachers d)
        <> None ->
     exists d1,
       Remote.mark_attendance_via_api (Remote.flask_post utc) name (d, k)
       = ((d1, S k),
          [Remote.Posted [(Py.lit "face_id", Remote.face_id_of name)];
           Remote.Printed (Remote.API_SUCCESS name)],
          Ret tt)
       /\ remote_events d1
          = remote_events d ++ [(Remote.face_id_of name, utc k)]
       /\ Remote.students d1 = Remote.students d
       /\ Remote.teachers d1 = Remote.teachers d)
    /\ (Remote.first_by_face_id (Remote.face_id_of name) (Remote.students d)
        = None ->
        Remote.first_by_face_id (Remote.face_id_of name) (Remote.teachers d)
        = None ->
        Remote.mark_attendance_via_api (Remote.flask_post utc) name (d, k)
        = ((d, S k),
           [Remote.Posted [(Py.lit "face_id", Remote.face_id_of name)];
            Remote.Printed
              (Remote.API_FAIL 404
                 (Py.lit "ID " ++ Remote.face_id_of name
                    ++ Py.lit " recognized by AI but not found in DB. Enroll first."))],
           Ret tt)).
Proof.
  intros utc d k name Hfid. split.
  - apply ScriptFacts.delivery_enrolled, Hfid.
  - rewrite SinkFacts.mark_attendance_via_api_eq.
    assert (Hkey : Remote.dict_get
                     [(Py.lit "face_id", Remote.face_id_of name)]
                     (Py.lit "face_id") = Some (Remote.face_id_of name))
      by reflexivity.
    unfold Remote.flask_post, Remote.mark_attendance. rewrite Hkey.
    destruct (Remote.face_id_of name) as [|c fid] eqn:Ef; [congruence|].
    intros -> ->. reflexivity.
Qed.

Lemma X8_remote_delivery_end_to_end_witness :
  exists d1,
    Remote.mark_attendance_via_api (Remote.flask_post Sample.utc)
      (Py.lit "Chetan Yadav") (Sample.db, 3%nat)
    = ((d1, 4%nat),
       [Remote.Posted [(Py.lit "face_id", Py.lit "chetan_yadav")];
        Remote.Printed (Remote.API_SUCCESS (Py.lit "Chetan Yadav"))],
       Ret tt)
    /\ remote_events d1 = [(Py.lit "chetan_yadav", 3000000%Z)].
Proof.
  destruct (@X8_remote_delivery_end_to_end Sample.utc Sample.db 3%nat
              (Py.lit "Chetan Yadav")) as [H _]; [discriminate|].
  destruct H as [d1 [E [Hev _]]]; [left; discriminate|].
  exists d1. split; [exact E | exact Hev].
Defined.

(** X9.  The roster handlers keep the keys of a table apart and its face
    ids apart: whatever the method and the request, a table without shared
    keys and without shared face ids is one after the call. *)
Theorem X9_roster_keys_stay_unique :
  forall (k : Api.kind) (d : Remote.database),
    roster_ok (Api.table k d) ->
    (forall method data,
        roster_ok (Api.table k (fst (Api.handle_people k method data d))))
    /\ (forall id method data,
          roster_ok
            (Api.table k (fst (Api.handle_person_by_id k id method data d)))).
Proof.
  intros k d Hok. split.
  - intros method data. apply ApiFacts.handle_people_ok, Hok.
  - intros id method data. apply ApiFacts.handle_person_by_id_ok, Hok.
Qed.

Lemma X9_roster_keys_stay_unique_witness :
  roster_ok
    (Api.table Api.Student
       (fst (Api.handle_students Api.POST
               [(Py.lit "name", Py.lit "Yug Patel");
                (Py.lit "face_id", Py.lit "yug_patel")] Sample.db))).
Proof.
  apply (@X9_roster_keys_stay_unique Api.Student Sample.db).
  split; repeat constructor; simpl; tauto.
Defined.



(** X11.  Deleting.  For a key SQLite can hold, from 0 to 2^63 - 1: a
    DELETE of a key in use answers 200 and the key reads 404 afterwards,
    while every other key reads as before; a DELETE, a GET or a PUT of a
    key that is not in use answers 404 and changes nothing.  A key of 2^63
    or more that is in no table is answered with 500 for every method, and
    nothing changes. *)
Theorem X11_delete_then_read :
  forall (k : Api.kind) (d : Remote.database) (id : Z)
         (data : list (Py.str * Py.str)),
    (Api.get_by_id id (Api.table k d) = None ->
     ((id < 2 ^ 63)%Z ->
      forall method,
        Api.handle_person_by_id k id method data d = (d, (None, 404%Z)))
     /\ ((2 ^ 63 <= id)%Z ->
         forall method,
           Api.handle_person_by_id k id method data d = (d, (None, 500%Z))))
    /\ (Api.get_by_id id (Api.table k d) <> None ->
        (0 <= id < 2 ^ 63)%Z ->
        let d1 := fst (Api.handle_person_by_id k id Api.DELETE data d) in
        snd (snd (Api.handle_person_by_id k id Api.DELETE data d)) = 200%Z
        /\ (forall method data',
              Api.handle_person_by_id k id method data' d1
              = (d1, (None, 404%Z)))
        /\ (forall id', id' <> id ->
              Api.get_by_id id' (Api.table k d1)
              = Api.get_by_id id' (Api.table k d))
        /\ Remote.attendances d1 = Remote.attendances d).
Proof.
  intros k d id data.
  change (2 ^ 63)%Z with 9223372036854775808%Z.
  assert (Hsmall : (id < 9223372036854775808)%Z ->
                   (9223372036854775808 <=? id)%Z = false)
    by (intros H; apply Z.leb_gt, H).
  split.
  - intros Hnone. split; intros Hid method;
      unfold Api.handle_person_by_id; rewrite Hnone.
    + rewrite (Hsmall Hid). reflexivity.
    + replace (9223372036854775808 <=? id)%Z with true; [reflexivity|].
      symmetry. apply Z.leb_le. exact Hid.
  - intros Hsome [_ Hid] d1.
    assert (Hd1 : d1 = Api.set_table k
                         (filter (fun q => negb (Remote.person_id q =? id)%Z)
                            (Api.table k d)) d).
    { unfold d1, Api.handle_person_by_id.
      destruct (Api.get_by_id id (Api.table k d)); [reflexivity | congruence]. }
    repeat split.
    + unfold Api.handle_person_by_id.
      destruct (Api.get_by_id id (Api.table k d)); [reflexivity | congruence].
    + intros method data'. unfold Api.handle_person_by_id.
      rewrite Hd1 at 1. rewrite ApiFacts.table_set, ApiFacts.get_filter_gone.
      rewrite (Hsmall Hid). reflexivity.
    + intros id' Hne. rewrite Hd1, ApiFacts.table_set.
      apply ApiFacts.get_filter, Hne.
    + rewrite Hd1. apply ApiFacts.attendances_set.
Qed.

Lemma X11_delete_then_read_witness :
  Api.handle_person_by_id Api.Student 1 Api.GET_ONE []
    (fst (Api.handle_person_by_id Api.Student 1 Api.DELETE [] Sample.db))
  = (fst (Api.handle_person_by_id Api.Student 1 Api.DELETE [] Sample.db),
     (None, 404%Z))
  /\ Api.handle_person_by_id Api.Student 7 Api.DELETE [] Sample.db
     = (Sample.db, (None, 404%Z))
  /\ Api.handle_person_by_id Api.Student (2 ^ 63) Api.GET_ONE [] Sample.db
     = (Sample.db, (None, 500%Z)).
Proof.
  split; [|split].
  - destruct (@X11_delete_then_read Api.Student Sample.db 1 []) as [_ H].
    destruct H as [_ [H _]]; [discriminate | split; [lia | reflexivity] |].
    exact (H Api.GET_ONE []).
  - destruct (@X11_delete_then_read Api.Student Sample.db 7 []) as [H _].
    destruct (H eq_refl) as [H404 _]. apply H404. reflexivity.
  - destruct (@X11_delete_then_read Api.Student Sample.db (2 ^ 63) [])
      as [H _].
    destruct (H eq_refl) as [_ H500]. apply H500. reflexivity.
Defined.

(** X12.  Updating.  In a table without shared keys or face ids, a PUT
    for a key in use that names the face id of another row answers 409 and
    changes nothing, not even the name; any other PUT for that key answers
    200, the key then reads with the name and the face id of the request,
    where given, and every other key reads as before. *)
Theorem X12_update_then_read :
  forall (k : Api.kind) (d : Remote.database) (id : Z)
         (data : list (Py.str * Py.str)) (row : Remote.person),
    roster_ok (Api.table k d) ->
    Api.get_by_id id (Api.table k d) = Some row ->
    ((exists fid other,
         Remote.dict_get data (Py.lit "face_id") = Some fid
         /\ In other (Api.table k d)
         /\ Remote.face_id other = fid
         /\ Remote.person_id other <> id) ->
     Api.handle_person_by_id k id Api.PUT data d
     = (d, (Some (Api.JDict
                    [(Py.lit "error",
                      Api.JStr (Py.lit "Face ID already in use by another "
                                  ++ Api.kind_word k ++ Py.lit "."))]),
            409%Z)))
    /\ ((forall fid other,
            Remote.dict_get data (Py.lit "face_id") = Some fid ->
            In other (Api.table k d) ->
            Remote.face_id other = fid ->
            Remote.person_id other = id) ->
        let d1 := fst (Api.handle_person_by_id k id Api.PUT data d) in
        snd (snd (Api.handle_person_by_id k id Api.PUT data d)) = 200%Z
        /\ Api.get_by_id id (Api.table k d1)
           = Some {| Remote.person_id := id;
                     Remote.face_id :=
                       match Remote.dict_get data (Py.lit "face_id") with
                       | Some fid => fid
                       | None => Remote.face_id row
                       end;
                     Remote.person_name :=
                       match Remote.dict_get data (Py.lit "name") with
                       | Some name => name
                       | None => Remote.person_name row
                       end |}
        /\ (forall id', id' <> id ->
              Api.get_by_id id' (Api.table k d1)
              = Api.get_by_id id' (Api.table k d))
        /\ Remote.attendances d1 = Remote.attendances d).
Proof.
  intros k d id data row Hok Hget.
  pose proof (ApiFacts.get_some _ _ Hget) as [Hin Hid].
  assert (Hcommit :
            forall p, Remote.person_id p = id ->
              let d1 := Api.set_table k
                          (map (fun q => if (Remote.person_id q =? id)%Z
                                         then p else q) (Api.table k d)) d in
              Api.get_by_id id (Api.table k d1) = Some p
              /\ (forall id', id' <> id ->
                    Api.get_by_id id' (Api.table k d1)
                    = Api.get_by_id id' (Api.table k d))
              /\ Remote.attendances d1 = Remote.attendances d).
  { intros p Hp d1. unfold d1. rewrite ApiFacts.table_set. repeat split.
    - rewrite (@ApiFacts.get_update id id p _ Hp), Hget.
      rewrite <- Hid at 1. rewrite Z.eqb_refl. reflexivity.
    - intros id' Hne. rewrite (@ApiFacts.get_update id id' p _ Hp).
      destruct (Api.get_by_id id' (Api.table k d)) as [q|] eqn:E;
        [|reflexivity].
      apply ApiFacts.get_some in E as [_ E].
      assert (Hq : (Remote.person_id q =? id)%Z = false)
        by (apply Z.eqb_neq; congruence).
      rewrite Hq. reflexivity.
    - apply ApiFacts.attendances_set. }
  destruct row as [rid rfid rname]. simpl in Hid. subst rid.
  unfold Api.handle_person_by_id. rewrite Hget. cbv zeta.
  split.
  - intros [fid [other [Hfid [Hother [Hface Hne]]]]]. rewrite Hfid.
    destruct (Remote.first_by_face_id fid (Api.table k d)) as [p|] eqn:E.
    + assert (Hs : Py.str_eqb rfid fid = false).
      { apply ApiFacts.str_eqb_neq. intros Heq. apply Hne.
        destruct Hok as [_ Hfids].
        rewrite (@ApiFacts.nodup_map_inj _ _ Remote.face_id _ other
                   {| Remote.person_id := id; Remote.face_id := rfid;
                      Remote.person_name := rname |} Hfids Hother Hin);
          [reflexivity | simpl; congruence]. }
      cbn [Remote.face_id]. rewrite Hs. reflexivity.
    + apply ApiFacts.first_none in E. exfalso. apply E.
      rewrite <- Hface. apply in_map, Hother.
  - intros Hfree.
    destruct (Remote.dict_get data (Py.lit "face_id")) as [fid|] eqn:Efid.
    + assert (Hgo :
                match Remote.first_by_face_id fid (Api.table k d) with
                | Some _ => negb (Py.str_eqb rfid fid) = false
                | None => True
                end).
      { destruct (Remote.first_by_face_id fid (Api.table k d)) as [p|] eqn:E;
          [|exact I].
        apply ApiFacts.first_some in E as [Hp Hpf].
        pose proof (Hfree fid p eq_refl Hp Hpf) as Hpid.
        destruct Hok as [Hids _].
        assert (Hsame : p = {| Remote.person_id := id; Remote.face_id := rfid;
                               Remote.person_name := rname |})
          by (apply (@ApiFacts.nodup_map_inj _ _ Remote.person_id _ _ _
                       Hids Hp Hin); exact Hpid).
        subst p. simpl in Hpf. subst fid.
        rewrite ApiFacts.str_eqb_refl. reflexivity. }
      destruct (Remote.dict_get data (Py.lit "name")) as [name|];
        cbn [Remote.person_id Remote.face_id Remote.person_name] in *;
        destruct (Remote.first_by_face_id fid (Api.table k d));
        try rewrite Hgo; cbn [fst snd];
        (split; [reflexivity | apply Hcommit; reflexivity]).
    + destruct (Remote.dict_get data (Py.lit "name")) as [name|];
        cbn [fst snd]; (split; [reflexivity | apply Hcommit; reflexivity]).
Qed.

Lemma X12_update_then_read_witness :
  Api.get_by_id 1
    (Api.table Api.Student
       (fst (Api.handle_person_by_id Api.Student 1 Api.PUT
               [(Py.lit "name", Py.lit "Chetan Y.")] Sample.db)))
  = Some {| Remote.person_id := 1;
            Remote.face_id := Py.lit "chetan_yadav";
            Remote.person_name := Py.lit "Chetan Y." |}.
Proof.
  assert (Hok : roster_ok (Api.table Api.Student Sample.db))
    by (split; repeat constructor; simpl; tauto).
  destruct (@X12_update_then_read Api.Student Sample.db 1
              [(Py.lit "name", Py.lit "Chetan Y.")] _ Hok eq_refl)
    as [_ H].
  destruct H as [_ [H _]]; [discriminate|]. exact H.
Defined.

(** X13.  A face id of no characters can be enrolled but never marked: the
    roster route stores the row and answers 201, while the attendance route
    answers 400 and stores nothing for a request whose [face_id] is empty
    or missing, whatever the roster holds. *)
Theorem X13_empty_face_id_enrolled_never_marked :
  forall (k : Api.kind) (d : Remote.database) (name : Py.str),
    Remote.first_by_face_id [] (Api.table k d) = None ->
    let enrolled :=
      Api.handle_people k Api.POST
        [(Py.lit "name", name); (Py.lit "face_id", [])] d in
    snd (snd enrolled) = 201%Z
    /\ Remote.first_by_face_id [] (Api.table k (fst enrolled)) <> None
    /\ forall (utcnow : Z) (d' : Remote.database)
              (data : list (Py.str * Py.str)),
         Remote.dict_get data (Py.lit "face_id") = Some []
         \/ Remote.dict_get data (Py.lit "face_id") = None ->
         Remote.mark_attendance utcnow d' data
         = (d', (Remote.JObj
                   [(Py.lit "error",
                     Py.lit "Missing 'face_id' in request data.")],
                 400%Z)).
Proof.
  intros k d name Hfree enrolled.
  assert (He : enrolled
               = (Api.set_table k
                    (Api.table k d
                       ++ [{| Remote.person_id := Api.next_id (Api.table k d);
                              Remote.face_id := [];
                              Remote.person_name := name |}]) d,
                  (Api.JDict
                     [(Py.lit "message",
                       Api.JStr (Api.Kind k ++ Py.lit " " ++ name
                                   ++ Py.lit " added successfully!"))],
                   201%Z))).
  { unfold enrolled.
    rewrite (@ApiFacts.handle_people_post k d
               [(Py.lit "name", name); (Py.lit "face_id", [])] name []
               eq_refl eq_refl).
    rewrite Hfree. reflexivity. }
  rewrite He. cbn [fst snd]. repeat split.
  - rewrite ApiFacts.table_set. intros H. apply ApiFacts.first_none in H.
    apply H. rewrite map_app. apply in_or_app. right. left. reflexivity.
  - intros utcnow d' data [H | H]; unfold Remote.mark_attendance;
      rewrite H; reflexivity.
Qed.

Lemma X13_empty_face_id_enrolled_never_marked_witness :
  snd (snd (Api.handle_people Api.Teacher Api.POST
              [(Py.lit "name", Py.lit "Teacher One"); (Py.lit "face_id", [])]
              Sample.db)) = 201%Z
  /\ Remote.mark_attendance 0
       (fst (Api.handle_people Api.Teacher Api.POST
               [(Py.lit "name", Py.lit "Teacher One");
                (Py.lit "face_id", [])] Sample.db))
       [(Py.lit "face_id", [])]
     = (fst (Api.handle_people Api.Teacher Api.POST
               [(Py.lit "name", Py.lit "Teacher One");
                (Py.lit "face_id", [])] Sample.db),
        (Remote.JObj
           [(Py.lit "error", Py.lit "Missing 'face_id' in request data.")],
         400%Z)).
Proof.
  destruct (@X13_empty_face_id_enrolled_never_marked Api.Teacher Sample.db
              (Py.lit "Teacher One") eq_refl) as [H1 [_ H3]].
  split; [exact H1 | apply H3; left; reflexivity].
Defined.

(** X14.  Marking and the presence report together.  After the attendance
    route has marked a teacher at the instant [utcnow], the presence report
    lists that teacher as Present at every instant [now] up to 60 minutes
    later; once the mark and every earlier row of that face id are more
    than 60 minutes old, the report lists the teacher as Absent/Unknown. *)
Theorem X14_marked_teacher_present_for_an_hour :
  forall (d : Remote.database) (teacher : Remote.person) (utcnow now : Z),
    In teacher (Remote.teachers d) ->
    Remote.face_id teacher <> [] ->
    let d1 :=
      fst (Remote.mark_attendance utcnow d
             [(Py.lit "face_id", Remote.face_id teacher)]) in
    snd (snd (Remote.mark_attendance utcnow d
                [(Py.lit "face_id", Remote.face_id teacher)])) = 201%Z
    /\ ((now - 3600 * LocalLog.SECOND <= utcnow)%Z ->
        listed (presence_line teacher (Py.lit "Present"))
          (fst (Api.get_teacher_presence now d1)))
    /\ ((utcnow < now - 3600 * LocalLog.SECOND)%Z ->
        (forall a, In a (Remote.attendances d) ->
                   Remote.person_face_id a = Remote.face_id teacher ->
                   (Remote.timestamp a < now - 3600 * LocalLog.SECOND)%Z) ->
        listed (presence_line teacher (Py.lit "Absent/Unknown"))
          (fst (Api.get_teacher_presence now d1))).
Proof.
  intros d teacher utcnow now Hin Hfid d1.
  assert (Hkey : Remote.dict_get [(Py.lit "face_id", Remote.face_id teacher)]
                   (Py.lit "face_id") = Some (Remote.face_id teacher))
    by reflexivity.
  assert (Hknown : match Remote.first_by_face_id (Remote.face_id teacher)
                           (Remote.students d) with
                   | Some p => Some p
                   | None => Remote.first_by_face_id (Remote.face_id teacher)
                               (Remote.teachers d)
                   end <> None).
  { destruct (Remote.first_by_face_id _ (Remote.students d));
      [discriminate|].
    intros H. apply ApiFacts.first_none in H. apply H. apply in_map, Hin. }
  assert (Hmark :
            Remote.mark_attendance utcnow d
              [(Py.lit "face_id", Remote.face_id teacher)]
            = ({| Remote.students := Remote.students d;
                  Remote.teachers := Remote.teachers d;
                  Remote.attendances :=
                    Remote.attendances d
                      ++ [{| Remote.attendance_id :=
                               Z.of_nat (length (Remote.attendances d)) + 1;
                             Remote.person_face_id := Remote.face_id teacher;
                             Remote.status := Py.lit "Present";
                             Remote.timestamp := utcnow |}] |},
               (Remote.JObj
                  [(Py.lit "message",
                    Py.lit "Attendance marked for "
                      ++ Remote.face_id teacher ++ Py.lit ".")],
                201%Z))).
  { unfold Remote.mark_attendance. rewrite Hkey.
    destruct (Remote.face_id teacher) as [|c fid]; [congruence|].
    destruct (match Remote.first_by_face_id (c :: fid) (Remote.students d) with
              | Some p => Some p
              | None => Remote.first_by_face_id (c :: fid) (Remote.teachers d)
              end); [reflexivity | congruence]. }
  unfold d1. rewrite Hmark. cbn [fst snd].
  unfold Api.get_teacher_presence, listed, presence_line. cbn [fst].
  cbn [Remote.teachers Remote.attendances].
  split; [reflexivity|]. split.
  - intros Hnow. apply in_map_iff. exists teacher. split; [|exact Hin].
    assert (E : existsb
                  (fun a =>
                     Py.str_eqb (Remote.person_face_id a)
                       (Remote.face_id teacher)
                     && Py.str_eqb (Remote.status a) (Py.lit "Present")
                     && (now - 60 * 60 * 1000000 <=? Remote.timestamp a)%Z)
                  (Remote.attendances d
                     ++ [{| Remote.attendance_id :=
                              Z.of_nat (length (Remote.attendances d)) + 1;
                            Remote.person_face_id := Remote.face_id teacher;
                            Remote.status := Py.lit "Present";
                            Remote.timestamp := utcnow |}]) = true).
    { apply existsb_exists. eexists. split.
      - apply in_or_app. right. left. reflexivity.
      - cbn [Remote.person_face_id Remote.status Remote.timestamp].
        rewrite !ApiFacts.str_eqb_refl. cbn [andb].
        apply Z.leb_le. unfold LocalLog.SECOND in Hnow. lia. }
    rewrite E. reflexivity.
  - intros Hold Hrows. apply in_map_iff. exists teacher.
    split; [|exact Hin].
    assert (E : existsb
                  (fun a =>
                     Py.str_eqb (Remote.person_face_id a)
                       (Remote.face_id teacher)
                     && Py.str_eqb (Remote.status a) (Py.lit "Present")
                     && (now - 60 * 60 * 1000000 <=? Remote.timestamp a)%Z)
                  (Remote.attendances d
                     ++ [{| Remote.attendance_id :=
                              Z.of_nat (length (Remote.attendances d)) + 1;
                            Remote.person_face_id := Remote.face_id teacher;
                            Remote.status := Py.lit "Present";
                            Remote.timestamp := utcnow |}]) = false).
    { destruct (existsb _ _) eqn:E; [|reflexivity]. exfalso.
      apply existsb_exists in E as [a [Ha Hc]].
      apply andb_true_iff in Hc as [Hc Ht].
      apply andb_true_iff in Hc as [Hf _].
      apply ApiFacts.str_eqb_eq in Hf. apply Z.leb_le in Ht.
      unfold LocalLog.SECOND in *.
      apply in_app_or in Ha as [Ha | [<- | []]].
      - specialize (Hrows a Ha Hf). lia.
      - cbn [Remote.timestamp] in Ht. lia. }
    rewrite E. reflexivity.
Qed.

Lemma X14_marked_teacher_present_for_an_hour_witness :
  listed
    (presence_line
       {| Remote.person_id := 1; Remote.face_id := Py.lit "teacher_1";
          Remote.person_name := Py.lit "Teacher One" |} (Py.lit "Present"))
    (fst (Api.get_teacher_presence (1800 * LocalLog.SECOND)
            (fst (Remote.mark_attendance 0
                    {| Remote.students := [];
                       Remote.teachers :=
                         [{| Remote.person_id := 1;
                             Remote.face_id := Py.lit "teacher_1";
                             Remote.person_name := Py.lit "Teacher One" |}];
                       Remote.attendances := [] |}
                    [(Py.lit "face_id", Py.lit "teacher_1")]))))
  /\ listed
       (presence_line
          {| Remote.person_id := 1; Remote.face_id := Py.lit "teacher_1";
             Remote.person_name := Py.lit "Teacher One" |}
          (Py.lit "Absent/Unknown"))
       (fst (Api.get_teacher_presence (3601 * LocalLog.SECOND)
               (fst (Remote.mark_attendance 0
                       {| Remote.students := [];
                          Remote.teachers :=
                            [{| Remote.person_id := 1;
                                Remote.face_id := Py.lit "teacher_1";
                                Remote.person_name := Py.lit "Teacher One" |}];
                          Remote.attendances := [] |}
                       [(Py.lit "face_id", Py.lit "teacher_1")])))).
Proof.
  split.
  - destruct (@X14_marked_teacher_present_for_an_hour
                {| Remote.students := [];
                   Remote.teachers :=
                     [{| Remote.person_id := 1;
                         Remote.face_id := Py.lit "teacher_1";
                         Remote.person_name := Py.lit "Teacher One" |}];
                   Remote.attendances := [] |}
                {| Remote.person_id := 1; Remote.face_id := Py.lit "teacher_1";
                   Remote.person_name := Py.lit "Teacher One" |}
                0%Z (1800 * LocalLog.SECOND)%Z)
      as [_ [H _]]; [left; reflexivity | discriminate |].
    apply H. unfold LocalLog.SECOND. lia.
  - destruct (@X14_marked_teacher_present_for_an_hour
                {| Remote.students := [];
                   Remote.teachers :=
                     [{| Remote.person_id := 1;
                         Remote.face_id := Py.lit "teacher_1";
                         Remote.person_name := Py.lit "Teacher One" |}];
                   Remote.attendances := [] |}
                {| Remote.person_id := 1; Remote.face_id := Py.lit "teacher_1";
                   Remote.person_name := Py.lit "Teacher One" |}
                0%Z (3601 * LocalLog.SECOND)%Z)
      as [_ [_ H]]; [left; reflexivity | discriminate |].
    apply H; [unfold LocalLog.SECOND; lia | intros a []].
Defined.



(** X16.  What [add_user] lets through.  It returns normally exactly when
    the POST raised a connection error, or was answered with 201, with 409,
    or with a JSON object as body; it has then printed one line.  In every
    other case, any other exception of the POST or an answer whose body is
    not a JSON object, the exception leaves [add_user] and nothing is
    printed. *)
Theorem X16_add_user_returns_iff :
  forall (W : Type)
         (post : W -> Py.str -> list (Py.str * Py.str)
                 -> W * res AddUser.response)
         (url name fid : Py.str) (w : W),
    let out := AddUser.add_user post url name fid w in
    let sent := post w url (add_user_payload name fid) in
    (snd out = Ret tt <->
     snd sent = Raise ConnectionError
     \/ exists r, snd sent = Ret r
                  /\ (AddUser.status_code r = 201%Z
                      \/ AddUser.status_code r = 409%Z
                      \/ exists fields,
                           AddUser.body r = Some (Api.JDict fields)))
    /\ (snd out = Ret tt ->
        exists line,
          snd (fst out)
          = [AddUser.Posted url (add_user_payload name fid);
             AddUser.Printed line])
    /\ (snd out <> Ret tt ->
        snd (fst out) = [AddUser.Posted url (add_user_payload name fid)])
    /\ fst (fst out) = fst sent.
Proof.
  intros W post url name fid w out sent. unfold out, sent, AddUser.add_user.
  change [(Py.lit "name", name); (Py.lit "face_id", fid)]
    with (add_user_payload name fid).
  destruct (post w url (add_user_payload name fid)) as [w1 [r | e]];
    cbn [fst snd].
  - destruct (AddUser.status_code r =? 201)%Z eqn:E201.
    { apply Z.eqb_eq in E201. cbn [fst snd]. repeat split; eauto.
      congruence. }
    destruct (AddUser.status_code r =? 409)%Z eqn:E409.
    { apply Z.eqb_eq in E409. cbn [fst snd]. repeat split; eauto 6.
      congruence. }
    apply Z.eqb_neq in E201, E409.
    unfold AddUser.response_json, AddUser.json_get, bind.
    destruct (AddUser.body r) as [j|] eqn:Eb.
    + destruct j as [| b | n | s | l | fields];
        try (cbn [fst snd]; repeat split;
             [ intros H; discriminate
             | intros [H | [r' [Hr [H | [H | [fields H]]]]]];
               try discriminate; injection Hr as <-;
               try contradiction; congruence
             | intros H; discriminate ]).
      destruct (AddUser.dict_get fields (Py.lit "error"));
        cbn [fst snd]; repeat split; eauto 8; congruence.
    + cbn [fst snd]. repeat split.
      * intros H; discriminate.
      * intros [H | [r' [Hr [H | [H | [fields H]]]]]];
          try discriminate; injection Hr as <-;
          try contradiction; congruence.
      * intros H; discriminate.
  - destruct e; cbn [fst snd]; repeat split; eauto;
      try (intros H; discriminate); try congruence;
      intros [H | [r' [Hr _]]]; discriminate.
Qed.

Lemma X16_add_user_returns_iff_witness :
  snd (fst (AddUser.add_user (AddUser.flask_post Sample.no_route)
              (Py.lit "http://127.0.0.1:5000/api/student")
              (Py.lit "Yug Patel") (Py.lit "yug_patel") Sample.db))
  = [AddUser.Posted (Py.lit "http://127.0.0.1:5000/api/student")
       [(Py.lit "name", Py.lit "Yug Patel");
        (Py.lit "face_id", Py.lit "yug_patel")]].
Proof.
  destruct (@X16_add_user_returns_iff Remote.database
              (AddUser.flask_post Sample.no_route)
              (Py.lit "http://127.0.0.1:5000/api/student")
              (Py.lit "Yug Patel") (Py.lit "yug_patel") Sample.db)
    as [_ [_ [H _]]].
  apply H. discriminate.
Defined.

(** X17.  The chatbot's memory.  For a question that is not empty the
    answer is 200, the reply is one of the four prepared texts, and the
    context returned holds at most three entries: the last entry of the
    context received, if there was one, then the question and the reply.
    Earlier entries are dropped. *)
Theorem X17_chatbot_keeps_three_entries :
  forall (choice : nat) (question : Py.str)
         (context : option (list Api.jvalue)),
    question <> [] ->
    exists text,
      In text (Api.mock_responses question)
      /\ Api.chatbot_endpoint choice (Some question) context
         = (Api.JDict
              [(Py.lit "response", Api.JStr text);
               (Py.lit "context",
                Api.JList
                  (last1 (match context with Some c => c | None => [] end)
                     ++ [Api.JDict [(Py.lit "user", Api.JStr question)];
                         Api.JDict [(Py.lit "bot", Api.JStr text)]]))],
            200%Z).
Proof.
  intros choice question context Hq.
  exists (nth (choice mod 4) (Api.mock_responses question) []). split.
  - apply nth_In. change (length (Api.mock_responses question)) with 4%nat.
    apply Nat.mod_upper_bound. discriminate.
  - unfold Api.chatbot_endpoint.
    destruct question as [|c q]; [congruence|]. cbv zeta.
    do 3 f_equal. f_equal. f_equal. f_equal.
    unfold Api.last3, last1.
    set (old := match context with Some c0 => c0 | None => [] end).
    rewrite length_app, skipn_app. cbn [length app].
    replace (length old + 2 - 3)%nat with (length old - 1)%nat by lia.
    replace (length old - 1 - length old)%nat with 0%nat by lia.
    reflexivity.
Qed.

Lemma X17_chatbot_keeps_three_entries_witness :
  exists text,
    In text (Api.mock_responses (Py.lit "who is present?"))
    /\ Api.chatbot_endpoint 5 (Some (Py.lit "who is present?"))
         (Some [Api.JStr (Py.lit "a"); Api.JStr (Py.lit "b");
                Api.JStr (Py.lit "c")])
       = (Api.JDict
            [(Py.lit "response", Api.JStr text);
             (Py.lit "context",
              Api.JList
                [Api.JStr (Py.lit "c");
                 Api.JDict [(Py.lit "user",
                             Api.JStr (Py.lit "who is present?"))];
                 Api.JDict [(Py.lit "bot", Api.JStr text)]])],
          200%Z).
Proof.
  apply (@X17_chatbot_keeps_three_entries 5 (Py.lit "who is present?")
           (Some [Api.JStr (Py.lit "a"); Api.JStr (Py.lit "b");
                  Api.JStr (Py.lit "c")])).
  discriminate.
Defined.

(** X18.  From the roster directory to the attendance table.  For a
    directory name of ASCII characters: once [add_user] has been run for a
    table of [app.py] with the sent form of the name as face id, whether
    it printed SUCCESS or SKIPPED, a face recognised under that
    directory's display name is marked: the client prints a success and
    the server holds one more attendance row, with that face id and the
    server's clock. *)
Theorem X18_enrolled_directory_is_marked :
  forall (elsewhere : Remote.database -> Py.str -> list (Py.str * Py.str)
                      -> Remote.database * res AddUser.response)
         (k : Api.kind) (d : Remote.database) (utc : nat -> Z) (n : nat)
         (dir person_name : Py.str),
    dir <> [] ->
    Forall (fun c => Py.is_ascii c = true) dir ->
    let d1 :=
      fst (fst (AddUser.add_user (AddUser.flask_post elsewhere)
                  (roster_url k) person_name (sent_form dir) d)) in
    exists d2,
      Remote.mark_attendance_via_api (Remote.flask_post utc)
        (Recognition.display_name dir) (d1, n)
      = ((d2, S n),
         [Remote.Posted [(Py.lit "face_id", sent_form dir)];
          Remote.Printed (Remote.API_SUCCESS (Recognition.display_name dir))],
         Ret tt)
      /\ remote_events d2 = remote_events d ++ [(sent_form dir, utc n)].
Proof.
  intros elsewhere k d utc n dir person_name Hdir Hascii d1.
  pose proof (@ScriptFacts.add_user_enrols elsewhere k person_name
                (sent_form dir) d) as [Hin Hatt].
  fold d1 in Hin, Hatt.
  assert (Hfid : Remote.face_id_of (Recognition.display_name dir)
                 = sent_form dir)
    by (apply NameFacts.face_id_sent_form, Hascii).
  assert (Hne : Remote.face_id_of (Recognition.display_name dir) <> []).
  { rewrite Hfid. destruct dir; [congruence | discriminate]. }
  destruct (@ScriptFacts.delivery_enrolled utc d1 n
              (Recognition.display_name dir) Hne) as [d2 [E [Hev _]]].
  { rewrite Hfid. destruct k; [left | right]; exact Hin. }
  exists d2. rewrite Hfid in E, Hev. split; [exact E|].
  rewrite Hev. unfold remote_events. rewrite Hatt. reflexivity.
Qed.

Lemma X18_enrolled_directory_is_marked_witness :
  exists d2,
    Remote.mark_attendance_via_api (Remote.flask_post Sample.utc)
      (Recognition.display_name (Py.lit "yug_patel"))
      (fst (fst (AddUser.add_user (AddUser.flask_post Sample.no_route)
                   AddUser.API_STUDENTS
                   (Py.lit "Yug Patel") (sent_form (Py.lit "yug_patel"))
                   Sample.db)), 2%nat)
    = ((d2, 3%nat),
       [Remote.Posted [(Py.lit "face_id", sent_form (Py.lit "yug_patel"))];
        Remote.Printed
          (Remote.API_SUCCESS (Recognition.display_name (Py.lit "yug_patel")))],
       Ret tt)
    /\ remote_events d2
       = remote_events Sample.db
           ++ [(sent_form (Py.lit "yug_patel"), Sample.utc 2)].
Proof.
  apply (@X18_enrolled_directory_is_marked Sample.no_route Api.Student
           Sample.db Sample.utc 2%nat (Py.lit "yug_patel")
           (Py.lit "Yug Patel")).
  - discriminate.
  - repeat constructor.
Defined.
